(** * Resilient orchestration core of the stock-prediction backend

    A shallow embedding of
    - [data_collector/sources/base.py] and the four concrete providers,
    - [data_collector/fallback_manager.py],
    - [ai_predictor/predictor.py],
    - [ensemble/engine.py] with [models/prediction.py] and [models/result.py],
    - [data_collector/realtime.py], [news.py], [collector.py] and
      [historical.py] with [models/data.py],
    - [services/prediction_service.py] and [services/ranking_service.py],
    followed by the properties of the specification that were checked
    against it and by further properties of the embedded code.

    Conventions of the embedding.
    - Python [int] is [Z].  A Python [str] is held as its UTF-8
      encoding; [str.upper] and [str.strip] work on its code points.
    - Python [float].  The ensemble engine is embedded twice.  In
      [Ensemble64] a price is the binary64 it is, with the arithmetic,
      [sum], [round] and [statistics.stdev] of CPython 3.11; every
      property about the numbers of an ensemble is stated there.  In
      [Ensemble], and in the other modules, a float is idealised as a
      real number ([R]); that embedding carries the properties that do
      not turn on how binary64 arithmetic rounds (which calls are made,
      what is raised, votes, reasons, keys, bounds).
    - A Python [dict] whose iteration order matters is an association
      list in insertion order; a dict used only through lookups is a
      [gmap].
    - Objects shared by reference (the providers held by the manager) live
      in a store, a [list DataSource]; a reference is an index into it.
    - A call that may raise returns [Res]; [try]/[except] is a [match] on
      it.  The outcome of every call that leaves the process (a provider's
      [fetch_realtime], an awaited predictor, the random generator) is an
      argument of the function that performs the call.
    - Logging has no effect on the modelled state and is left out. *)

From Stdlib Require Import Floats QArith Qabs Qreduction.
From Stdlib Require Import ZArith List String Ascii Bool Lia Reals Lra Zfloor.
From Stdlib Require Import Sorting.Sorted Permutation.
From stdpp Require Import base list strings gmap.
From Equations Require Import Equations.

(* A decimal literal of a float denotes the float nearest to it, as it
   does in Python. *)
Set Warnings "-inexact-float".

Local Open Scope string_scope.
Local Open Scope list_scope.

(* ===================================================================== *)
(** ** Text: a [str] as its UTF-8 encoding                                *)
(* ===================================================================== *)

Module Unicode.

Local Open Scope Z_scope.

(** A Python [str] is a sequence of code points; the embedding holds
    its UTF-8 encoding in a [string].  [decode] reads the code points
    back and [encode] writes them.  A byte that starts no well-formed
    sequence is carried through as the code point [0xDC00 + byte], which
    [encode] writes back as that byte. *)
Definition byte (a : ascii) : Z := Z.of_N (N_of_ascii a).

Definition chr (b : Z) : ascii := ascii_of_N (Z.to_N b).

Definition continuation (b : Z) : bool := (128 <=? b) && (b <? 192).

Definition escape (b : Z) : Z := 56320 + b.

Fixpoint decode (s : string) : list Z :=
  match s with
  | EmptyString => []
  | String a0 s1 =>
      let b0 := byte a0 in
      if b0 <? 128 then b0 :: decode s1
      else
        match s1 with
        | EmptyString => [escape b0]
        | String a1 s2 =>
            let b1 := byte a1 in
            if (194 <=? b0) && (b0 <? 224) && continuation b1
            then ((b0 - 192) * 64 + (b1 - 128)) :: decode s2
            else
              match s2 with
              | EmptyString => escape b0 :: decode s1
              | String a2 s3 =>
                  let b2 := byte a2 in
                  let c3 := (b0 - 224) * 4096 + (b1 - 128) * 64 + (b2 - 128) in
                  if (224 <=? b0) && (b0 <? 240) && continuation b1
                     && continuation b2 && (2048 <=? c3)
                     && negb ((55296 <=? c3) && (c3 <? 57344))
                  then c3 :: decode s3
                  else
                    match s3 with
                    | EmptyString => escape b0 :: decode s1
                    | String a3 s4 =>
                        let b3 := byte a3 in
                        let c4 := (b0 - 240) * 262144 + (b1 - 128) * 4096
                                  + (b2 - 128) * 64 + (b3 - 128) in
                        if (240 <=? b0) && (b0 <? 245) && continuation b1
                           && continuation b2 && continuation b3
                           && (65536 <=? c4) && (c4 <? 1114112)
                        then c4 :: decode s4
                        else escape b0 :: decode s1
                    end
              end
        end
  end.

Definition encode_point (c : Z) : string :=
  if c <? 128 then String (chr c) EmptyString
  else if c <? 2048 then
    String (chr (192 + c / 64)) (String (chr (128 + c mod 64)) EmptyString)
  else if (56448 <=? c) && (c <? 56576) then
    String (chr (c - 56320)) EmptyString
  else if c <? 65536 then
    String (chr (224 + c / 4096))
      (String (chr (128 + (c / 64) mod 64))
         (String (chr (128 + c mod 64)) EmptyString))
  else
    String (chr (240 + c / 262144))
      (String (chr (128 + (c / 4096) mod 64))
         (String (chr (128 + (c / 64) mod 64))
            (String (chr (128 + c mod 64)) EmptyString))).

Definition encode (cs : list Z) : string :=
  fold_right (fun c s => encode_point c +:+ s) EmptyString cs.

(** [str.isspace] of one code point: the ASCII white space and the
    separators of the Unicode character database. *)
Definition isspace (c : Z) : bool :=
  ((9 <=? c) && (c <=? 13)) || ((28 <=? c) && (c <=? 32))
  || (c =? 133) || (c =? 160) || (c =? 5760)
  || ((8192 <=? c) && (c <=? 8202))
  || (c =? 8232) || (c =? 8233) || (c =? 8239) || (c =? 8287)
  || (c =? 12288).

(** The upper-case mappings of the Unicode character database (version
    14.0, the one of CPython 3.11) outside ASCII.  An entry
    [(lo, hi, step, delta)] of [upper_ranges] maps the code points [lo],
    [lo + step], ..., [hi] to themselves plus [delta]; [upper_special]
    lists the code points whose upper case is more than one code
    point. *)
Definition upper_ranges : list (Z * Z * Z * Z) :=
  [
    (181, 181, 1, 743); (224, 246, 1, (-32)); (248, 254, 1, (-32));
    (255, 255, 1, 121); (257, 303, 2, (-1)); (305, 305, 1, (-232));
    (307, 311, 2, (-1)); (314, 328, 2, (-1)); (331, 375, 2, (-1));
    (378, 382, 2, (-1)); (383, 383, 1, (-300)); (384, 384, 1, 195);
    (387, 389, 2, (-1)); (392, 392, 1, (-1)); (396, 396, 1, (-1));
    (402, 402, 1, (-1)); (405, 405, 1, 97); (409, 409, 1, (-1));
    (410, 410, 1, 163); (414, 414, 1, 130); (417, 421, 2, (-1));
    (424, 424, 1, (-1)); (429, 429, 1, (-1)); (432, 432, 1, (-1));
    (436, 438, 2, (-1)); (441, 441, 1, (-1)); (445, 445, 1, (-1));
    (447, 447, 1, 56); (453, 453, 1, (-1)); (454, 454, 1, (-2));
    (456, 456, 1, (-1)); (457, 457, 1, (-2)); (459, 459, 1, (-1));
    (460, 460, 1, (-2)); (462, 476, 2, (-1)); (477, 477, 1, (-79));
    (479, 495, 2, (-1)); (498, 498, 1, (-1)); (499, 499, 1, (-2));
    (501, 501, 1, (-1)); (505, 543, 2, (-1)); (547, 563, 2, (-1));
    (572, 572, 1, (-1)); (575, 576, 1, 10815); (578, 578, 1, (-1));
    (583, 591, 2, (-1)); (592, 592, 1, 10783); (593, 593, 1, 10780);
    (594, 594, 1, 10782); (595, 595, 1, (-210)); (596, 596, 1, (-206));
    (598, 599, 1, (-205)); (601, 601, 1, (-202)); (603, 603, 1, (-203));
    (604, 604, 1, 42319); (608, 608, 1, (-205)); (609, 609, 1, 42315);
    (611, 611, 1, (-207)); (613, 613, 1, 42280); (614, 614, 1, 42308);
    (616, 616, 1, (-209)); (617, 617, 1, (-211)); (618, 618, 1, 42308);
    (619, 619, 1, 10743); (620, 620, 1, 42305); (623, 623, 1, (-211));
    (625, 625, 1, 10749); (626, 626, 1, (-213)); (629, 629, 1, (-214));
    (637, 637, 1, 10727); (640, 640, 1, (-218)); (642, 642, 1, 42307);
    (643, 643, 1, (-218)); (647, 647, 1, 42282); (648, 648, 1, (-218));
    (649, 649, 1, (-69)); (650, 651, 1, (-217)); (652, 652, 1, (-71));
    (658, 658, 1, (-219)); (669, 669, 1, 42261); (670, 670, 1, 42258);
    (837, 837, 1, 84); (881, 883, 2, (-1)); (887, 887, 1, (-1));
    (891, 893, 1, 130); (940, 940, 1, (-38)); (941, 943, 1, (-37));
    (945, 961, 1, (-32)); (962, 962, 1, (-31)); (963, 971, 1, (-32));
    (972, 972, 1, (-64)); (973, 974, 1, (-63)); (976, 976, 1, (-62));
    (977, 977, 1, (-57)); (981, 981, 1, (-47)); (982, 982, 1, (-54));
    (983, 983, 1, (-8)); (985, 1007, 2, (-1)); (1008, 1008, 1, (-86));
    (1009, 1009, 1, (-80)); (1010, 1010, 1, 7); (1011, 1011, 1, (-116));
    (1013, 1013, 1, (-96)); (1016, 1016, 1, (-1)); (1019, 1019, 1, (-1));
    (1072, 1103, 1, (-32)); (1104, 1119, 1, (-80)); (1121, 1153, 2, (-1));
    (1163, 1215, 2, (-1)); (1218, 1230, 2, (-1)); (1231, 1231, 1, (-15));
    (1233, 1327, 2, (-1)); (1377, 1414, 1, (-48)); (4304, 4346, 1, 3008);
    (4349, 4351, 1, 3008); (5112, 5117, 1, (-8)); (7296, 7296, 1, (-6254));
    (7297, 7297, 1, (-6253)); (7298, 7298, 1, (-6244));
    (7299, 7300, 1, (-6242)); (7301, 7301, 1, (-6243));
    (7302, 7302, 1, (-6236)); (7303, 7303, 1, (-6181));
    (7304, 7304, 1, 35266); (7545, 7545, 1, 35332); (7549, 7549, 1, 3814);
    (7566, 7566, 1, 35384); (7681, 7829, 2, (-1)); (7835, 7835, 1, (-59));
    (7841, 7935, 2, (-1)); (7936, 7943, 1, 8); (7952, 7957, 1, 8);
    (7968, 7975, 1, 8); (7984, 7991, 1, 8); (8000, 8005, 1, 8);
    (8017, 8023, 2, 8); (8032, 8039, 1, 8); (8048, 8049, 1, 74);
    (8050, 8053, 1, 86); (8054, 8055, 1, 100); (8056, 8057, 1, 128);
    (8058, 8059, 1, 112); (8060, 8061, 1, 126); (8112, 8113, 1, 8);
    (8126, 8126, 1, (-7205)); (8144, 8145, 1, 8); (8160, 8161, 1, 8);
    (8165, 8165, 1, 7); (8526, 8526, 1, (-28)); (8560, 8575, 1, (-16));
    (8580, 8580, 1, (-1)); (9424, 9449, 1, (-26));
    (11312, 11359, 1, (-48)); (11361, 11361, 1, (-1));
    (11365, 11365, 1, (-10795)); (11366, 11366, 1, (-10792));
    (11368, 11372, 2, (-1)); (11379, 11379, 1, (-1));
    (11382, 11382, 1, (-1)); (11393, 11491, 2, (-1));
    (11500, 11502, 2, (-1)); (11507, 11507, 1, (-1));
    (11520, 11557, 1, (-7264)); (11559, 11559, 1, (-7264));
    (11565, 11565, 1, (-7264)); (42561, 42605, 2, (-1));
    (42625, 42651, 2, (-1)); (42787, 42799, 2, (-1));
    (42803, 42863, 2, (-1)); (42874, 42876, 2, (-1));
    (42879, 42887, 2, (-1)); (42892, 42892, 1, (-1));
    (42897, 42899, 2, (-1)); (42900, 42900, 1, 48);
    (42903, 42921, 2, (-1)); (42933, 42947, 2, (-1));
    (42952, 42954, 2, (-1)); (42961, 42961, 1, (-1));
    (42967, 42969, 2, (-1)); (42998, 42998, 1, (-1));
    (43859, 43859, 1, (-928)); (43888, 43967, 1, (-38864));
    (65345, 65370, 1, (-32)); (66600, 66639, 1, (-40));
    (66776, 66811, 1, (-40)); (66967, 66977, 1, (-39));
    (66979, 66993, 1, (-39)); (66995, 67001, 1, (-39));
    (67003, 67004, 1, (-39)); (68800, 68850, 1, (-64));
    (71872, 71903, 1, (-32)); (93792, 93823, 1, (-32));
    (125218, 125251, 1, (-34))
  ].

Definition upper_special : list (Z * list Z) :=
  [
    (223, [83; 83]); (329, [700; 78]); (496, [74; 780]);
    (912, [921; 776; 769]); (944, [933; 776; 769]); (1415, [1333; 1362]);
    (7830, [72; 817]); (7831, [84; 776]); (7832, [87; 778]);
    (7833, [89; 778]); (7834, [65; 702]); (8016, [933; 787]);
    (8018, [933; 787; 768]); (8020, [933; 787; 769]);
    (8022, [933; 787; 834]); (8064, [7944; 921]); (8065, [7945; 921]);
    (8066, [7946; 921]); (8067, [7947; 921]); (8068, [7948; 921]);
    (8069, [7949; 921]); (8070, [7950; 921]); (8071, [7951; 921]);
    (8072, [7944; 921]); (8073, [7945; 921]); (8074, [7946; 921]);
    (8075, [7947; 921]); (8076, [7948; 921]); (8077, [7949; 921]);
    (8078, [7950; 921]); (8079, [7951; 921]); (8080, [7976; 921]);
    (8081, [7977; 921]); (8082, [7978; 921]); (8083, [7979; 921]);
    (8084, [7980; 921]); (8085, [7981; 921]); (8086, [7982; 921]);
    (8087, [7983; 921]); (8088, [7976; 921]); (8089, [7977; 921]);
    (8090, [7978; 921]); (8091, [7979; 921]); (8092, [7980; 921]);
    (8093, [7981; 921]); (8094, [7982; 921]); (8095, [7983; 921]);
    (8096, [8040; 921]); (8097, [8041; 921]); (8098, [8042; 921]);
    (8099, [8043; 921]); (8100, [8044; 921]); (8101, [8045; 921]);
    (8102, [8046; 921]); (8103, [8047; 921]); (8104, [8040; 921]);
    (8105, [8041; 921]); (8106, [8042; 921]); (8107, [8043; 921]);
    (8108, [8044; 921]); (8109, [8045; 921]); (8110, [8046; 921]);
    (8111, [8047; 921]); (8114, [8122; 921]); (8115, [913; 921]);
    (8116, [902; 921]); (8118, [913; 834]); (8119, [913; 834; 921]);
    (8124, [913; 921]); (8130, [8138; 921]); (8131, [919; 921]);
    (8132, [905; 921]); (8134, [919; 834]); (8135, [919; 834; 921]);
    (8140, [919; 921]); (8146, [921; 776; 768]); (8147, [921; 776; 769]);
    (8150, [921; 834]); (8151, [921; 776; 834]); (8162, [933; 776; 768]);
    (8163, [933; 776; 769]); (8164, [929; 787]); (8166, [933; 834]);
    (8167, [933; 776; 834]); (8178, [8186; 921]); (8179, [937; 921]);
    (8180, [911; 921]); (8182, [937; 834]); (8183, [937; 834; 921]);
    (8188, [937; 921]); (64256, [70; 70]); (64257, [70; 73]);
    (64258, [70; 76]); (64259, [70; 70; 73]); (64260, [70; 70; 76]);
    (64261, [83; 84]); (64262, [83; 84]); (64275, [1348; 1350]);
    (64276, [1348; 1333]); (64277, [1348; 1339]); (64278, [1358; 1350]);
    (64279, [1348; 1341])
  ].

Definition in_range (c : Z) (r : Z * Z * Z * Z) : bool :=
  let '(lo, hi, step, _) := r in
  (lo <=? c) && (c <=? hi) && ((c - lo) mod step =? 0).

(** The upper case of one code point. *)
Definition toupper (c : Z) : list Z :=
  if c <? 128 then
    if (97 <=? c) && (c <=? 122) then [c - 32] else [c]
  else
    match List.find (fun e : Z * list Z => e.1 =? c) upper_special with
    | Some e => e.2
    | None =>
        match List.find (in_range c) upper_ranges with
        | Some (_, _, _, delta) => [c + delta]
        | None => [c]
        end
    end.

End Unicode.

(* ===================================================================== *)
(** ** Python values, exceptions and dictionaries                        *)
(* ===================================================================== *)

Module Py.

Inductive Exn : Type :=
| ValueError (msg : string)
| ValidationError (field : string)   (* pydantic; a subclass of ValueError *)
| TimeoutError                       (* asyncio.TimeoutError *)
| ZeroDivisionError
| StatisticsError
| IndexError
| Exception (msg : string).          (* any other subclass of Exception *)

Inductive Res (A : Type) : Type :=
| Ok (a : A)
| Raise (e : Exn).
Arguments Ok {A} a.
Arguments Raise {A} e.

Definition bind {A B} (m : Res A) (k : A -> Res B) : Res B :=
  match m with
  | Ok a => k a
  | Raise e => Raise e
  end.

#[global] Instance Res_ret : MRet Res := @Ok.
#[global] Instance Res_bind : MBind Res := fun A B k m => bind m k.

Inductive Value : Type :=
| VFloat (r : R)
| VInt (z : Z)
| VBool (b : bool).

(** An insertion-ordered dict with string keys: [d.get(k)], [k in d],
    [d[k] = v] and [d.keys()]. *)
Fixpoint dict_get {V : Type} (d : list (string * V)) (k : string)
  : option V :=
  match d with
  | [] => None
  | (k', v) :: d' => if String.eqb k k' then Some v else dict_get d' k
  end.

Fixpoint dict_set {V : Type} (d : list (string * V)) (k : string) (v : V)
  : list (string * V) :=
  match d with
  | [] => [(k, v)]
  | (k', v') :: d' =>
      if String.eqb k k' then (k', v) :: d' else (k', v') :: dict_set d' k v
  end.

Definition dict_keys {V : Type} (d : list (string * V)) : list string :=
  map fst d.

Definition Dict : Type := list (string * Value).

(** Truth value of an [Optional[Dict]]: [None] and the empty dict are
    false. *)
Definition truthy (data : option Dict) : bool :=
  match data with
  | None => false
  | Some [] => false
  | Some (_ :: _) => true
  end.

(** [str.upper]: every code point is replaced by its upper case. *)
Definition upper (s : string) : string :=
  Unicode.encode (flat_map Unicode.toupper (Unicode.decode s)).

(** [x in [a, b, c]] on strings. *)
Definition str_in (x : string) (l : list string) : bool :=
  existsb (String.eqb x) l.

End Py.

Import Py.

(* ===================================================================== *)
(** ** data_collector/sources                                            *)
(* ===================================================================== *)

Module Sources.

(** The fields of [DataSource]; [supports_market] is the method each
    subclass overrides. *)
Record DataSource : Type := mkDataSource {
  name : string;
  priority : Z;
  enabled : bool;
  failure_count : Z;
  max_failures : Z;
  supports_market : string -> bool
}.

Definition set_enabled (b : bool) (s : DataSource) : DataSource :=
  mkDataSource (name s) (priority s) b (failure_count s) (max_failures s)
               (supports_market s).

Definition set_failure_count (n : Z) (s : DataSource) : DataSource :=
  mkDataSource (name s) (priority s) (enabled s) n (max_failures s)
               (supports_market s).

(** [DataSource.__init__] *)
Definition DataSource_init (name : string) (priority : Z)
    (supports : string -> bool) : DataSource :=
  mkDataSource name priority true 0 3 supports.

(** [bool(x)] and [x or y] on optional strings. *)
Definition str_bool (x : option string) : bool :=
  match x with
  | Some (String _ _) => true
  | _ => false
  end.

Definition str_or (x y : option string) : option string :=
  if str_bool x then x else y.

Definition korean_markets : list string := ["KRX"; "KOSPI"; "KOSDAQ"].
Definition us_markets : list string := ["NASDAQ"; "NYSE"; "AMEX"].

Definition YFinanceSource : DataSource :=
  DataSource_init "YahooFinance" 1 (fun _ => true).

Definition FDRSource (FDR_AVAILABLE : bool) : DataSource :=
  set_enabled FDR_AVAILABLE
    (DataSource_init "FinanceDataReader" 2
       (fun market => str_in (upper market) korean_markets)).

Definition PyKrxSource (PYKRX_AVAILABLE : bool) : DataSource :=
  set_enabled PYKRX_AVAILABLE
    (DataSource_init "PyKrx" 3
       (fun market => str_in (upper market) korean_markets)).

Definition AlphaVantageSource (api_key settings_key : option string)
  : DataSource :=
  set_enabled (str_bool (str_or api_key settings_key))
    (DataSource_init "AlphaVantage" 4
       (fun market => str_in (upper market) us_markets)).

(** [DataSource._record_failure] *)
Definition _record_failure (self : DataSource) : DataSource :=
  let self := set_failure_count (failure_count self + 1) self in
  if (max_failures self <=? failure_count self)%Z
  then set_enabled false self
  else self.

(** [DataSource.reset] *)
Definition reset (self : DataSource) : DataSource :=
  set_enabled true (set_failure_count 0 self).

(** [DataSource.try_fetch].  [fetch_realtime] is the outcome of the
    subclass method for this call.  The third component tells whether
    [fetch_realtime] was invoked.  The log line of the success branch
    formats [data.get('current_price', 0)] as a number; the values of a
    [Dict] are numbers, on which that cannot fail. *)
Definition try_fetch (self : DataSource) (symbol market : string)
    (fetch_realtime : string -> string -> Res (option Dict))
  : DataSource * Res (option Dict) * bool :=
  if negb (enabled self) then (self, Ok None, false)
  else if negb (supports_market self market) then (self, Ok None, false)
  else
    match fetch_realtime symbol market with
    | Ok data =>
        if truthy data
        then (set_failure_count 0 self, Ok data, true)
        else (_record_failure self, Ok None, true)
    | Raise _ => (_record_failure self, Ok None, true)
    end.

(** The life of one provider object: guarded trials and resets. *)
Inductive Event : Type :=
| EvTryFetch (symbol market : string)
             (fetch_realtime : string -> string -> Res (option Dict))
| EvReset.

Definition step (s : DataSource) (ev : Event) : DataSource :=
  match ev with
  | EvTryFetch symbol market f => (try_fetch s symbol market f).1.1
  | EvReset => reset s
  end.

Definition run (s : DataSource) (evs : list Event) : DataSource :=
  fold_left step evs s.

(** The initial state of each of the four shipped providers, under every
    environment (library present or not, API key configured or not). *)
Inductive shipped : DataSource -> Prop :=
| shipped_yfinance : shipped YFinanceSource
| shipped_fdr avail : shipped (FDRSource avail)
| shipped_pykrx avail : shipped (PyKrxSource avail)
| shipped_alpha key settings_key :
    shipped (AlphaVantageSource key settings_key).

(** A fetch outcome that counts as a failure in [try_fetch]. *)
Definition fails (out : Res (option Dict)) : bool :=
  match out with
  | Ok data => negb (truthy data)
  | Raise _ => true
  end.

End Sources.

Import Sources.

(* ===================================================================== *)
(** ** data_collector/fallback_manager.py                                *)
(* ===================================================================== *)

Module Fallback.

(** [list.sort(key=lambda x: x.priority)]: a stable sort, whose result
    is determined by its input; computed here by stable insertion. *)
Fixpoint insert_by_priority (x : DataSource) (l : list DataSource)
  : list DataSource :=
  match l with
  | [] => [x]
  | y :: l' =>
      if (priority x <=? priority y)%Z
      then x :: y :: l'
      else y :: insert_by_priority x l'
  end.

Fixpoint sort_by_priority (l : list DataSource) : list DataSource :=
  match l with
  | [] => []
  | x :: l' => insert_by_priority x (sort_by_priority l')
  end.

(** [FallbackManager._register_sources], for any registration list. *)
Definition _register_sources (registered : list DataSource)
  : list DataSource :=
  sort_by_priority registered.

(** The list the shipped manager registers. *)
Definition shipped_sources (fdr pykrx : bool)
    (api_key settings_key : option string) : list DataSource :=
  [ YFinanceSource; FDRSource fdr; PyKrxSource pykrx;
    AlphaVantageSource api_key settings_key ].

(** What one request sees of the outside: the outcome of
    [fetch_realtime] of the provider at each store index. *)
Definition World : Type := nat -> string -> string -> Res (option Dict).

(** The two draws of [_get_mock_data]:
    [random.uniform(-0.05, 0.05)] and [random.randint(1000000, 10000000)]. *)
Record Random : Type := mkRandom { uniform : R; randint : Z }.

(** [FallbackManager._get_mock_data] *)
Definition _get_mock_data (symbol market : string) (rnd : Random) : Dict :=
  let base_price : R :=
    if str_in (upper market) ["KOSPI"; "KOSDAQ"; "KRX"]
    then 50000%R else 150%R in
  let current_price := (base_price * (1 + uniform rnd))%R in
  let previous_close := base_price in
  let volume := randint rnd in
  [ ("current_price", VFloat current_price);
    ("market_cap", VFloat (current_price * IZR volume * 100)%R);
    ("trading_volume", VInt volume);
    ("trading_value", VFloat (current_price * IZR volume)%R);
    ("change_rate",
      VFloat ((current_price - previous_close) / previous_close * 100)%R);
    ("previous_close", VFloat previous_close) ].

(** [source.try_fetch(symbol, market)] on the object at index [i] of the
    shared store. *)
Definition try_fetch_at (sources : list DataSource) (i : nat)
    (symbol market : string)
    (fetch_realtime : string -> string -> Res (option Dict))
  : list DataSource * Res (option Dict) * bool :=
  match sources !! i with
  | Some source =>
      let '(source', r, called) :=
        try_fetch source symbol market fetch_realtime in
      (<[i := source']> sources, r, called)
  | None => (sources, Ok None, false)
  end.

(** [active_sources = [s for s in self.sources if s.enabled]]: references
    to the enabled providers, in store order. *)
Definition active_sources (sources : list DataSource) : list nat :=
  List.filter
    (fun i => match sources !! i with
              | Some s => enabled s
              | None => false
              end)
    (seq 0 (length sources)).

(** The [for source in active_sources] loop.  [Ok (Some data)] is the
    [return data] inside the loop, [Ok None] is falling out of it.  The
    last component lists, in call order, the store indices whose
    [fetch_realtime] was invoked. *)
Fixpoint try_each (sources : list DataSource) (active : list nat)
    (symbol market : string) (w : World)
  : list DataSource * Res (option Dict) * list nat :=
  match active with
  | [] => (sources, Ok None, [])
  | i :: rest =>
      let '(sources1, r, called) :=
        try_fetch_at sources i symbol market (w i) in
      let tr := if called then [i] else [] in
      match r with
      | Ok data =>
          if truthy data then (sources1, Ok data, tr)
          else
            let '(sources2, r2, tr2) :=
              try_each sources1 rest symbol market w in
            (sources2, r2, tr ++ tr2)
      | Raise e => (sources1, Raise e, tr)
      end
  end.

(** [FallbackManager.fetch_with_fallback] *)
Definition fetch_with_fallback (sources : list DataSource)
    (symbol market : string) (w : World) (rnd : Random)
  : list DataSource * Res Dict * list nat :=
  match active_sources sources with
  | [] => (sources, Ok (_get_mock_data symbol market rnd), [])
  | active =>
      let '(sources', r, tr) := try_each sources active symbol market w in
      match r with
      | Ok (Some data) => (sources', Ok data, tr)
      | Ok None => (sources', Ok (_get_mock_data symbol market rnd), tr)
      | Raise e => (sources', Raise e, tr)
      end
  end.

(** [FallbackManager.reset_all_sources] *)
Definition reset_all_sources (sources : list DataSource)
  : list DataSource :=
  map reset sources.

(** [FallbackManager.get_status] *)
Definition get_status (sources : list DataSource)
  : list (string * (bool * Z * Z)) :=
  map (fun s => (name s, (enabled s, priority s, failure_count s))) sources.

(** The six keys of a payload, in the order every provider writes them. *)
Definition payload_keys : list string :=
  [ "current_price"; "market_cap"; "trading_volume"; "trading_value";
    "change_rate"; "previous_close" ].

(** A sequence of requests against one manager, each with its own view
    of the outside. *)
Definition serve (sources : list DataSource)
    (req : string * string * World * Random) : list DataSource :=
  let '(symbol, market, w, rnd) := req in
  (fetch_with_fallback sources symbol market w rnd).1.1.

Definition serve_all (sources : list DataSource)
    (reqs : list (string * string * World * Random)) : list DataSource :=
  fold_left serve reqs sources.

End Fallback.

Import Fallback.

(* ===================================================================== *)
(** ** ai_predictor/predictor.py                                         *)
(* ===================================================================== *)

Module Predictor.

(** What a predictor returns: [{"model": .., "content": .., "success": ..}]. *)
Record RawResponse : Type := mkRawResponse {
  model : string;
  content : string;
  success : bool
}.

(** What one call of [predict_all] sees of the outside: for the model of
    a given display name and its prompt, the outcome of awaiting
    [asyncio.wait_for(predict_fn(prompt), timeout=self.timeout)], that
    is a value, [Raise TimeoutError] when the timeout expires first, or
    the exception the predictor raised. *)
Definition World : Type := string -> string -> Res (option RawResponse).

(** [AIPredictor._safe_predict] *)
Definition _safe_predict (w : World) (name prompt : string)
  : Res (option RawResponse) :=
  match w name prompt with
  | Ok result => Ok result
  | Raise TimeoutError => Ok None
  | Raise _ => Ok None
  end.

(** One of the five [if .. in self.predictors and .. in prompts] blocks:
    append the task and its display name. *)
Definition add_task (predictors : gset string) (prompts : gmap string string)
    (w : World) (key prompt_key model_name : string)
    (acc : list (Res (option RawResponse)) * list string)
  : list (Res (option RawResponse)) * list string :=
  if bool_decide (key ∈ predictors) then
    match prompts !! prompt_key with
    | Some prompt =>
        (acc.1 ++ [_safe_predict w model_name prompt], acc.2 ++ [model_name])
    | None => acc
    end
  else acc.

(** [asyncio.gather] over all tasks with [return_exceptions=True]: every task is
    awaited; what a task raises is handed back as its result, in the
    position of the task. *)
Definition gather (tasks : list (Res (option RawResponse)))
  : Res (list (Res (option RawResponse))) :=
  Ok tasks.

(** The body of [for model_name, result in zip(model_names, results)]. *)
Definition record_result (predictions : gmap string (option RawResponse))
    (item : string * Res (option RawResponse))
  : gmap string (option RawResponse) :=
  match item.2 with
  | Raise _ => <[item.1 := None]> predictions
  | Ok None => <[item.1 := None]> predictions
  | Ok (Some result) => <[item.1 := Some result]> predictions
  end.

(** [sum(1 for v in predictions.values() if v is not None)] *)
Definition success_count (predictions : gmap string (option RawResponse))
  : nat :=
  length (List.filter (fun kv : string * option RawResponse =>
                         match kv.2 with Some _ => true | None => false end)
                      (map_to_list predictions)).

(** The tasks and display names built by the five blocks. *)
Definition build_tasks (predictors : gset string)
    (prompts : gmap string string) (w : World)
  : list (Res (option RawResponse)) * list string :=
  let acc := ([], []) in
  let acc := add_task predictors prompts w "GPT" "gpt" "GPT-5.2" acc in
  let acc := add_task predictors prompts w "Gemini" "gemini" "Gemini 3.0" acc in
  let acc := add_task predictors prompts w "Claude" "claude" "Claude 4.5" acc in
  let acc := add_task predictors prompts w "Ollama" "gemma" "Gemma" acc in
  let acc := add_task predictors prompts w "Ollama" "qwen" "Qwen" acc in
  acc.

(** [AIPredictor.predict_all]; [predictors] holds the keys of
    [self.predictors]. *)
Definition predict_all (predictors : gset string)
    (prompts : gmap string string) (w : World)
  : Res (gmap string (option RawResponse)) :=
  let '(tasks, model_names) := build_tasks predictors prompts w in
  match tasks with
  | [] => Ok ∅
  | _ :: _ =>
      match gather tasks with
      | Ok results =>
          Ok (fold_left record_result (combine model_names results) ∅)
      | Raise e => Raise e
      end
  end.

(** The registry key, prompt key and display name of each block. *)
Definition routes : list (string * string * string) :=
  [ ("GPT", "gpt", "GPT-5.2"); ("Gemini", "gemini", "Gemini 3.0");
    ("Claude", "claude", "Claude 4.5"); ("Ollama", "gemma", "Gemma");
    ("Ollama", "qwen", "Qwen") ].

(** A predictor is dispatched with a prompt when its registry key is
    present and the request mapping has its prompt. *)
Definition dispatched (predictors : gset string)
    (prompts : gmap string string) (model_name prompt : string) : Prop :=
  exists key prompt_key,
    In (key, prompt_key, model_name) routes /\
    key ∈ predictors /\ prompts !! prompt_key = Some prompt.

End Predictor.

(* ===================================================================== *)
(** ** models/prediction.py, models/result.py, ensemble/engine.py        *)
(* ===================================================================== *)

Module Ensemble.

Inductive SentimentType : Type := POSITIVE | NEGATIVE | NEUTRAL.

#[global] Instance SentimentType_eq_dec : EqDecision SentimentType.
Proof. solve_decision. Defined.

(** The value of each member of the enum. *)
Definition sentiment_value (s : SentimentType) : string :=
  match s with
  | POSITIVE => "긍정"
  | NEGATIVE => "부정"
  | NEUTRAL => "중립"
  end.

Record PeriodPrediction : Type := mkPeriodPrediction {
  price : R;
  reason : string;
  sentiment : SentimentType
}.

(** [timestamp] plays no part in the engine and is left out. *)
Record ModelPrediction : Type := mkModelPrediction {
  model_name : string;
  predictions : list (string * PeriodPrediction);
  success : bool
}.

(** [EnsemblePrediction] extends [PeriodPrediction]. *)
Record EnsemblePrediction : Type := mkEnsemblePrediction {
  as_period :> PeriodPrediction;
  disagreement : bool;
  std_dev : R
}.

(** *** Builtins *)

(** [str.strip()]: the code points for which [str.isspace] holds are
    dropped from both ends. *)
Fixpoint lstrip (cs : list Z) : list Z :=
  match cs with
  | [] => []
  | c :: cs' => if Unicode.isspace c then lstrip cs' else cs
  end.

Definition rstrip (cs : list Z) : list Z := rev (lstrip (rev cs)).

Definition strip (s : string) : string :=
  Unicode.encode (rstrip (lstrip (Unicode.decode s))).

(** [sum(xs)] *)
Definition sum (xs : list R) : R := fold_left Rplus xs 0%R.

(** [x / y] on floats. *)
Definition py_div (x y : R) : Res R :=
  if Req_dec_T y 0 then Raise ZeroDivisionError else Ok (x / y)%R.

(** [round(x)] to the nearest integer, a tie going to the even one. *)
Definition round_half_even (x : R) : Z :=
  let f := Zfloor x in
  let d := (x - IZR f)%R in
  if Rlt_dec d (1 / 2) then f
  else if Rlt_dec (1 / 2) d then (f + 1)%Z
  else if Z.even f then f else (f + 1)%Z.

(** [round(x, 2)] *)
Definition round2 (x : R) : R := (IZR (round_half_even (x * 100)) / 100)%R.

(** [statistics.stdev(data)]: the square root of the sample variance;
    raises [StatisticsError] on fewer than two values. *)
Definition stdev (data : list R) : Res R :=
  if (length data <? 2)%nat then Raise StatisticsError
  else
    let xbar := (sum data / INR (length data))%R in
    let ss := sum (map (fun x => ((x - xbar) * (x - xbar))%R) data) in
    Ok (sqrt (ss / (INR (length data) - 1))).

(** [collections.Counter(xs)]: the counts, keyed in first-seen order. *)
Fixpoint counter_add (x : SentimentType) (c : list (SentimentType * nat))
  : list (SentimentType * nat) :=
  match c with
  | [] => [(x, 1%nat)]
  | (y, n) :: c' =>
      if bool_decide (x = y) then (y, S n) :: c' else (y, n) :: counter_add x c'
  end.

Definition Counter (xs : list SentimentType) : list (SentimentType * nat) :=
  fold_left (fun c x => counter_add x c) xs [].

(** [max(items, key=itemgetter(1))]: the first item of greatest count;
    [keep_max] is one step of its scan. *)
Definition keep_max (best : option (SentimentType * nat))
    (item : SentimentType * nat) : option (SentimentType * nat) :=
  match best with
  | None => Some item
  | Some b => if (b.2 <? item.2)%nat then Some item else Some b
  end.

Definition max_by_count (items : list (SentimentType * nat))
  : option (SentimentType * nat) :=
  fold_left keep_max items None.

(** [Counter.most_common(1)], which is [heapq.nlargest(1, items, key)]. *)
Definition most_common_1 (c : list (SentimentType * nat))
  : list (SentimentType * nat) :=
  match max_by_count c with
  | Some item => [item]
  | None => []
  end.

(** [" | ".join(xs)] is [String.concat " | " xs]. *)

(** *** pydantic validation of [EnsemblePrediction(...)] *)

(** [PeriodPrediction.validate_reason], after [Field(min_length=1)]. *)
Definition validate_reason (v : string) : Res string :=
  match v with
  | EmptyString => Raise (ValidationError "reason")
  | _ =>
      match strip v with
      | EmptyString => Raise (ValidationError "reason")
      | stripped => Ok stripped
      end
  end.

(** A validated field value, as the [values] argument of a validator
    holds them. *)
Inductive FieldValue : Type :=
| FFloat (r : R)
| FStr (s : string)
| FBool (b : bool).

(** [EnsemblePrediction.validate_disagreement]; [values] holds the fields
    validated before [disagreement]. *)
Definition validate_disagreement (v : bool)
    (values : list (string * FieldValue)) : bool :=
  match dict_get values "std_dev", dict_get values "price" with
  | Some (FFloat sd), Some (FFloat p) =>
      let threshold := (p * (2 / 10))%R in
      if Rlt_dec threshold sd then true else v
  | _, _ => v
  end.

(** The constructor call.  Fields are validated in declaration order:
    [price] ([gt=0]), [reason], [sentiment], [disagreement], [std_dev]
    ([ge=0]); a failed field is absent from [values]. *)
Definition EnsemblePrediction_new (price : R) (reason : string)
    (sentiment : SentimentType) (disagreement : bool) (std_dev : R)
  : Res EnsemblePrediction :=
  let price_ok := if Rlt_dec 0 price then true else false in
  let reason_v := validate_reason reason in
  let values : list (string * FieldValue) :=
    (if price_ok then [("price", FFloat price)] else []) ++
    (match reason_v with Ok r => [("reason", FStr r)] | Raise _ => [] end) ++
    [("sentiment", FStr (sentiment_value sentiment))] in
  let disagreement_v := validate_disagreement disagreement values in
  if negb price_ok then Raise (ValidationError "price")
  else
    match reason_v with
    | Raise e => Raise e
    | Ok r =>
        if Rle_dec 0 std_dev
        then Ok (mkEnsemblePrediction (mkPeriodPrediction price r sentiment)
                                      disagreement_v std_dev)
        else Raise (ValidationError "std_dev")
    end.

(** *** EnsembleEngine *)

(** [EnsembleEngine._vote_sentiment]; [Raise IndexError] is what
    [most_common(1)[0]] would do on an empty [Counter]. *)
Definition _vote_sentiment (sentiments : list SentimentType)
  : Res SentimentType :=
  match sentiments with
  | [] => Ok NEUTRAL
  | _ :: _ =>
      let sentiment_counts := Counter sentiments in
      match most_common_1 sentiment_counts with
      | most_common :: _ => Ok most_common.1
      | [] => Raise IndexError
      end
  end.

(** [EnsembleEngine._combine_reasons] *)
Definition _combine_reasons (reasons : list string) : string :=
  match reasons with
  | [] => "종합 분석 결과"
  | _ :: _ =>
      let '(unique_reasons, seen) :=
        fold_left
          (fun (acc : list string * gset string) reason =>
             if bool_decide (reason ∈ acc.2) then acc
             else (acc.1 ++ [reason], {[reason]} ∪ acc.2))
          reasons ([], ∅) in
      if (3 <? length unique_reasons)%nat
      then String.concat " | " (take 3 unique_reasons) +:+ " 외"
      else String.concat " | " unique_reasons
  end.

(** The first loop of [_calculate_period_ensemble]. *)
Definition period_predictions_of (predictions : list (string * ModelPrediction))
    (period : string) : list PeriodPrediction :=
  fold_left
    (fun acc (model_pred : ModelPrediction) =>
       match dict_get (Ensemble.predictions model_pred) period with
       | Some p => acc ++ [p]
       | None => acc
       end)
    (map snd predictions) [].

(** [EnsembleEngine._calculate_period_ensemble] *)
Definition _calculate_period_ensemble (disagreement_threshold : R)
    (predictions : list (string * ModelPrediction)) (period : string)
  : Res (option EnsemblePrediction) :=
  let period_predictions := period_predictions_of predictions period in
  match period_predictions with
  | [] => Ok None
  | _ :: _ =>
      let prices := map price period_predictions in
      avg_price ← py_div (sum prices) (INR (length prices));
      sd ← (if (1 <? length prices)%nat then stdev prices else Ok 0%R);
      dis ← (if Rlt_dec 0 avg_price
             then (ratio ← py_div sd avg_price;
                   Ok (if Rlt_dec disagreement_threshold ratio
                       then true else false))
             else Ok false);
      let sentiments := map sentiment period_predictions in
      consensus_sentiment ← _vote_sentiment sentiments;
      let reasons := map reason period_predictions in
      let combined_reason := _combine_reasons reasons in
      e ← EnsemblePrediction_new (round2 avg_price) combined_reason
             consensus_sentiment dis (round2 sd);
      Ok (Some e)
  end.

(** The [for period in ["1d", "1w", "1m"]] loop of [calculate_ensemble]. *)
Fixpoint ensemble_loop (disagreement_threshold : R)
    (valid_predictions : list (string * ModelPrediction))
    (periods : list string) (ensemble : list (string * EnsemblePrediction))
  : Res (list (string * EnsemblePrediction)) :=
  match periods with
  | [] => Ok ensemble
  | period :: rest =>
      ensemble_pred ← _calculate_period_ensemble disagreement_threshold
                        valid_predictions period;
      match ensemble_pred with
      | Some e =>
          ensemble_loop disagreement_threshold valid_predictions rest
                        (dict_set ensemble period e)
      | None =>
          ensemble_loop disagreement_threshold valid_predictions rest ensemble
      end
  end.

Definition msg_empty : string := "예측 데이터가 비어있습니다".
Definition msg_no_valid : string := "유효한 예측이 없습니다".
Definition msg_no_ensemble : string := "종합 예측을 생성할 수 없습니다".

(** The filter of the dict comprehension: [pred.success and pred.predictions]. *)
Definition is_valid (pred : ModelPrediction) : bool :=
  success pred && match predictions pred with [] => false | _ :: _ => true end.

(** [EnsembleEngine.calculate_ensemble] *)
Definition calculate_ensemble (disagreement_threshold : R)
    (predictions : list (string * ModelPrediction))
  : Res (list (string * EnsemblePrediction)) :=
  match predictions with
  | [] => Raise (ValueError msg_empty)
  | _ :: _ =>
      let valid_predictions :=
        List.filter (fun kv : string * ModelPrediction => is_valid kv.2)
                    predictions in
      match valid_predictions with
      | [] => Raise (ValueError msg_no_valid)
      | _ :: _ =>
          ensemble ← ensemble_loop disagreement_threshold valid_predictions
                                   ["1d"; "1w"; "1m"] [];
          match ensemble with
          | [] => Raise (ValueError msg_no_ensemble)
          | _ :: _ => Ok ensemble
          end
      end
  end.

(** The default of [EnsembleEngine.__init__]. *)
Definition default_threshold : R := (2 / 10)%R.

End Ensemble.

(* ===================================================================== *)
(** ** Vocabulary of the specification                                   *)
(* ===================================================================== *)

Module Spec.

Import Ensemble.

(** *** Fallback resolver *)

(** The state a provider is left in by a trial that invoked its fetch. *)
Definition after (s : DataSource) (out : Res (option Dict)) : DataSource :=
  if fails out then _record_failure s else set_failure_count 0 s.

(** The health invariant of a provider that starts with a zero count:
    an enabled provider is below its threshold, a disabled one is at or
    above it unless it has been disabled since it was built. *)
Definition healthy (s0 s : DataSource) : Prop :=
  (enabled s = true -> (0 <= failure_count s < max_failures s)%Z) /\
  (enabled s = false ->
     (max_failures s <= failure_count s)%Z \/ (enabled s0 = false /\ s = s0)).

(** A trial on a supported market whose fetch fails. *)
Definition failing_trial (s : DataSource) (ev : Event) : Prop :=
  match ev with
  | EvTryFetch symbol market f =>
      supports_market s market = true /\ fails (f symbol market) = true
  | EvReset => False
  end.

(** The provider at store index [i] is enabled and supports the market. *)
Definition eligible (st : list DataSource) (market : string) (i : nat)
  : Prop :=
  exists s, st !! i = Some s /\ enabled s = true /\
            supports_market s market = true.

(** Two stores hold the same providers, whatever their health state. *)
Definition same_registry (a b : list DataSource) : Prop :=
  Forall2 (fun x y => name x = name y /\ priority x = priority y /\
                      max_failures x = max_failures y /\
                      supports_market x = supports_market y) a b.

Definition has_priority (p : Z) (s : DataSource) : bool :=
  (priority s =? p)%Z.

Definition le_priority (a b : DataSource) : Prop :=
  (priority a <= priority b)%Z.

(** The indices whose fetch a walk over [active] invokes, read off the
    store as it was when the request started. *)
Fixpoint attempts (st : list DataSource) (symbol market : string)
    (w : Fallback.World) (active : list nat) : list nat :=
  match active with
  | [] => []
  | i :: rest =>
      match st !! i with
      | Some s =>
          if enabled s && supports_market s market then
            if fails (w i symbol market) then
              i :: attempts st symbol market w rest
            else [i]
          else attempts st symbol market w rest
      | None => attempts st symbol market w rest
      end
  end.

(** The payload of the first successful attempt of that walk. *)
Fixpoint found (st : list DataSource) (symbol market : string)
    (w : Fallback.World) (active : list nat) : option Dict :=
  match active with
  | [] => None
  | i :: rest =>
      match st !! i with
      | Some s =>
          if enabled s && supports_market s market then
            match w i symbol market with
            | Ok data =>
                if truthy data then data
                else found st symbol market w rest
            | Raise _ => found st symbol market w rest
            end
          else found st symbol market w rest
      | None => found st symbol market w rest
      end
  end.

(** *** Ensemble aggregator *)

(** The two typed failures of the aggregator, as the engine signals them:
    a [ValueError] told apart by its message. *)
Definition NoValidPredictions (e : Exn) : Prop :=
  e = ValueError msg_empty \/ e = ValueError msg_no_valid.

Definition NoValidEnsemble (e : Exn) : Prop :=
  e = ValueError msg_no_ensemble.

(** The opinions of horizon [h], one per prediction that has it. *)
Fixpoint collected (preds : list (string * ModelPrediction)) (h : string)
  : list PeriodPrediction :=
  match preds with
  | [] => []
  | (_, m) :: rest =>
      match dict_get (predictions m) h with
      | Some p => p :: collected rest h
      | None => collected rest h
      end
  end.

(** The arithmetic mean and the sample standard deviation. *)
Fixpoint total (xs : list R) : R :=
  match xs with
  | [] => 0%R
  | x :: xs' => (x + total xs')%R
  end.

Definition mean (xs : list R) : R := (total xs / INR (length xs))%R.

Definition sample_std (xs : list R) : R :=
  sqrt (total (map (fun x => (x - mean xs) ^ 2)%R xs)
        / INR (length xs - 1))%R.

(** Votes of a sentiment, the greatest number of votes, the position of
    the first vote for a sentiment. *)
Definition votes (v : SentimentType) (l : list SentimentType) : nat :=
  count_occ SentimentType_eq_dec l v.

Definition max_votes (l : list SentimentType) : nat :=
  Nat.max (votes POSITIVE l) (Nat.max (votes NEGATIVE l) (votes NEUTRAL l)).

Fixpoint first_index (v : SentimentType) (l : list SentimentType) : nat :=
  match l with
  | [] => 0
  | x :: l' => if bool_decide (x = v) then 0 else S (first_index v l')
  end.

(** The value whose running count is the first to reach [m]. *)
Fixpoint first_to_reach (m : nat) (seen rest : list SentimentType)
  : option SentimentType :=
  match rest with
  | [] => None
  | x :: rest' =>
      if (votes x (seen ++ [x]) =? m)%nat then Some x
      else first_to_reach m (seen ++ [x]) rest'
  end.

Definition first_to_reach_max (l : list SentimentType)
  : option SentimentType :=
  first_to_reach (max_votes l) [] l.

(** Deduplication by exact equality that keeps first occurrences in
    order. *)
Definition differs (x y : string) : bool := negb (String.eqb x y).

Equations dedup_first (l : list string) : list string by wf (length l) lt :=
  dedup_first [] := [];
  dedup_first (x :: l') := x :: dedup_first (List.filter (differs x) l').
Next Obligation.
  simpl. pose proof (List.filter_length_le (differs x) l'). lia.
Qed.

Definition separator : string := " | ".
Definition truncation_marker : string := " 외".

(** At most the first three unique reasons, joined, and the marker when
    there were more. *)
Definition consolidate (reasons : list string) : string :=
  let unique := dedup_first reasons in
  String.concat separator (take 3 unique)
  +:+ (if (3 <? length unique)%nat then truncation_marker else EmptyString).

(** *** Fan-out orchestrator *)

(** What a block of [predict_all] contributes: at most one display name
    with the settled result of its task. *)
Definition entry (predictors : gset string) (prompts : gmap string string)
    (w : Predictor.World) (route : string * string * string)
  : list (string * Res (option Predictor.RawResponse)) :=
  let '(key, prompt_key, model_name) := route in
  if bool_decide (key ∈ predictors) then
    match prompts !! prompt_key with
    | Some prompt => [(model_name, Predictor._safe_predict w model_name prompt)]
    | None => []
    end
  else [].

Definition entries (predictors : gset string) (prompts : gmap string string)
    (w : Predictor.World)
  : list (string * Res (option Predictor.RawResponse)) :=
  flat_map (entry predictors prompts w) Predictor.routes.

(** The value stored for a settled result: a payload, or null. *)
Definition stored (r : Res (option Predictor.RawResponse))
  : option Predictor.RawResponse :=
  match r with
  | Ok (Some result) => Some result
  | Ok None => None
  | Raise _ => None
  end.

(** The distinct sentiments of a list, in the order they are first seen. *)
Definition seen_order (l : list Ensemble.SentimentType)
  : list Ensemble.SentimentType :=
  fold_left (fun ks x => if bool_decide (x ∈ ks) then ks else ks ++ [x]) l [].

(** [a] is first seen before [b] in [l]. *)
Definition seen_before (l : list Ensemble.SentimentType)
    (a b : Ensemble.SentimentType) : Prop :=
  (first_index a l < first_index b l)%nat.

(** [y] is none of the reasons kept so far. *)
Definition unseen (u : list string) (y : string) : bool :=
  bool_decide (y ∉ u).

(** The predictions that pass the filter of [calculate_ensemble], the
    horizons it walks, and what it computes before rounding. *)
Definition valid_of (preds : list (string * Ensemble.ModelPrediction))
  : list (string * Ensemble.ModelPrediction) :=
  List.filter (fun kv : string * Ensemble.ModelPrediction =>
                 Ensemble.is_valid kv.2) preds.

Definition horizons : list string := ["1d"; "1w"; "1m"].

Definition unrounded_std (prices : list R) : R :=
  if (1 <? length prices)%nat then sample_std prices else 0%R.

Definition disagrees (threshold : R) (prices : list R) : bool :=
  if Rlt_dec 0 (mean prices) then
    if Rlt_dec threshold (unrounded_std prices / mean prices) then true
    else false
  else false.

(** *** Inputs used as examples *)

(** A successful prediction of model [name] holding only the horizon
    ["1d"]. *)
Definition one_day (name : string) (p : Ensemble.PeriodPrediction)
  : string * Ensemble.ModelPrediction :=
  (name, Ensemble.mkModelPrediction name [("1d", p)] true).

(** Three models predicting 100, 110 and 90. *)
Definition three_models : list (string * Ensemble.ModelPrediction) :=
  [ one_day "model1"
      (Ensemble.mkPeriodPrediction 100 "상승" Ensemble.POSITIVE);
    one_day "model2"
      (Ensemble.mkPeriodPrediction 110 "상승" Ensemble.POSITIVE);
    one_day "model3"
      (Ensemble.mkPeriodPrediction 90 "하락" Ensemble.NEGATIVE) ].

(** One model predicting 0.004. *)
Definition penny : list (string * Ensemble.ModelPrediction) :=
  [ one_day "model1"
      (Ensemble.mkPeriodPrediction (4 / 1000) "r" Ensemble.NEUTRAL) ].

End Spec.

Import Spec.

(* ===================================================================== *)
(** ** [data_collector/fallback_manager.py]: the life of one manager      *)
(* ===================================================================== *)

Module Manager.

(** What a [FallbackManager] is asked to do after it is built: serve a
    request, with that request's view of the outside, or
    [reset_all_sources]. *)
Inductive Op : Type :=
| OpFetch (symbol market : string) (w : World) (rnd : Random)
| OpResetAll.

Definition apply_op (sources : list DataSource) (op : Op)
  : list DataSource :=
  match op with
  | OpFetch symbol market w rnd =>
      (fetch_with_fallback sources symbol market w rnd).1.1
  | OpResetAll => reset_all_sources sources
  end.

Definition run_ops (sources : list DataSource) (ops : list Op)
  : list DataSource :=
  fold_left apply_op ops sources.

(** [FallbackManager.get_status]: the dict comprehension
    [{source.name: {'enabled': ..., 'priority': ..., 'failure_count': ...}
      for source in self.sources}], a later provider of the same name
    overwriting the entry of an earlier one; on distinct names this is
    the list [Fallback.get_status] of the entries in store order. *)
Definition status_of (s : DataSource) : bool * Z * Z :=
  (enabled s, priority s, failure_count s).

Definition get_status (sources : list DataSource)
  : list (string * (bool * Z * Z)) :=
  fold_left (fun d s => dict_set d (name s) (status_of s)) sources [].

End Manager.

(* ===================================================================== *)
(** ** [data_collector/realtime.py], [news.py] and [collector.py]         *)
(* ===================================================================== *)

Module Realtime.

(** [RealtimeDataCollector.fetch]: the manager's call, which the
    executor is taken to run.  [RuntimeError] is [Exception], carrying
    the fixed part of its message. *)
Definition fetch (sources : list DataSource) (symbol market : string)
    (w : World) (rnd : Random)
  : list DataSource * Res Dict * list nat :=
  let '(sources', r, tr) := fetch_with_fallback sources symbol market w rnd in
  match r with
  | Ok data => (sources', Ok data, tr)
  | Raise _ => (sources', Raise (Exception "데이터 수집 실패"), tr)
  end.

End Realtime.

Module News.

(** The keys of the dict a news collection yields; [articles] is [None]
    where the dict has no such key.  [Article] is whatever the news API
    returned for one article. *)
Record NewsData (Article : Type) : Type := mkNewsData {
  news_summary : string;
  sentiment_score : R;
  news_count : Z;
  articles : option (list Article)
}.
Arguments mkNewsData {Article} _ _ _ _.
Arguments news_summary {Article} _.
Arguments sentiment_score {Article} _.
Arguments news_count {Article} _.
Arguments articles {Article} _.

Definition unavailable : string := "뉴스 데이터를 가져올 수 없습니다.".

(** [NewsCollector.fetch_and_analyze], given the outcome of
    [_fetch_and_analyze_sync] in the executor. *)
Definition fetch_and_analyze {Article : Type}
    (sync : Res (NewsData Article)) : NewsData Article :=
  match sync with
  | Ok result => result
  | Raise _ => mkNewsData unavailable 0 0 (Some [])
  end.

(** The counters of [_analyze_sentiment]. *)
Record Sentiment : Type := mkSentiment {
  average_score : R;
  positive_count : Z;
  negative_count : Z;
  neutral_count : Z;
  total_analyzed : Z
}.

(** The body of the [for article in articles] loop.  [polarity article]
    is [None] where the loop [continue]s (the text is blank, or TextBlob
    raised) and the polarity TextBlob computed otherwise. *)
Definition analyze_article {Article : Type}
    (polarity : Article -> option R)
    (acc : list R * Z * Z * Z) (article : Article) : list R * Z * Z * Z :=
  let '(sentiments, positive, negative, neutral) := acc in
  match polarity article with
  | None => acc
  | Some p =>
      let sentiments := sentiments ++ [p] in
      if Rlt_dec (1 / 10) p then
        (sentiments, (positive + 1)%Z, negative, neutral)
      else if Rlt_dec p (- (1 / 10)) then
        (sentiments, positive, (negative + 1)%Z, neutral)
      else (sentiments, positive, negative, (neutral + 1)%Z)
  end.

(** [NewsCollector._analyze_sentiment] *)
Definition _analyze_sentiment {Article : Type}
    (polarity : Article -> option R) (articles : list Article)
  : Sentiment :=
  let '(sentiments, positive, negative, neutral) :=
    fold_left (analyze_article polarity) articles ([], 0%Z, 0%Z, 0%Z) in
  let average_score :=
    match sentiments with
    | [] => 0%R
    | _ :: _ => (Ensemble.sum sentiments / INR (length sentiments))%R
    end in
  mkSentiment average_score positive negative neutral
              (Z.of_nat (length sentiments)).

End News.

Module Collector.

(** The retry settings of [DataCollector.__init__]. *)
Record DataCollector : Type := mkDataCollector {
  max_retries : Z;
  retry_delay : Z
}.

Definition DataCollector_init : DataCollector := mkDataCollector 3 1.

(** The loop [for attempt in range(self.max_retries)] shared by the two
    [_fetch_*_with_retry] methods, from iteration [attempt] on with
    [todo] iterations left.  [call attempt st] is the awaited call of
    that iteration on the state [st] it may change.  The result is
    [inl data] for the [return data] inside the loop and
    [inr last_error] for falling out of it, with the delays slept and
    the number of calls made. *)
Fixpoint retry_loop {St A : Type} (call : nat -> St -> St * Res A)
    (self : DataCollector) (attempt todo : nat) (st : St)
    (last_error : option Exn) : St * (A + option Exn) * list Z * nat :=
  match todo with
  | O => (st, inr last_error, [], O)
  | S todo' =>
      match call attempt st with
      | (st1, Ok data) => (st1, inl data, [], 1%nat)
      | (st1, Raise e) =>
          let slept :=
            if (Z.of_nat attempt <? max_retries self - 1)%Z
            then [(retry_delay self * 2 ^ Z.of_nat attempt)%Z]
            else [] in
          let '(st2, r, slept', calls) :=
            retry_loop call self (S attempt) todo' st1 (Some e) in
          (st2, r, slept ++ slept', S calls)
      end
  end.

(** [DataCollector._fetch_realtime_with_retry].  [env attempt] is what
    the outside looks like during that attempt. *)
Definition _fetch_realtime_with_retry (self : DataCollector)
    (sources : list DataSource) (symbol market : string)
    (env : nat -> World * Random)
  : list DataSource * Res Dict * list Z * nat :=
  let call := fun attempt st =>
    (Realtime.fetch st symbol market (env attempt).1 (env attempt).2).1 in
  let '(sources', r, slept, calls) :=
    retry_loop call self 0 (Z.to_nat (max_retries self)) sources None in
  (sources',
   match r with
   | inl data => Ok data
   | inr _ => Raise (Exception "실시간 데이터 수집 실패 (최대 재시도 초과)")
   end,
   slept, calls).

(** [DataCollector._fetch_news_with_retry], for any awaited call
    [fetch attempt]. *)
Definition _fetch_news_with_retry {Article : Type} (self : DataCollector)
    (fetch : nat -> Res (News.NewsData Article))
  : News.NewsData Article * list Z * nat :=
  let call := fun attempt (st : unit) => (st, fetch attempt) in
  let '(_, r, slept, calls) :=
    retry_loop call self 0 (Z.to_nat (max_retries self)) tt None in
  (match r with
   | inl data => data
   | inr _ => News.mkNewsData News.unavailable 0 0 None
   end,
   slept, calls).

End Collector.

(* ===================================================================== *)
(** ** [ai_predictor/predictor.py]: building the registry                 *)
(* ===================================================================== *)

Module Registry.

(** What the constructors of the predictors see: the keys of
    [config.settings], whether the optional client libraries were
    imported, and whether the construction of each client, if it is
    reached, returns ([true]) or raises ([false]); for Google that is
    [genai.configure] followed by [genai.GenerativeModel]. *)
Record Env : Type := mkEnv {
  openai_api_key : option string;
  google_api_key : option string;
  anthropic_api_key : option string;
  GOOGLE_AI_AVAILABLE : bool;
  ANTHROPIC_AVAILABLE : bool;
  AsyncOpenAI : bool;
  GenerativeModel : bool;
  AsyncAnthropic : bool
}.

(** [OpenAIPredictor(timeout=..)]: the truth value of [self.client] of
    the object built, or the exception of the client constructor. *)
Definition OpenAIPredictor (env : Env) : Res bool :=
  let api_key := str_or None (openai_api_key env) in
  if negb (str_bool api_key) then Ok false
  else if AsyncOpenAI env then Ok true
  else Raise (Exception "AsyncOpenAI").

(** [GooglePredictor(timeout=..)]: the truth value of [self.model]. *)
Definition GooglePredictor (env : Env) : Res bool :=
  if negb (GOOGLE_AI_AVAILABLE env) then Ok false
  else
    let api_key := str_or None (google_api_key env) in
    if negb (str_bool api_key) then Ok false
    else if GenerativeModel env then Ok true
    else Raise (Exception "GenerativeModel").

(** [AnthropicPredictor(timeout=..)]: the truth value of [self.client]. *)
Definition AnthropicPredictor (env : Env) : Res bool :=
  if negb (ANTHROPIC_AVAILABLE env) then Ok false
  else
    let api_key := str_or None (anthropic_api_key env) in
    if negb (str_bool api_key) then Ok false
    else if AsyncAnthropic env then Ok true
    else Raise (Exception "AsyncAnthropic").

(** One [try: predictor = ..; if predictor.client: self.predictors[key]
    = predictor; except Exception: ..] block. *)
Definition register (key : string) (built : Res bool)
    (predictors : gset string) : gset string :=
  match built with
  | Ok true => {[key]} ∪ predictors
  | Ok false => predictors
  | Raise _ => predictors
  end.

(** [AIPredictor._init_predictors], on the empty registry of
    [__init__]: the keys of [self.predictors] it leaves.  The
    constructor of [OllamaPredictor] only stores its arguments. *)
Definition _init_predictors (env : Env) : gset string :=
  let predictors := ∅ in
  let predictors := register "GPT" (OpenAIPredictor env) predictors in
  let predictors := register "Gemini" (GooglePredictor env) predictors in
  let predictors := register "Claude" (AnthropicPredictor env) predictors in
  let predictors := {["Ollama"]} ∪ predictors in
  predictors.

End Registry.

(* ===================================================================== *)
(** ** [ensemble/engine.py]: the two queries; [models/result.py]          *)
(* ===================================================================== *)

Module Engine.

Import Ensemble.

(** The loop shared by [detect_disagreement] and [calculate_consensus]:
    [field] of the opinion on [period] of every prediction with
    [success] set that has one. *)
Definition gather_field {A : Type} (field : PeriodPrediction -> A)
    (predictions : list (string * ModelPrediction)) (period : string)
  : list A :=
  fold_left
    (fun acc (model_pred : ModelPrediction) =>
       if success model_pred then
         match dict_get (Ensemble.predictions model_pred) period with
         | Some p => acc ++ [field p]
         | None => acc
         end
       else acc)
    (map snd predictions) [].

(** [EnsembleEngine.detect_disagreement] *)
Definition detect_disagreement (disagreement_threshold : R)
    (predictions : list (string * ModelPrediction)) (period : string)
  : Res bool :=
  let prices := gather_field price predictions period in
  if (length prices <? 2)%nat then Ok false
  else
    avg_price ← py_div (sum prices) (INR (length prices));
    std_dev ← stdev prices;
    if Rlt_dec 0 avg_price
    then (ratio ← py_div std_dev avg_price;
          Ok (if Rlt_dec disagreement_threshold ratio then true else false))
    else Ok false.

(** [EnsembleEngine.calculate_consensus] *)
Definition calculate_consensus
    (predictions : list (string * ModelPrediction)) (period : string)
  : Res string :=
  let sentiments := gather_field sentiment predictions period in
  match sentiments with
  | [] => Ok (sentiment_value NEUTRAL)
  | _ :: _ =>
      consensus ← _vote_sentiment sentiments;
      Ok (sentiment_value consensus)
  end.

End Engine.

Module Result.

Import Ensemble.

Definition required_periods : list string := ["1d"; "1w"; "1m"].

(** [required_periods.issubset(d.keys())] *)
Definition has_required_periods {V : Type} (d : list (string * V)) : bool :=
  forallb (fun period => match dict_get d period with
                         | Some _ => true
                         | None => false
                         end)
          required_periods.

(** [PredictionResult.validate_ensemble]; the error carries the fixed
    part of its message. *)
Definition validate_ensemble (v : list (string * EnsemblePrediction))
  : Res (list (string * EnsemblePrediction)) :=
  if negb (has_required_periods v)
  then Raise (ValueError "종합 예측의 필수 기간이 누락되었습니다")
  else Ok v.

End Result.

(* ===================================================================== *)
(** ** [models/prediction.py] and [services/prediction_service.py]        *)
(* ===================================================================== *)

Module Service.

Import Ensemble.

(** [ModelPrediction.validate_model_name] *)
Definition validate_model_name (v : string) : Res string :=
  match v with
  | EmptyString => Raise (ValidationError "model_name")
  | _ =>
      match strip v with
      | EmptyString => Raise (ValidationError "model_name")
      | _ => Ok v
      end
  end.

(** [ModelPrediction.validate_predictions] *)
Definition validate_predictions (v : list (string * PeriodPrediction))
  : Res (list (string * PeriodPrediction)) :=
  match v with
  | [] => Raise (ValidationError "predictions")
  | _ :: _ => Ok v
  end.

(** The constructor call [ModelPrediction(model_name=.., predictions=..,
    timestamp=.., success=..)]; the error names the first field, in
    declaration order, whose validation fails. *)
Definition ModelPrediction_new (model_name : string)
    (predictions : list (string * PeriodPrediction)) (success : bool)
  : Res ModelPrediction :=
  match validate_model_name model_name,
        validate_predictions predictions with
  | Ok n, Ok p => Ok (mkModelPrediction n p success)
  | Raise e, _ => Raise e
  | Ok _, Raise e => Raise e
  end.

(** The placeholder [_parse_predictions] builds for a model without a
    usable answer: [ModelPrediction(model_name=model_name,
    predictions={}, timestamp=.., success=False)]. *)
Definition failed_prediction (model_name : string) : Res ModelPrediction :=
  ModelPrediction_new model_name [] false.

(** The body of the loop of [_parse_predictions] for one entry.
    [parse_response] is the outcome of
    [self.response_parser.parse_response(model_name, raw_response)]. *)
Definition parse_entry
    (parse_response :
       string -> Predictor.RawResponse -> Res (option ModelPrediction))
    (model_name : string) (raw_response : option Predictor.RawResponse)
  : Res ModelPrediction :=
  match raw_response with
  | None => failed_prediction model_name
  | Some response =>
      let attempt :=
        parsed_prediction ← parse_response model_name response;
        match parsed_prediction with
        | Some m => Ok m
        | None => failed_prediction model_name
        end in
      match attempt with
      | Ok m => Ok m
      | Raise _ => failed_prediction model_name
      end
  end.

(** [PredictionService._parse_predictions], from the [parsed] built so
    far. *)
Fixpoint parse_loop
    (parse_response :
       string -> Predictor.RawResponse -> Res (option ModelPrediction))
    (raw_predictions : list (string * option Predictor.RawResponse))
    (parsed : list (string * ModelPrediction))
  : Res (list (string * ModelPrediction)) :=
  match raw_predictions with
  | [] => Ok parsed
  | (model_name, raw_response) :: rest =>
      m ← parse_entry parse_response model_name raw_response;
      parse_loop parse_response rest (dict_set parsed model_name m)
  end.

Definition _parse_predictions
    (parse_response :
       string -> Predictor.RawResponse -> Res (option ModelPrediction))
    (raw_predictions : list (string * option Predictor.RawResponse))
  : Res (list (string * ModelPrediction)) :=
  parse_loop parse_response raw_predictions [].

End Service.

(* ===================================================================== *)
(** ** [services/ranking_service.py]                                      *)
(* ===================================================================== *)

Module Ranking.

(** [models.stock.StockRanking] *)
Record StockRanking : Type := mkStockRanking {
  symbol : string;
  name : string;
  market : string;
  current_price : R;
  change_rate : R;
  rank : Z;
  trading_value : R;
  mini_chart_data : list R
}.

(** [stock.rank = rank] *)
Definition set_rank (r : Z) (s : StockRanking) : StockRanking :=
  mkStockRanking (symbol s) (name s) (market s) (current_price s)
                 (change_rate s) r (trading_value s) (mini_chart_data s).

(** The cache fields of [RankingService]; times are in seconds. *)
Record RankingService : Type := mkRankingService {
  cache : option (list StockRanking);
  cache_timestamp : option R
}.

Definition cache_ttl : R := 60.

(** [RankingService.__init__] *)
Definition RankingService_init : RankingService :=
  mkRankingService None None.

(** [RankingService._is_cache_valid], [now] being [datetime.now()]. *)
Definition _is_cache_valid (self : RankingService) (now : R) : bool :=
  match cache self, cache_timestamp self with
  | Some _, Some t => if Rlt_dec (now - t) cache_ttl then true else false
  | _, _ => false
  end.

(** The loop over [results]: exceptions and [None] are dropped. *)
Definition valid_stocks_of (results : list (Res (option StockRanking)))
  : list StockRanking :=
  fold_left
    (fun valid_stocks result =>
       match result with
       | Raise _ => valid_stocks
       | Ok None => valid_stocks
       | Ok (Some stock) => valid_stocks ++ [stock]
       end)
    results [].

(** [valid_stocks.sort(key=lambda x: x.trading_value, reverse=True)]: a
    stable sort into descending order, computed by insertion. *)
Fixpoint insert_by_value (x : StockRanking) (l : list StockRanking)
  : list StockRanking :=
  match l with
  | [] => [x]
  | y :: l' =>
      if Rle_dec (trading_value y) (trading_value x)
      then x :: y :: l'
      else y :: insert_by_value x l'
  end.

Fixpoint sort_by_value (l : list StockRanking) : list StockRanking :=
  match l with
  | [] => []
  | x :: l' => insert_by_value x (sort_by_value l')
  end.

(** [for rank, stock in enumerate(valid_stocks, start): stock.rank = rank] *)
Fixpoint assign_ranks (start : Z) (l : list StockRanking)
  : list StockRanking :=
  match l with
  | [] => []
  | stock :: l' => set_rank start stock :: assign_ranks (start + 1) l'
  end.

(** [RankingService.get_rankings].  [now] is the clock at the cache
    check, [now'] the clock at the cache update, [results] what
    [asyncio.gather] over the [_fetch_stock_data] tasks hands back.  The
    last component tells whether the tasks were run. *)
Definition get_rankings (self : RankingService) (force_refresh : bool)
    (now now' : R) (results : list (Res (option StockRanking)))
  : RankingService * list StockRanking * bool :=
  if negb force_refresh && _is_cache_valid self now then
    (* [return self.cache], which a valid cache has set *)
    (self, match cache self with Some cached => cached | None => [] end,
     false)
  else
    let valid_stocks := valid_stocks_of results in
    let valid_stocks := sort_by_value valid_stocks in
    let valid_stocks := assign_ranks 1 valid_stocks in
    let rankings := take 10 valid_stocks in
    (mkRankingService (Some rankings) (Some now'), rankings, true).

End Ranking.

(* ===================================================================== *)
(** ** [models/data.py] and [data_collector/historical.py]                *)
(* ===================================================================== *)

Module Data.

Import Ensemble.

(** [OHLCV]; [date] plays no part in the validators and is left out. *)
Record OHLCV : Type := mkOHLCV {
  open : R;
  high : R;
  low : R;
  close : R;
  volume : Z
}.

(** [OHLCV.validate_high]; [values] holds the fields validated before
    [high]. *)
Definition validate_high (v : R) (values : list (string * FieldValue))
  : Res R :=
  match dict_get values "low" with
  | Some (FFloat l) =>
      if Rlt_dec v l then Raise (ValidationError "high") else Ok v
  | _ => Ok v
  end.

(** [OHLCV.validate_low]; [values] holds the fields validated before
    [low]. *)
Definition validate_low (v : R) (values : list (string * FieldValue))
  : Res R :=
  match dict_get values "high" with
  | Some (FFloat h) =>
      if Rlt_dec h v then Raise (ValidationError "low") else Ok v
  | _ => Ok v
  end.

(** [Field(gt=0)] on a float. *)
Definition gt0 (field : string) (v : R) : Res R :=
  if Rlt_dec 0 v then Ok v else Raise (ValidationError field).

(** What a validated field adds to [values]. *)
Definition validated (field : string) (r : Res R)
  : list (string * FieldValue) :=
  match r with
  | Ok v => [(field, FFloat v)]
  | Raise _ => []
  end.

(** The constructor call [OHLCV(date=.., open=.., high=.., low=..,
    close=.., volume=..)].  Fields are validated in declaration order,
    each constraint before the validator of the field; a failed field
    is absent from [values]; the error names the first field that
    fails. *)
Definition OHLCV_new (open high low close : R) (volume : Z) : Res OHLCV :=
  let open_v := gt0 "open" open in
  let values := validated "open" open_v in
  let high_v := h ← gt0 "high" high; validate_high h values in
  let values := values ++ validated "high" high_v in
  let low_v := l ← gt0 "low" low; validate_low l values in
  let close_v := gt0 "close" close in
  o ← open_v; h ← high_v; l ← low_v; c ← close_v;
  if (0 <=? volume)%Z then Ok (mkOHLCV o h l c volume)
  else Raise (ValidationError "volume").

End Data.

Module Historical.

Import Data.

(** A row of the price frame, after [float(..)] and [int(..)]. *)
Definition Row : Type := (R * R * R * R * Z)%type.

(** [HistoricalDataCollector._convert_to_ohlcv]: the rows the model
    rejects are skipped. *)
Definition _convert_to_ohlcv (rows : list Row) : list OHLCV :=
  fold_left
    (fun ohlcv_list (row : Row) =>
       let '(o, h, l, c, v) := row in
       match OHLCV_new o h l c v with
       | Ok ohlcv => ohlcv_list ++ [ohlcv]
       | Raise _ => ohlcv_list
       end)
    rows [].

(** [l[-n:]] *)
Definition last_n {A : Type} (n : nat) (l : list A) : list A :=
  if (n =? 0)%nat then l else drop (length l - n) l.

(** [[prices[i] - prices[i-1] for i in range(1, len(prices))]] *)
Fixpoint deltas (prices : list R) : list R :=
  match prices with
  | x :: (y :: _) as rest => (y - x)%R :: deltas rest
  | _ => []
  end.

Definition gain (d : R) : R := if Rlt_dec 0 d then d else 0%R.
Definition loss (d : R) : R := if Rlt_dec d 0 then (- d)%R else 0%R.

(** [HistoricalDataCollector._calculate_rsi] *)
Definition _calculate_rsi (prices : list R) (period : nat)
  : Res (option R) :=
  if (length prices <? period + 1)%nat then Ok None
  else
    let deltas := deltas prices in
    let gains := map gain (last_n period deltas) in
    let losses := map loss (last_n period deltas) in
    avg_gain ← Ensemble.py_div (Ensemble.sum gains) (INR period);
    avg_loss ← Ensemble.py_div (Ensemble.sum losses) (INR period);
    if Req_dec_T avg_loss 0 then Ok (Some 100%R)
    else
      rs ← Ensemble.py_div avg_gain avg_loss;
      q ← Ensemble.py_div 100 (1 + rs);
      Ok (Some (100 - q)%R).

(** [HistoricalDataCollector.calculate_technical_indicators] *)
Definition calculate_technical_indicators (daily_data : list OHLCV)
  : Res (list (string * R)) :=
  if (length daily_data <? 20)%nat then Ok []
  else
    let closes := map close daily_data in
    let indicators : list (string * R) := [] in
    let indicators :=
      if (20 <=? length closes)%nat
      then dict_set indicators "MA20"
             (Ensemble.sum (last_n 20 closes) / 20)%R
      else indicators in
    let indicators :=
      if (50 <=? length closes)%nat
      then dict_set indicators "MA50"
             (Ensemble.sum (last_n 50 closes) / 50)%R
      else indicators in
    if (15 <=? length closes)%nat then
      rsi ← _calculate_rsi closes 14;
      match rsi with
      | Some r => Ok (dict_set indicators "RSI" r)
      | None => Ok indicators
      end
    else Ok indicators.

End Historical.

(* ===================================================================== *)
(** ** Notions used to state the further properties                       *)
(* ===================================================================== *)

Module Notions.

(** *** Fallback manager *)

(** The state the all-failing request for [market] leaves a provider
    in. *)
Definition outage (market : string) (s : DataSource) : DataSource :=
  if enabled s && supports_market s market then _record_failure s else s.

(** The range a provider's counter is meant to stay in. *)
Definition within_bounds (s : DataSource) : Prop :=
  (0 <= failure_count s <= max_failures s)%Z /\
  (enabled s = true -> (failure_count s < max_failures s)%Z).

(** *** Collector *)

(** The first attempt, from [attempt] on and among [n], that does not
    raise. *)
Fixpoint first_ok {A : Type} (fetch : nat -> Res A) (attempt n : nat)
  : option (nat * A) :=
  match n with
  | O => None
  | S n' =>
      match fetch attempt with
      | Ok data => Some (attempt, data)
      | Raise _ => first_ok fetch (S attempt) n'
      end
  end.

(** The delays [retry_delay * 2 ** attempt] of the attempts from [a]
    up to, not including, [a + k]. *)
Definition backoff (self : Collector.DataCollector) (a k : nat) : list Z :=
  map (fun attempt =>
         (Collector.retry_delay self * 2 ^ Z.of_nat attempt)%Z)
      (seq a k).

(** *** Ensemble engine *)

(** An input used as an example: one model, one horizon. *)
Definition solo : list (string * Ensemble.ModelPrediction) :=
  [ one_day "model1"
      (Ensemble.mkPeriodPrediction (12346 / 1000) "  단독 의견 "
                                   Ensemble.POSITIVE) ].

(** *** Prediction service *)

(** An entry of the raw predictions that [parse_response] turns into
    the prediction [m]. *)
Definition parsed_by
    (parse_response :
       string -> Predictor.RawResponse ->
       Res (option Ensemble.ModelPrediction))
    (entry : string * option Predictor.RawResponse)
    (m : Ensemble.ModelPrediction) : Prop :=
  exists response,
    entry.2 = Some response /\ parse_response entry.1 response = Ok (Some m).

(** *** Ranking service *)

(** The trading value of a stock is [v]. *)
Definition has_value (v : R) (s : Ranking.StockRanking) : bool :=
  if Req_dec_T (Ranking.trading_value s) v then true else false.

(** Descending order of trading value. *)
Definition ge_value (a b : Ranking.StockRanking) : Prop :=
  (Ranking.trading_value b <= Ranking.trading_value a)%R.

(** The condition under which [get_rankings] runs the fetches. *)
Definition refreshes (self : Ranking.RankingService) (force_refresh : bool)
    (now : R) : Prop :=
  force_refresh = true \/ Ranking._is_cache_valid self now = false.

End Notions.

Import Notions.

(* ===================================================================== *)
(** ** Python floats: binary64                                            *)
(* ===================================================================== *)

Module Binary64.

(** A Python [float] is an IEEE 754 binary64, here a primitive float;
    [+], [-], [*], [/] and the comparisons are the primitive ones, which
    round to nearest, ties to even.  What follows are the operations of
    CPython 3.11 the embedded code uses besides. *)

(** The float an [int] converts to, as in [x / len(xs)]. *)
Definition float_of_int (n : Z) : float :=
  SF2Prim (binary_normalize prec emax n 0 false).

(** [sum(xs)]: the floats are added in list order, each addition rounded,
    starting from [0]. *)
Definition sum (xs : list float) : float :=
  fold_left PrimFloat.add xs 0%float.

(** [x / y] on two floats, and [x / n] on a float and an int. *)
Definition truediv (x y : float) : Res float :=
  if PrimFloat.eqb y 0 then Raise ZeroDivisionError
  else Ok (PrimFloat.div x y).

Definition truediv_int (x : float) (n : Z) : Res float :=
  if (n =? 0)%Z then Raise ZeroDivisionError
  else Ok (PrimFloat.div x (float_of_int n)).

(** The float nearest to the fraction [a / b], [b > 0]: the quotient
    rounded once, an infinity where it lies beyond the floats. *)
Definition int_as_float (a : Z) : spec_float :=
  match a with
  | Z0 => S754_zero false
  | Zpos m => S754_finite false m 0
  | Zneg m => S754_finite true m 0
  end.

Definition nearest_quotient (a b : Z) : float :=
  SF2Prim (SFdiv prec emax (int_as_float a) (int_as_float b)).

(** [a / b] on two ints, [b > 0]: the nearest float, and an
    [OverflowError] when the quotient is too large for a float. *)
Definition int_truediv (a b : Z) : Res float :=
  let r := nearest_quotient a b in
  if PrimFloat.is_infinity r then Raise (Exception "OverflowError")
  else Ok r.

(** The integer nearest to [a / b], [b > 0], a tie going to the even
    one. *)
Definition round_div (a b : Z) : Z :=
  let q := (a / b)%Z in
  let r := (a mod b)%Z in
  if (2 * r <? b)%Z then q
  else if (b <? 2 * r)%Z then (q + 1)%Z
  else if Z.even q then q else (q + 1)%Z.

(** The number of hundredths nearest to the magnitude [m * 2 ^ e]. *)
Definition hundredths_of (m : positive) (e : Z) : Z :=
  if (0 <=? e)%Z then (100 * Zpos m * 2 ^ e)%Z
  else round_div (100 * Zpos m) (2 ^ (- e)).

(** The float nearest to the decimal [k / 100], [k >= 0]: what reading
    the digits of [k], with a point before the last two, gives. *)
Definition decimal (k : Z) : float :=
  PrimFloat.abs (nearest_quotient k 100).

(** [round(x, 2)]: [x] is written with two digits after the point, the
    nearest such decimal and on a tie the one with an even last digit,
    and the sign and the digits are read back as a float.  A zero, an
    infinity and a nan are returned as they are. *)
Definition round2 (x : float) : float :=
  match Prim2SF x with
  | S754_finite s m e =>
      let r := decimal (hundredths_of m e) in
      if s then PrimFloat.opp r else r
  | _ => x
  end.

(** [x.as_integer_ratio()], which fails on an infinity or a nan. *)
Definition as_integer_ratio (x : float) : option Q :=
  match Prim2SF x with
  | S754_zero _ => Some (0 # 1)
  | S754_finite s m e =>
      let n := if s then Zneg m else Zpos m in
      Some (if (0 <=? e)%Z then (n * 2 ^ e)%Z # 1
            else n # Z.to_pos (2 ^ (- e)))
  | _ => None
  end.

Fixpoint exact_ratios (data : list float) : option (list Q) :=
  match data with
  | [] => Some []
  | x :: data' =>
      match as_integer_ratio x, exact_ratios data' with
      | Some q, Some qs => Some (q :: qs)
      | _, _ => None
      end
  end.

(** [sum] on fractions. *)
Definition fraction_sum (qs : list Q) : Q :=
  fold_left (fun acc q => Qred (acc + q)) qs (0 # 1).

(** [int.bit_length] *)
Definition bit_length (n : Z) : Z :=
  if (n =? 0)%Z then 0%Z else (Z.log2 (Z.abs n) + 1)%Z.

(** [statistics._integer_sqrt_of_frac_rto] *)
Definition _integer_sqrt_of_frac_rto (n m : Z) : Z :=
  let a := Z.sqrt (n / m) in
  Z.lor a (if (a * a * m =? n)%Z then 0 else 1).

Definition _sqrt_bit_width : Z := 2 * 53 + 3.

(** [statistics._float_sqrt_of_frac] *)
Definition _float_sqrt_of_frac (n m : Z) : Res float :=
  let q := ((bit_length n - bit_length m - _sqrt_bit_width) / 2)%Z in
  let '(numerator, denominator) :=
    if (0 <=? q)%Z
    then (Z.shiftl (_integer_sqrt_of_frac_rto n (Z.shiftl m (2 * q))) q, 1%Z)
    else (_integer_sqrt_of_frac_rto (Z.shiftl n (-2 * q)) m,
          Z.shiftl 1 (- q)) in
  int_truediv numerator denominator.

(** [statistics.stdev(data)] on floats.  The sum of squares is computed
    on exact fractions; an infinity or a nan among the data makes it a
    float, whose missing [numerator] is an [AttributeError]; a root too
    large for a float is the [OverflowError] of the last division. *)
Definition stdev (data : list float) : Res float :=
  let n := Z.of_nat (length data) in
  if (n <? 2)%Z then Raise StatisticsError
  else
    match exact_ratios data with
    | None => Raise (Exception "AttributeError")
    | Some qs =>
        let sx := fraction_sum qs in
        let sxx := fraction_sum (map (fun q => q * q)%Q qs) in
        let ss := ((inject_Z n * sxx - sx * sx) / inject_Z n)%Q in
        let mss := Qred (ss / inject_Z (n - 1)) in
        _float_sqrt_of_frac (Qnum mss) (Zpos (Qden mss))
    end.

End Binary64.

(* ===================================================================== *)
(** ** [ensemble/engine.py] on binary64                                   *)
(* ===================================================================== *)

(** The engine once more, with the prices as the floats they are.  The
    sentiments, the reasons and the validators of text are those of
    [Ensemble]. *)
Module Ensemble64.

Import Binary64.

Record PeriodPrediction : Type := mkPeriodPrediction {
  price : float;
  reason : string;
  sentiment : Ensemble.SentimentType
}.

Record ModelPrediction : Type := mkModelPrediction {
  model_name : string;
  predictions : list (string * PeriodPrediction);
  success : bool
}.

Record EnsemblePrediction : Type := mkEnsemblePrediction {
  as_period :> PeriodPrediction;
  disagreement : bool;
  std_dev : float
}.

Inductive FieldValue : Type :=
| FFloat (x : float)
| FStr (s : string)
| FBool (b : bool).

(** [EnsemblePrediction.validate_disagreement] *)
Definition validate_disagreement (v : bool)
    (values : list (string * FieldValue)) : bool :=
  match dict_get values "std_dev", dict_get values "price" with
  | Some (FFloat sd), Some (FFloat p) =>
      let threshold := PrimFloat.mul p 0.2%float in
      if PrimFloat.ltb threshold sd then true else v
  | _, _ => v
  end.

(** The constructor call: [price] ([gt=0]), [reason], [sentiment],
    [disagreement], [std_dev] ([ge=0]), validated in that order. *)
Definition EnsemblePrediction_new (price : float) (reason : string)
    (sentiment : Ensemble.SentimentType) (disagreement : bool)
    (std_dev : float) : Res EnsemblePrediction :=
  let price_ok := PrimFloat.ltb 0 price in
  let reason_v := Ensemble.validate_reason reason in
  let values : list (string * FieldValue) :=
    (if price_ok then [("price", FFloat price)] else []) ++
    (match reason_v with Ok r => [("reason", FStr r)] | Raise _ => [] end) ++
    [("sentiment", FStr (Ensemble.sentiment_value sentiment))] in
  let disagreement_v := validate_disagreement disagreement values in
  if negb price_ok then Raise (ValidationError "price")
  else
    match reason_v with
    | Raise e => Raise e
    | Ok r =>
        if PrimFloat.leb 0 std_dev
        then Ok (mkEnsemblePrediction (mkPeriodPrediction price r sentiment)
                                      disagreement_v std_dev)
        else Raise (ValidationError "std_dev")
    end.

(** The first loop of [_calculate_period_ensemble]. *)
Definition period_predictions_of (predictions : list (string * ModelPrediction))
    (period : string) : list PeriodPrediction :=
  fold_left
    (fun acc (model_pred : ModelPrediction) =>
       match dict_get (Ensemble64.predictions model_pred) period with
       | Some p => acc ++ [p]
       | None => acc
       end)
    (map snd predictions) [].

(** [EnsembleEngine._calculate_period_ensemble] *)
Definition _calculate_period_ensemble (disagreement_threshold : float)
    (predictions : list (string * ModelPrediction)) (period : string)
  : Res (option EnsemblePrediction) :=
  let period_predictions := period_predictions_of predictions period in
  match period_predictions with
  | [] => Ok None
  | _ :: _ =>
      let prices := map price period_predictions in
      avg_price ← truediv_int (sum prices) (Z.of_nat (length prices));
      sd ← (if (1 <? length prices)%nat then stdev prices else Ok 0%float);
      dis ← (if PrimFloat.ltb 0 avg_price
             then (ratio ← truediv sd avg_price;
                   Ok (PrimFloat.ltb disagreement_threshold ratio))
             else Ok false);
      let sentiments := map sentiment period_predictions in
      consensus_sentiment ← Ensemble._vote_sentiment sentiments;
      let reasons := map reason period_predictions in
      let combined_reason := Ensemble._combine_reasons reasons in
      e ← EnsemblePrediction_new (round2 avg_price) combined_reason
             consensus_sentiment dis (round2 sd);
      Ok (Some e)
  end.

(** The [for period in ["1d", "1w", "1m"]] loop of [calculate_ensemble]. *)
Fixpoint ensemble_loop (disagreement_threshold : float)
    (valid_predictions : list (string * ModelPrediction))
    (periods : list string) (ensemble : list (string * EnsemblePrediction))
  : Res (list (string * EnsemblePrediction)) :=
  match periods with
  | [] => Ok ensemble
  | period :: rest =>
      ensemble_pred ← _calculate_period_ensemble disagreement_threshold
                        valid_predictions period;
      match ensemble_pred with
      | Some e =>
          ensemble_loop disagreement_threshold valid_predictions rest
                        (dict_set ensemble period e)
      | None =>
          ensemble_loop disagreement_threshold valid_predictions rest ensemble
      end
  end.

(** The filter of the dict comprehension: [pred.success and pred.predictions]. *)
Definition is_valid (pred : ModelPrediction) : bool :=
  success pred && match predictions pred with [] => false | _ :: _ => true end.

(** [EnsembleEngine.calculate_ensemble] *)
Definition calculate_ensemble (disagreement_threshold : float)
    (predictions : list (string * ModelPrediction))
  : Res (list (string * EnsemblePrediction)) :=
  match predictions with
  | [] => Raise (ValueError Ensemble.msg_empty)
  | _ :: _ =>
      let valid_predictions :=
        List.filter (fun kv : string * ModelPrediction => is_valid kv.2)
                    predictions in
      match valid_predictions with
      | [] => Raise (ValueError Ensemble.msg_no_valid)
      | _ :: _ =>
          ensemble ← ensemble_loop disagreement_threshold valid_predictions
                                   ["1d"; "1w"; "1m"] [];
          match ensemble with
          | [] => Raise (ValueError Ensemble.msg_no_ensemble)
          | _ :: _ => Ok ensemble
          end
      end
  end.

(** The default of [EnsembleEngine.__init__]. *)
Definition default_threshold : float := 0.2%float.

(** The loop of [detect_disagreement]. *)
Definition gather_prices (predictions : list (string * ModelPrediction))
    (period : string) : list float :=
  fold_left
    (fun prices (model_pred : ModelPrediction) =>
       if success model_pred then
         match dict_get (Ensemble64.predictions model_pred) period with
         | Some p => prices ++ [price p]
         | None => prices
         end
       else prices)
    (map snd predictions) [].

(** [EnsembleEngine.detect_disagreement] *)
Definition detect_disagreement (disagreement_threshold : float)
    (predictions : list (string * ModelPrediction)) (period : string)
  : Res bool :=
  let prices := gather_prices predictions period in
  if (length prices <? 2)%nat then Ok false
  else
    avg_price ← truediv_int (sum prices) (Z.of_nat (length prices));
    std_dev ← stdev prices;
    if PrimFloat.ltb 0 avg_price
    then (ratio ← truediv std_dev avg_price;
          Ok (PrimFloat.ltb disagreement_threshold ratio))
    else Ok false.

End Ensemble64.

(* ===================================================================== *)
(** ** Vocabulary for the numbers of the ensemble                         *)
(* ===================================================================== *)

Module Spec64.

Import Binary64 Ensemble64.

(** The opinions of horizon [h], one per prediction that has it, and the
    predictions that pass the filter of [calculate_ensemble]. *)
Fixpoint collected (preds : list (string * ModelPrediction)) (h : string)
  : list PeriodPrediction :=
  match preds with
  | [] => []
  | (_, m) :: rest =>
      match dict_get (predictions m) h with
      | Some p => p :: collected rest h
      | None => collected rest h
      end
  end.

Definition valid_of (preds : list (string * ModelPrediction))
  : list (string * ModelPrediction) :=
  List.filter (fun kv : string * ModelPrediction => is_valid kv.2) preds.

(** The mean as binary64 arithmetic gives it: the sum taken from left
    to right, each addition rounded, divided by the count. *)
Definition mean (xs : list float) : float :=
  PrimFloat.div (sum xs) (float_of_int (Z.of_nat (length xs))).

(** The rational number a finite float stands for. *)
Definition finite (x : float) : bool :=
  match as_integer_ratio x with
  | Some _ => true
  | None => false
  end.

Definition value (x : float) : Q :=
  match as_integer_ratio x with
  | Some q => q
  | None => 0%Q
  end.

Fixpoint total (qs : list Q) : Q :=
  match qs with
  | [] => 0%Q
  | q :: qs' => (q + total qs')%Q
  end.

(** The arithmetic mean and the sample variance, with its [n - 1], of
    the numbers the floats stand for. *)
Definition exact_mean (xs : list float) : Q :=
  (total (map value xs) / inject_Z (Z.of_nat (length xs)))%Q.

Definition sample_variance (xs : list float) : Q :=
  (total (map (fun x => (value x - exact_mean xs)
                        * (value x - exact_mean xs)) xs)
   / inject_Z (Z.of_nat (length xs) - 1))%Q.

(** The square root of a fraction, rounded to a float the way
    [statistics] does it, an infinity standing for a root too large for
    a float. *)
Definition sqrt_of_fraction (q : Q) : float :=
  match _float_sqrt_of_frac (Qnum (Qred q)) (Zpos (Qden (Qred q))) with
  | Ok r => r
  | Raise _ => infinity
  end.

(** The deviation is within the floats. *)
Definition representable (x : float) : bool := negb (PrimFloat.is_infinity x).

Definition sample_std (xs : list float) : float :=
  sqrt_of_fraction (sample_variance xs).

Definition unrounded_std (xs : list float) : float :=
  if (1 <? length xs)%nat then sample_std xs else 0%float.

(** The number of hundredths nearest to a fraction, a tie going to the
    even one. *)
Definition nearest_hundredth (q : Q) : Z :=
  round_div (Qnum (100 * q)) (Zpos (Qden (100 * q))).

(** The deviation of a horizon before rounding, as the engine obtains
    it. *)
Definition deviation_of (prices : list float) : Res float :=
  if (1 <? length prices)%nat then stdev prices else Ok 0%float.

(** The flag of disagreement, computed from a mean and a deviation. *)
Definition disagrees (threshold m sd : float) : bool :=
  if PrimFloat.ltb 0 m then PrimFloat.ltb threshold (PrimFloat.div sd m)
  else false.

(** *** Inputs used as examples *)

(** A successful prediction of model [name] holding only the horizon
    ["1d"]. *)
Definition one_day (name : string) (p : PeriodPrediction)
  : string * ModelPrediction :=
  (name, mkModelPrediction name [("1d", p)] true).

(** Models predicting the given prices for ["1d"], all neutral, each
    with a reason of its own. *)
Fixpoint models_at (i : nat) (prices : list float)
  : list (string * ModelPrediction) :=
  match prices with
  | [] => []
  | x :: prices' =>
      one_day (String (ascii_of_nat (97 + i)) EmptyString)
        (mkPeriodPrediction x (String (ascii_of_nat (97 + i)) EmptyString)
                            Ensemble.NEUTRAL)
      :: models_at (S i) prices'
  end.

(** Three models predicting 100, 110 and 90. *)
Definition three_models : list (string * ModelPrediction) :=
  [ one_day "model1" (mkPeriodPrediction 100 "상승" Ensemble.POSITIVE);
    one_day "model2" (mkPeriodPrediction 110 "상승" Ensemble.POSITIVE);
    one_day "model3" (mkPeriodPrediction 90 "하락" Ensemble.NEGATIVE) ].

(** The models of a list taken in the order [order] gives. *)
Definition in_order (models : list (string * ModelPrediction))
    (order : list nat) : list (string * ModelPrediction) :=
  omap (fun i => models !! i) order.

(** Four models quoting 292.3, 286.68, 275.54 and 279.34, and three
    models quoting 1.32, 1.1 and 0.88, in a given order. *)
Definition four_quotes (order : list nat)
  : list (string * ModelPrediction) :=
  in_order (models_at 0 [292.3; 286.68; 275.54; 279.34]%float) order.

Definition within_reach (order : list nat)
  : list (string * ModelPrediction) :=
  in_order (models_at 0 [1.32; 1.1; 0.88]%float) order.

End Spec64.

(* ===================================================================== *)
(** * Properties                                                         *)
(* ===================================================================== *)

(** ** One provider *)

Section Provider.

Implicit Types (s : DataSource) (f : string -> string -> Res (option Dict)).

Lemma try_fetch_skip s symbol market f :
  enabled s = false \/ supports_market s market = false ->
  try_fetch s symbol market f = (s, Ok None, false).
Proof.
  unfold try_fetch. intros [H | H].
  - now rewrite H.
  - rewrite H. now destruct (enabled s).
Qed.

Lemma try_fetch_call s symbol market f :
  enabled s = true -> supports_market s market = true ->
  try_fetch s symbol market f =
    (after s (f symbol market),
     Ok (if fails (f symbol market) then None
         else match f symbol market with Ok data => data | Raise _ => None end),
     true).
Proof.
  unfold try_fetch, after, fails. intros -> ->. simpl.
  destruct (f symbol market) as [data | e]; [|reflexivity].
  now destruct (truthy data).
Qed.

Lemma try_fetch_never_raises s symbol market f :
  exists data, (try_fetch s symbol market f).1.2 = Ok data.
Proof.
  unfold try_fetch.
  destruct (enabled s); simpl; [|eauto].
  destruct (supports_market s market); simpl; [|eauto].
  destruct (f symbol market) as [data | e]; [|eauto].
  destruct (truthy data); eauto.
Qed.

(** What never changes in the life of a provider. *)
Lemma record_failure_static s :
  name (_record_failure s) = name s /\
  priority (_record_failure s) = priority s /\
  max_failures (_record_failure s) = max_failures s /\
  supports_market (_record_failure s) = supports_market s.
Proof. unfold _record_failure. simpl. now destruct (_ <=? _)%Z. Qed.

Lemma after_static s out :
  name (after s out) = name s /\ priority (after s out) = priority s /\
  max_failures (after s out) = max_failures s /\
  supports_market (after s out) = supports_market s.
Proof.
  unfold after. destruct (fails out); [apply record_failure_static | easy].
Qed.

Lemma step_static s ev :
  name (step s ev) = name s /\ priority (step s ev) = priority s /\
  max_failures (step s ev) = max_failures s /\
  supports_market (step s ev) = supports_market s.
Proof.
  destruct ev as [symbol market f|]; simpl; [|easy].
  destruct (enabled s) eqn:He; [|now rewrite try_fetch_skip by auto].
  destruct (supports_market s market) eqn:Hs;
    [|now rewrite try_fetch_skip by auto].
  rewrite try_fetch_call by assumption. apply after_static.
Qed.

Lemma run_max_failures s evs : max_failures (run s evs) = max_failures s.
Proof.
  unfold run. revert s.
  induction evs as [|ev evs IH]; intros s; simpl; [reflexivity|].
  rewrite IH. apply step_static.
Qed.

Lemma healthy_step s0 s ev :
  (0 < max_failures s)%Z -> healthy s0 s -> healthy s0 (step s ev).
Proof.
  unfold healthy. intros Hmax [Hen Hdis].
  destruct ev as [symbol market f|]; simpl.
  - destruct (enabled s) eqn:He.
    + destruct (supports_market s market) eqn:Hs.
      * rewrite try_fetch_call by assumption. simpl.
        specialize (Hen eq_refl).
        unfold after, _record_failure. destruct (fails _); simpl.
        -- destruct (Z.leb_spec (max_failures s) (failure_count s + 1));
             simpl; rewrite ?He; split; intros; try congruence; try lia.
        -- rewrite He. split; intros; [lia | congruence].
      * rewrite try_fetch_skip by auto. simpl. rewrite He.
        split; [auto | congruence].
    + rewrite try_fetch_skip by auto. simpl. rewrite He.
      split; [congruence | auto].
  - split; intros; [lia | congruence].
Qed.

Lemma healthy_run s0 evs :
  failure_count s0 = 0%Z -> (0 < max_failures s0)%Z ->
  healthy s0 (run s0 evs).
Proof.
  intros Hfc Hmax.
  assert (Hgen : forall s, max_failures s = max_failures s0 ->
                           healthy s0 s -> healthy s0 (run s evs)).
  { induction evs as [|ev evs IH]; intros s Hm Hh; simpl; [assumption|].
    apply IH.
    - rewrite <- Hm. apply step_static.
    - apply healthy_step; [lia | assumption]. }
  apply Hgen; [reflexivity|].
  unfold healthy. split; intros H; [lia|]. right. split; [assumption | reflexivity].
Qed.

Lemma consecutive_failures evs : forall s,
  Forall (failing_trial s) evs ->
  enabled s = true -> (0 <= failure_count s < max_failures s)%Z ->
  let k := Z.of_nat (length evs) in
  failure_count (run s evs)
    = Z.min (failure_count s + k) (max_failures s) /\
  (enabled (run s evs) = true <->
     (failure_count s + k < max_failures s)%Z).
Proof.
  induction evs as [|ev evs IH]; intros s Hall Hen Hfc.
  - simpl. split; [lia|]. split; [lia | auto].
  - inversion Hall as [|? ? Hev Hrest]; subst.
    destruct ev as [symbol market f|]; [|contradiction].
    destruct Hev as [Hs Hf].
    cbn [run fold_left length]. change (fold_left step evs) with (fun x => run x evs).
    cbn beta. cbn [step].
    rewrite try_fetch_call by assumption. cbn [fst].
    unfold after. rewrite Hf.
    assert (Hst : forall ev', failing_trial s ev' ->
                              failing_trial (_record_failure s) ev').
    { intros [? m ?|]; simpl; [|auto].
      now destruct (record_failure_static s) as (_ & _ & _ & ->). }
    assert (Hrest' : Forall (failing_trial (_record_failure s)) evs)
      by (eapply Forall_impl; [exact Hrest | exact Hst]).
    destruct (record_failure_static s) as (_ & _ & Hm & _).
    destruct (Z.leb_spec (max_failures s) (failure_count s + 1)) as [Hge|Hlt].
    + (* the threshold is reached: every later trial is skipped *)
      assert (Hoff : enabled (_record_failure s) = false /\
                     failure_count (_record_failure s) = max_failures s).
      { unfold _record_failure. simpl.
        destruct (Z.leb_spec (max_failures s) (failure_count s + 1));
          simpl; [split; [reflexivity | lia] | lia]. }
      destruct Hoff as [Hoff Hcnt].
      assert (Hfix : forall l s', enabled s' = false ->
                 Forall (fun ev => exists a b c, ev = EvTryFetch a b c) l ->
                 run s' l = s').
      { induction l as [|e l IHl]; intros s' Hs' Hl; [reflexivity|].
        inversion Hl as [|? ? (a & b & c & ->) Hl']; subst. simpl.
        rewrite try_fetch_skip by auto. simpl. now apply IHl. }
      rewrite Hfix; [|assumption|].
      * rewrite Hoff, Hcnt. split; [lia|]. split; [discriminate | lia].
      * eapply Forall_impl; [exact Hrest|].
        intros [a b c|]; simpl; [eauto | contradiction].
    + assert (Hon : enabled (_record_failure s) = true /\
                    failure_count (_record_failure s)
                      = (failure_count s + 1)%Z).
      { unfold _record_failure. simpl.
        destruct (Z.leb_spec (max_failures s) (failure_count s + 1));
          simpl; [lia | split; [assumption | reflexivity]]. }
      destruct Hon as [Hon Hcnt].
      destruct (IH (_record_failure s) Hrest' Hon) as [IH1 IH2];
        [rewrite Hcnt, Hm; lia|].
      rewrite Hcnt, Hm in IH1, IH2. rewrite IH1.
      split; [lia|]. rewrite IH2. lia.
Qed.

End Provider.

(** ** The fallback resolver *)

Section Resolver.

Variables (symbol market : string) (w : World).

Implicit Types (st : list DataSource) (act : list nat).

Lemma try_fetch_at_skip st i s :
  st !! i = Some s ->
  enabled s = false \/ supports_market s market = false ->
  try_fetch_at st i symbol market (w i) = (st, Ok None, false).
Proof.
  intros Hi Hs. unfold try_fetch_at. rewrite Hi.
  rewrite try_fetch_skip by assumption.
  now rewrite list_insert_id.
Qed.

Lemma try_fetch_at_call st i s :
  st !! i = Some s ->
  enabled s = true -> supports_market s market = true ->
  try_fetch_at st i symbol market (w i) =
    (<[i := after s (w i symbol market)]> st,
     Ok (if fails (w i symbol market) then None
         else match w i symbol market with
              | Ok data => data
              | Raise _ => None
              end),
     true).
Proof.
  intros Hi He Hs. unfold try_fetch_at. rewrite Hi.
  now rewrite try_fetch_call.
Qed.

Lemma fails_true_found (out : Res (option Dict)) (x : option Dict) :
  fails out = true ->
  match out with
  | Ok data => if truthy data then data else x
  | Raise _ => x
  end = x.
Proof.
  unfold fails. destruct out as [data|e]; [|reflexivity].
  intros H. apply negb_true_iff in H. now rewrite H.
Qed.

Lemma fails_false_inv (out : Res (option Dict)) :
  fails out = false -> exists d, out = Ok (Some d) /\ truthy (Some d) = true.
Proof.
  unfold fails. destruct out as [[d|]|e]; try discriminate.
  intros H. apply negb_false_iff in H. eauto.
Qed.

Lemma attempts_subset st act i :
  i ∈ attempts st symbol market w act -> i ∈ act.
Proof.
  induction act as [|k act IH]; simpl; [easy|].
  destruct (st !! k) as [s|]; [|intros; right; auto].
  destruct (enabled s && supports_market s market);
    [|intros; right; auto].
  destruct (fails (w k symbol market)).
  - rewrite !elem_of_cons. intros [->|H]; auto.
  - rewrite list_elem_of_singleton. intros ->. left.
Qed.

(** The loop computes [found] and invokes exactly [attempts]; an invoked
    provider is left in its [after] state, every other one untouched. *)
Lemma try_each_spec act : forall st0 st,
  NoDup act ->
  (forall i, i ∈ act -> st !! i = st0 !! i) ->
  exists st',
    try_each st act symbol market w =
      (st', Ok (found st0 symbol market w act),
       attempts st0 symbol market w act) /\
    forall j,
      st' !! j =
        if bool_decide (j ∈ attempts st0 symbol market w act)
        then (fun s => after s (w j symbol market)) <$> st0 !! j
        else st !! j.
Proof.
  induction act as [|i rest IH]; intros st0 st Hnd Hsame.
  - exists st. cbn [try_each attempts found]. split; [reflexivity|].
    intros j.
    rewrite bool_decide_eq_false_2; [reflexivity | apply not_elem_of_nil].
  - apply NoDup_cons in Hnd as [Hi Hnd].
    assert (Hrest : forall j, j ∈ rest -> st !! j = st0 !! j)
      by (intros j Hj; apply Hsame; now right).
    assert (Hsti : st !! i = st0 !! i) by (apply Hsame; left).
    cbn [try_each attempts found].
    destruct (st0 !! i) as [s|] eqn:Hs0.
    + destruct (enabled s && supports_market s market) eqn:Hel.
      * apply andb_true_iff in Hel as [He Hsup].
        rewrite (try_fetch_at_call st i s) by assumption.
        assert (Hlen : (i < length st)%nat)
          by (eapply lookup_lt_Some; eassumption).
        destruct (fails (w i symbol market)) eqn:Hf.
        -- cbn [truthy]. rewrite fails_true_found by assumption.
           destruct (IH st0 (<[i := after s (w i symbol market)]> st) Hnd)
             as (st' & Heq & Hst').
           { intros j Hj. rewrite list_lookup_insert_ne; [now apply Hrest|].
             intros ->. contradiction. }
           rewrite Heq. exists st'. split; [reflexivity|].
           intros j. rewrite Hst'.
           destruct (decide (j = i)) as [->|Hne].
           ++ rewrite bool_decide_eq_false_2
                by (intros H; apply attempts_subset in H; contradiction).
              rewrite bool_decide_eq_true_2 by left.
              rewrite list_lookup_insert_eq by assumption.
              now rewrite Hs0.
           ++ rewrite list_lookup_insert_ne by congruence.
              destruct (bool_decide (j ∈ attempts st0 symbol market w rest))
                eqn:Hb.
              ** apply bool_decide_eq_true_1 in Hb.
                 rewrite bool_decide_eq_true_2 by (now right). reflexivity.
              ** apply bool_decide_eq_false_1 in Hb.
                 rewrite bool_decide_eq_false_2; [reflexivity|].
                 rewrite elem_of_cons. intros [?|?]; congruence.
        -- destruct (fails_false_inv _ Hf) as (d & Hw & Ht).
           rewrite Hw, Ht.
           eexists. split; [reflexivity|].
           intros j. destruct (decide (j = i)) as [->|Hne].
           ++ rewrite bool_decide_eq_true_2 by left.
              rewrite list_lookup_insert_eq by assumption.
              rewrite Hs0. simpl. now rewrite Hw.
           ++ rewrite list_lookup_insert_ne by congruence.
              rewrite bool_decide_eq_false_2; [reflexivity|].
              rewrite list_elem_of_singleton. congruence.
      * rewrite (try_fetch_at_skip st i s); [|assumption|].
        2:{ apply andb_false_iff in Hel. tauto. }
        cbn [truthy].
        destruct (IH st0 st Hnd Hrest) as (st' & Heq & Hst').
        rewrite Heq. exists st'. split; [reflexivity | assumption].
    + unfold try_fetch_at. rewrite Hsti. cbn [truthy].
      destruct (IH st0 st Hnd Hrest) as (st' & Heq & Hst').
      rewrite Heq. exists st'. split; [reflexivity | assumption].
Qed.

Lemma active_sources_spec st i :
  i ∈ active_sources st <-> exists s, st !! i = Some s /\ enabled s = true.
Proof.
  unfold active_sources. rewrite list_elem_of_In, filter_In, in_seq.
  split.
  - intros [_ H]. destruct (st !! i) as [s|]; [eauto | discriminate].
  - intros (s & Hs & He). rewrite Hs. split; [|assumption].
    apply lookup_lt_Some in Hs. lia.
Qed.

Lemma filter_sorted_lt (p : nat -> bool) (l : list nat) :
  StronglySorted lt l -> StronglySorted lt (List.filter p l).
Proof.
  induction 1 as [|a l Hl IH Ha]; simpl; [constructor|].
  destruct (p a); [|assumption].
  constructor; [assumption|].
  rewrite List.Forall_forall in *. intros x Hx.
  apply filter_In in Hx as [Hx _]. auto.
Qed.

Lemma seq_sorted_lt n : forall a, StronglySorted lt (seq a n).
Proof.
  induction n as [|n IH]; intros a; simpl; constructor; [apply IH|].
  rewrite List.Forall_forall. intros x Hx. apply in_seq in Hx. lia.
Qed.

Lemma active_sources_sorted st : StronglySorted lt (active_sources st).
Proof. apply filter_sorted_lt, seq_sorted_lt. Qed.

Lemma sorted_lt_NoDup (l : list nat) : StronglySorted lt l -> NoDup l.
Proof.
  induction 1 as [|a l Hl IH Ha]; constructor; [|assumption].
  rewrite List.Forall_forall in Ha. intros Hin.
  apply list_elem_of_In, Ha in Hin. lia.
Qed.

Lemma attempts_sorted st act :
  StronglySorted lt act ->
  StronglySorted lt (attempts st symbol market w act).
Proof.
  induction 1 as [|a l Hl IH Ha]; simpl; [constructor|].
  destruct (st !! a) as [s|]; [|assumption].
  destruct (enabled s && supports_market s market); [|assumption].
  destruct (fails (w a symbol market)).
  - constructor; [assumption|].
    rewrite List.Forall_forall in *. intros x Hx.
    apply Ha. apply list_elem_of_In. eapply attempts_subset.
    apply list_elem_of_In. exact Hx.
  - repeat constructor.
Qed.

(** Attempted: eligible, and every eligible provider before it failed. *)
Lemma attempts_iff st act i :
  StronglySorted lt act ->
  i ∈ attempts st symbol market w act <->
    i ∈ act /\ eligible st market i /\
    forall j, j ∈ act -> (j < i)%nat -> eligible st market j ->
              fails (w j symbol market) = true.
Proof.
  induction 1 as [|a l Hl IH Ha]; simpl.
  - split; [intros H; now apply not_elem_of_nil in H|].
    intros [H _]. now apply not_elem_of_nil in H.
  - rewrite List.Forall_forall in Ha.
    assert (Hgt : forall x, x ∈ l -> (a < x)%nat)
      by (intros x Hx; apply Ha; now apply list_elem_of_In).
    assert (Hskip : ~ eligible st market a ->
              (i ∈ attempts st symbol market w l <->
               i ∈ a :: l /\ eligible st market i /\
               forall j, j ∈ a :: l -> (j < i)%nat -> eligible st market j ->
                         fails (w j symbol market) = true)).
    { intros Hne. rewrite IH. split.
      - intros (Hi & Hel & Hall). split; [now right|]. split; [assumption|].
        intros j Hj Hlt Hej.
        apply elem_of_cons in Hj as [->|Hj]; [contradiction | auto].
      - intros (Hi & Hel & Hall).
        apply elem_of_cons in Hi as [->|Hi]; [contradiction|].
        split; [assumption|]. split; [assumption|].
        intros j Hj. apply Hall. now right. }
    destruct (st !! a) as [s|] eqn:Hsa.
    + destruct (enabled s && supports_market s market) eqn:Hel.
      * apply andb_true_iff in Hel as [He Hsup].
        assert (Hela : eligible st market a) by (exists s; auto).
        destruct (fails (w a symbol market)) eqn:Hf.
        -- rewrite elem_of_cons, IH. split.
           ++ intros [->|(Hi & Heli & Hall)].
              ** split; [now left|]. split; [assumption|].
                 intros j Hj Hlt _. apply elem_of_cons in Hj as [->|Hj];
                   [lia | apply Hgt in Hj; lia].
              ** split; [now right|]. split; [assumption|].
                 intros j Hj Hlt Hej. apply elem_of_cons in Hj as [->|Hj];
                   [assumption | auto].
           ++ intros (Hi & Heli & Hall).
              apply elem_of_cons in Hi as [->|Hi]; [now left|]. right.
              split; [assumption|]. split; [assumption|].
              intros j Hj. apply Hall. now right.
        -- rewrite list_elem_of_singleton. split.
           ++ intros ->. split; [now left|]. split; [assumption|].
              intros j Hj Hlt _. apply elem_of_cons in Hj as [->|Hj];
                [lia | apply Hgt in Hj; lia].
           ++ intros (Hi & Heli & Hall).
              apply elem_of_cons in Hi as [->|Hi]; [reflexivity|].
              specialize (Hall a (list_elem_of_here _ _) (Hgt _ Hi) Hela).
              congruence.
      * apply Hskip. intros (s' & Hs' & He & Hsup).
        rewrite Hsa in Hs'. injection Hs' as <-.
        rewrite He, Hsup in Hel. discriminate.
    + apply Hskip. intros (s' & Hs' & _). congruence.
Qed.

(** A successful attempt ends the walk and is what the walk returns. *)
Lemma found_success st act i :
  StronglySorted lt act ->
  i ∈ attempts st symbol market w act ->
  fails (w i symbol market) = false ->
  (exists d, w i symbol market = Ok (Some d) /\
             found st symbol market w act = Some d) /\
  forall j, j ∈ attempts st symbol market w act -> (j <= i)%nat.
Proof.
  induction 1 as [|a l Hl IH Ha]; simpl.
  - intros H. now apply not_elem_of_nil in H.
  - rewrite List.Forall_forall in Ha.
    destruct (st !! a) as [s|]; [|exact IH].
    destruct (enabled s && supports_market s market); [|exact IH].
    destruct (fails (w a symbol market)) eqn:Hf.
    + rewrite elem_of_cons. intros [->|Hi] Hfi; [congruence|].
      destruct (IH Hi Hfi) as [Hfound Hlast].
      rewrite fails_true_found by assumption. split; [assumption|].
      intros j. rewrite elem_of_cons. intros [->|Hj]; [|auto].
      apply attempts_subset, list_elem_of_In, Ha in Hi. lia.
    + rewrite list_elem_of_singleton. intros -> _.
      destruct (fails_false_inv _ Hf) as (d & Hw & Ht).
      rewrite Hw, Ht.
      split.
      * eauto.
      * intros j. rewrite list_elem_of_singleton. intros ->. lia.
Qed.

Lemma found_none st act :
  (forall i, i ∈ attempts st symbol market w act ->
             fails (w i symbol market) = true) ->
  found st symbol market w act = None.
Proof.
  induction act as [|a l IH]; simpl; [reflexivity|].
  destruct (st !! a) as [s|]; [|exact IH].
  destruct (enabled s && supports_market s market); [|exact IH].
  destruct (fails (w a symbol market)) eqn:Hf.
  - intros Hall.
    rewrite fails_true_found by assumption.
    apply IH. intros i Hi. apply Hall. now right.
  - intros Hall. specialize (Hall a (list_elem_of_here _ _)). congruence.
Qed.

(** The whole request. *)
Lemma fetch_with_fallback_spec st rnd :
  exists st',
    fetch_with_fallback st symbol market w rnd =
      (st',
       Ok (match found st symbol market w (active_sources st) with
           | Some d => d
           | None => _get_mock_data symbol market rnd
           end),
       attempts st symbol market w (active_sources st)) /\
    forall j,
      st' !! j =
        if bool_decide
             (j ∈ attempts st symbol market w (active_sources st))
        then (fun s => after s (w j symbol market)) <$> st !! j
        else st !! j.
Proof.
  unfold fetch_with_fallback.
  destruct (try_each_spec (active_sources st) st st) as (st' & Heq & Hst').
  { apply sorted_lt_NoDup, active_sources_sorted. }
  { reflexivity. }
  destruct (active_sources st) as [|i act] eqn:Hact.
  - exists st. cbn [attempts found]. split; [reflexivity|]. intros j.
    rewrite bool_decide_eq_false_2; [reflexivity | apply not_elem_of_nil].
  - rewrite Heq. exists st'. split; [|assumption].
    now destruct (found st symbol market w (i :: act)).
Qed.

End Resolver.

(** ** Registration order *)

Section Registration.

Lemma insert_by_priority_perm x l :
  Permutation (x :: l) (insert_by_priority x l).
Proof.
  induction l as [|y l IH]; simpl; [reflexivity|].
  destruct (priority x <=? priority y)%Z; [reflexivity|].
  rewrite perm_swap. now apply perm_skip.
Qed.

Lemma sort_by_priority_perm l : Permutation l (sort_by_priority l).
Proof.
  induction l as [|x l IH]; simpl; [reflexivity|].
  rewrite <- insert_by_priority_perm. now apply perm_skip.
Qed.

Lemma insert_by_priority_sorted x l :
  StronglySorted le_priority l ->
  StronglySorted le_priority (insert_by_priority x l).
Proof.
  induction 1 as [|y l Hl IH Hy]; simpl.
  - repeat constructor.
  - destruct (Z.leb_spec (priority x) (priority y)) as [Hle|Hgt].
    + constructor; [now constructor|].
      constructor; [assumption|].
      eapply List.Forall_impl; [|exact Hy].
      unfold le_priority. intros; lia.
    + constructor; [assumption|].
      rewrite List.Forall_forall in *. intros z Hz.
      apply (Permutation_in _ (Permutation_sym (insert_by_priority_perm x l)))
        in Hz.
      destruct Hz as [<-|Hz]; [unfold le_priority; lia | auto].
Qed.

Lemma sort_by_priority_sorted l :
  StronglySorted le_priority (sort_by_priority l).
Proof.
  induction l as [|x l IH]; simpl; [constructor|].
  now apply insert_by_priority_sorted.
Qed.

(** Stability: providers of one priority keep their registration order. *)
Lemma insert_by_priority_stable p x l :
  List.filter (has_priority p) (insert_by_priority x l)
  = List.filter (has_priority p) (x :: l).
Proof.
  induction l as [|y l IH]; [reflexivity|].
  cbn [insert_by_priority].
  destruct (Z.leb_spec (priority x) (priority y)) as [Hle|Hgt];
    [reflexivity|].
  cbn [List.filter] in *. rewrite IH.
  unfold has_priority.
  destruct (Z.eqb_spec (priority x) p), (Z.eqb_spec (priority y) p);
    try reflexivity. lia.
Qed.

Lemma sort_by_priority_stable p l :
  List.filter (has_priority p) (sort_by_priority l)
  = List.filter (has_priority p) l.
Proof.
  induction l as [|x l IH]; [reflexivity|].
  cbn [sort_by_priority]. rewrite insert_by_priority_stable.
  cbn [List.filter]. now rewrite IH.
Qed.

Lemma sorted_lookup (l : list DataSource) :
  StronglySorted le_priority l ->
  forall i j a b, (i < j)%nat -> l !! i = Some a -> l !! j = Some b ->
                  le_priority a b.
Proof.
  induction 1 as [|x l Hl IH Hx]; intros i j a b Hij Ha Hb.
  - now rewrite lookup_nil in Ha.
  - destruct j as [|j]; [lia|]. simpl in Hb.
    destruct i as [|i]; simpl in Ha.
    + injection Ha as <-. rewrite List.Forall_forall in Hx. apply Hx.
      apply list_elem_of_In. eapply list_elem_of_lookup_2. exact Hb.
    + eapply IH; [|exact Ha|exact Hb]. lia.
Qed.

Lemma same_registry_priority a b i x :
  same_registry a b -> a !! i = Some x ->
  exists y, b !! i = Some y /\ priority x = priority y.
Proof.
  intros H Hx. destruct (Forall2_lookup_l _ _ _ _ _ H Hx) as (y & Hy & Hp).
  exists y. split; [assumption | tauto].
Qed.

Lemma same_registry_refl a : same_registry a a.
Proof. apply Forall_Forall2_diag, Forall_forall. intros x _. tauto. Qed.

End Registration.

(** ** Claims on the fallback resolver *)

Lemma serve_disabled st i s req :
  st !! i = Some s -> enabled s = false -> serve st req !! i = Some s.
Proof.
  intros Hi He. destruct req as [[[symbol market] w] rnd]. unfold serve.
  destruct (fetch_with_fallback_spec symbol market w st rnd)
    as (st' & Heq & Hst').
  rewrite Heq. cbn [fst]. rewrite Hst'.
  rewrite bool_decide_eq_false_2; [assumption|].
  intros Hin. apply attempts_iff in Hin; [|apply active_sources_sorted].
  destruct Hin as (_ & (s' & Hs' & He' & _) & _). congruence.
Qed.

Lemma serve_all_disabled reqs : forall st i s,
  st !! i = Some s -> enabled s = false -> serve_all st reqs !! i = Some s.
Proof.
  unfold serve_all.
  induction reqs as [|req reqs IH]; intros st i s Hi He; [assumption|].
  simpl. apply IH; [|assumption]. now apply serve_disabled.
Qed.

(** C10.  A trial on a provider that is disabled or does not support the
    market returns [None] without invoking the fetch, and leaves the
    provider, and with it the whole store, as it was: its failure count
    and enabled flag are not touched. *)
Theorem skipped_trial_is_frame (st : list DataSource) (i : nat)
    (s : DataSource) (symbol market : string)
    (f : string -> string -> Res (option Dict)) :
  st !! i = Some s ->
  enabled s = false \/ supports_market s market = false ->
  try_fetch s symbol market f = (s, Ok None, false) /\
  try_fetch_at st i symbol market f = (st, Ok None, false) /\
  failure_count (try_fetch s symbol market f).1.1 = failure_count s /\
  enabled (try_fetch s symbol market f).1.1 = enabled s.
Proof.
  intros Hi Hskip.
  pose proof (try_fetch_skip s symbol market f Hskip) as Hs.
  split; [assumption|]. split.
  - exact (try_fetch_at_skip symbol market (fun _ => f) st i s Hi Hskip).
  - now rewrite Hs.
Qed.

Lemma skipped_trial_is_frame_witness :
  let st := shipped_sources true true None None in
  let s := AlphaVantageSource None None in
  st !! 3%nat = Some s /\
  (enabled s = false \/ supports_market s "KOSPI" = false) /\
  try_fetch_at st 3 "005930" "KOSPI" (fun _ _ => Raise TimeoutError)
    = (st, Ok None, false).
Proof.
  split; [reflexivity|]. split; [left; reflexivity|].
  apply (skipped_trial_is_frame _ 3 (AlphaVantageSource None None));
    [reflexivity | left; reflexivity].
Defined.

(** C1, as stated, fails: a shipped provider can be disabled with a zero
    failure count, because its constructor found no API key. *)
Lemma disabled_without_failures :
  ~ (forall s0 evs, shipped s0 ->
       enabled (run s0 evs) = false ->
       (max_failures (run s0 evs) <= failure_count (run s0 evs))%Z).
Proof.
  intros H.
  specialize (H (AlphaVantageSource None None) [] (shipped_alpha None None)
                eq_refl).
  simpl in H. lia.
Qed.

(** C1, amended.  For a provider built with a zero failure count and a
    positive threshold (every shipped one, with threshold 3):
    - it is disabled only with its count at or above the threshold, or
      because its constructor disabled it and nothing has happened since;
    - a trial turns an enabled provider off exactly when the trial invoked
      the fetch, the fetch failed and the count thereby reached the
      threshold;
    - failing trials in a row from a zero count disable it exactly when
      they number at least the threshold;
    - once disabled it is left untouched by every trial and by every
      later request of the manager;
    - [reset] enables it and zeroes the count. *)
Theorem circuit_breaker (s0 : DataSource) (evs : list Event) :
  failure_count s0 = 0%Z -> (0 < max_failures s0)%Z ->
  let s := run s0 evs in
  (enabled s = false ->
     (max_failures s <= failure_count s)%Z \/ (enabled s0 = false /\ s = s0)) /\
  (forall symbol market f, enabled s = true ->
     let s' := step s (EvTryFetch symbol market f) in
     (enabled s' = false <->
        supports_market s market = true /\ fails (f symbol market) = true /\
        (failure_count s + 1 = max_failures s)%Z) /\
     (enabled s' = false <-> failure_count s' = max_failures s')) /\
  (forall trials, enabled s = true -> failure_count s = 0%Z ->
     Forall (failing_trial s) trials ->
     (enabled (run s trials) = false <->
        (max_failures s <= Z.of_nat (length trials))%Z)) /\
  (enabled s = false ->
     (forall symbol market f, step s (EvTryFetch symbol market f) = s) /\
     (forall st i reqs, st !! i = Some s -> serve_all st reqs !! i = Some s)) /\
  (enabled (reset s) = true /\ failure_count (reset s) = 0%Z) /\
  (forall p, shipped p -> failure_count p = 0%Z /\ max_failures p = 3%Z).
Proof.
  intros Hfc Hmax s.
  pose proof (healthy_run s0 evs Hfc Hmax) as [Hen Hdis]. fold s in Hen, Hdis.
  assert (Hm : (0 < max_failures s)%Z)
    by (unfold s; now rewrite run_max_failures).
  split; [exact Hdis|]. split; [|split; [|split; [|split]]].
  - intros symbol market f He s'.
    assert (Hh : healthy s0 s') by (apply healthy_step; [|split]; assumption).
    destruct Hh as [Hen' _]. specialize (Hen He).
    unfold s' in *. cbn [step] in *.
    destruct (supports_market s market) eqn:Hs.
    + rewrite try_fetch_call in * by assumption. cbn [fst] in *.
      unfold after, _record_failure in *.
      destruct (fails (f symbol market)); cbn in *.
      * destruct (Z.leb_spec (max_failures s) (failure_count s + 1));
          cbn in *; rewrite ?He; split; split; intros;
          try discriminate; try lia; try (repeat split; lia).
      * rewrite He. split; split; intros; try discriminate; try lia.
    + rewrite try_fetch_skip in * by auto. cbn [fst] in *. rewrite He.
      split; split; intros; try discriminate; try lia.
  - intros trials He H0 Hall.
    destruct (consecutive_failures trials s Hall He) as [_ Hiff]; [lia|].
    rewrite H0 in Hiff. cbn zeta in Hiff.
    destruct (enabled (run s trials)); split; intros H;
      try discriminate; lia.
  - intros He. split.
    + intros symbol market f. cbn [step]. now rewrite try_fetch_skip by auto.
    + intros st i reqs Hi. now apply serve_all_disabled.
  - split; reflexivity.
  - intros p Hp. destruct Hp; split; reflexivity.
Qed.

Lemma circuit_breaker_witness :
  let f : string -> string -> Res (option Dict) := fun _ _ => Ok None in
  let evs := [EvTryFetch "AAPL" "NASDAQ" f; EvTryFetch "AAPL" "NASDAQ" f;
              EvTryFetch "AAPL" "NASDAQ" f] in
  failure_count YFinanceSource = 0%Z /\
  (0 < max_failures YFinanceSource)%Z /\
  enabled (run YFinanceSource evs) = false /\
  failure_count (run YFinanceSource evs) = 3%Z /\
  enabled (reset (run YFinanceSource evs)) = true.
Proof.
  split; [reflexivity|]. split; [reflexivity|].
  split; [reflexivity|]. split; [reflexivity|].
  apply (circuit_breaker YFinanceSource
           [EvTryFetch "AAPL" "NASDAQ" (fun _ _ => Ok None);
            EvTryFetch "AAPL" "NASDAQ" (fun _ _ => Ok None);
            EvTryFetch "AAPL" "NASDAQ" (fun _ _ => Ok None)]);
    reflexivity.
Defined.

(** C2.  For every registration list [reg] and every state [st] of the
    manager built from it, a request walks the store in its order, which
    is ascending priority with equal priorities in registration order;
    it invokes the fetch of a provider exactly when that provider is
    enabled and supports the market and every such provider before it
    failed; and the first provider whose fetch returns a payload has its
    failure count set to 0 and its payload returned, nothing after it
    being invoked.  A provider that is not attempted is left as it was;
    a failed attempt is recorded on the provider that failed. *)
Theorem fallback_order_and_short_circuit
    (reg st : list DataSource) (symbol market : string)
    (w : World) (rnd : Random) :
  same_registry st (_register_sources reg) ->
  let res := fetch_with_fallback st symbol market w rnd in
  let st' := res.1.1 in
  let r := res.1.2 in
  let trace := res.2 in
  (* the store order *)
  Permutation reg (_register_sources reg) /\
  (forall p, List.filter (has_priority p) (_register_sources reg)
             = List.filter (has_priority p) reg) /\
  (forall i j a b, (i < j)%nat -> st !! i = Some a -> st !! j = Some b ->
                   (priority a <= priority b)%Z) /\
  (* one at a time, in store order *)
  StronglySorted lt trace /\
  (* who is attempted and who is skipped *)
  (forall i, i ∈ trace <->
     eligible st market i /\
     forall j, (j < i)%nat -> eligible st market j ->
               fails (w j symbol market) = true) /\
  (* a skipped provider is left as it was, an attempted one has its
     outcome recorded *)
  (forall i, i ∉ trace -> st' !! i = st !! i) /\
  (forall i s, i ∈ trace -> st !! i = Some s ->
     st' !! i = Some (after s (w i symbol market))) /\
  (* the first success ends the walk *)
  (forall i data, i ∈ trace ->
     w i symbol market = Ok data -> truthy data = true ->
     exists d s,
       data = Some d /\ r = Ok d /\
       st !! i = Some s /\ st' !! i = Some (set_failure_count 0 s) /\
       forall j, j ∈ trace -> (j <= i)%nat) /\
  (* what the reset is: the count is 0 and nothing else has changed *)
  (forall i data, i ∈ trace ->
     w i symbol market = Ok data -> truthy data = true ->
     exists s s',
       st !! i = Some s /\ st' !! i = Some s' /\
       failure_count s' = 0%Z /\
       enabled s' = true /\ enabled s = true /\
       name s' = name s /\ priority s' = priority s /\
       max_failures s' = max_failures s /\
       supports_market s' = supports_market s) /\
  (* what a recorded failure is: the count is one more, and the provider
     is disabled exactly when the count has reached its threshold *)
  (forall i s, i ∈ trace -> st !! i = Some s ->
     fails (w i symbol market) = true ->
     exists s',
       st' !! i = Some s' /\
       failure_count s' = (failure_count s + 1)%Z /\
       enabled s' = negb (max_failures s <=? failure_count s + 1)%Z /\
       name s' = name s /\ priority s' = priority s /\
       max_failures s' = max_failures s).
Proof.
  intros Hreg res st' r trace.
  destruct (fetch_with_fallback_spec symbol market w st rnd)
    as (st1 & Heq & Hst1).
  assert (Htr : trace = attempts st symbol market w (active_sources st))
    by (unfold trace, res; now rewrite Heq).
  assert (Hr : r = Ok (match found st symbol market w (active_sources st) with
                       | Some d => d
                       | None => _get_mock_data symbol market rnd
                       end))
    by (unfold r, res; now rewrite Heq).
  assert (Hst' : st' = st1) by (unfold st', res; now rewrite Heq).
  clearbody trace r st'. subst st'. clear Heq res.
  pose proof (active_sources_sorted st) as Hsorted.
  split; [apply sort_by_priority_perm|].
  split; [intros p; apply sort_by_priority_stable|].
  assert (Hsuccess : forall i data, i ∈ trace ->
            w i symbol market = Ok data -> truthy data = true ->
            exists d s,
              data = Some d /\ r = Ok d /\
              st !! i = Some s /\ st1 !! i = Some (set_failure_count 0 s) /\
              enabled s = true /\
              forall j, j ∈ trace -> (j <= i)%nat).
  { intros i data Hi Hw Ht. subst trace.
    assert (Hf : fails (w i symbol market) = false)
      by (unfold fails; now rewrite Hw, Ht).
    destruct (found_success symbol market w st _ i Hsorted Hi Hf)
      as [(d & Hwd & Hfound) Hlast].
    pose proof Hi as Hel. apply attempts_iff in Hel; [|assumption].
    destruct Hel as (_ & (s & Hs & Hen & _) & _).
    exists d, s. rewrite Hw in Hwd. injection Hwd as ->.
    split; [reflexivity|]. split; [now rewrite Hr, Hfound|].
    split; [assumption|]. split; [|split; assumption].
    rewrite Hst1, bool_decide_eq_true_2 by assumption.
    rewrite Hs. cbn. unfold after. now rewrite Hf. }
  split; [|split; [|split; [|split; [|split; [|split; [|split]]]]]].
  - intros i j a b Hij Ha Hb.
    destruct (same_registry_priority _ _ _ _ Hreg Ha) as (a' & Ha' & ->).
    destruct (same_registry_priority _ _ _ _ Hreg Hb) as (b' & Hb' & ->).
    exact (sorted_lookup _ (sort_by_priority_sorted reg) i j a' b' Hij Ha' Hb').
  - subst trace. now apply attempts_sorted.
  - intros i. subst trace. rewrite attempts_iff by assumption. split.
    + intros (_ & Hel & Hall). split; [assumption|].
      intros j Hlt Hej. apply Hall; [|assumption..].
      destruct Hej as (s & Hs & He & _). apply active_sources_spec. eauto.
    + intros (Hel & Hall). split; [|split; [assumption|]].
      * destruct Hel as (s & Hs & He & _). apply active_sources_spec. eauto.
      * intros j _. apply Hall.
  - intros i Hi. subst trace.
    now rewrite Hst1, bool_decide_eq_false_2.
  - intros i s Hi Hs. subst trace.
    now rewrite Hst1, bool_decide_eq_true_2, Hs.
  - intros i data Hi Hw Ht.
    destruct (Hsuccess i data Hi Hw Ht) as (d & s & ? & ? & ? & ? & _ & ?).
    exists d, s. auto.
  - intros i data Hi Hw Ht.
    destruct (Hsuccess i data Hi Hw Ht)
      as (d & s & _ & _ & Hs & Hs' & Hen & _).
    exists s, (set_failure_count 0 s).
    split; [exact Hs|]. split; [exact Hs'|].
    cbn [failure_count enabled name priority max_failures supports_market
         set_failure_count].
    auto 10.
  - intros i s Hi Hs Hf. subst trace.
    assert (Hen : enabled s = true).
    { pose proof Hi as Hel. apply attempts_iff in Hel; [|assumption].
      destruct Hel as (_ & (s0 & Hs0 & Hen & _) & _). congruence. }
    exists (_record_failure s). split.
    + rewrite Hst1, bool_decide_eq_true_2 by assumption.
      rewrite Hs. cbn. unfold after. now rewrite Hf.
    + unfold _record_failure.
      cbn [failure_count max_failures set_failure_count].
      destruct (max_failures s <=? failure_count s + 1)%Z;
        cbn [failure_count enabled name priority max_failures
             set_failure_count set_enabled negb];
        rewrite ?Hen; repeat split; reflexivity.
Qed.

Lemma fallback_order_and_short_circuit_witness :
  let reg := shipped_sources true true None None in
  let w : World := fun i _ _ =>
    match i with
    | 1%nat => Ok (Some [("current_price", VFloat 70000)])
    | _ => Raise (Exception "rate limited")
    end in
  same_registry (_register_sources reg) (_register_sources reg) /\
  StronglySorted lt
    (fetch_with_fallback (_register_sources reg) "005930" "KOSPI" w
                         (mkRandom 0 1000000)).2.
Proof.
  split; [apply same_registry_refl|].
  apply (fallback_order_and_short_circuit
           (shipped_sources true true None None)
           (_register_sources (shipped_sources true true None None))).
  apply same_registry_refl.
Defined.

(** C3, as stated, fails: with every provider failing, the payload handed
    back carries no [synthetic] marker. *)
Lemma mock_payload_has_no_marker :
  ~ (forall st symbol market (w : World) rnd,
       (forall i, eligible st market i -> fails (w i symbol market) = true) ->
       exists d,
         (fetch_with_fallback st symbol market w rnd).1.2 = Ok d /\
         dict_get d "synthetic" = Some (VBool true)).
Proof.
  intros H.
  destruct (H (_register_sources (shipped_sources true true None None))
              "AAPL" "NASDAQ" (fun _ _ _ => Raise (Exception "down"))
              (mkRandom 0 1000000)) as (d & Hd & Hmark).
  - intros i _. reflexivity.
  - cbv in Hd. injection Hd as <-. discriminate Hmark.
Qed.

(** C3, amended.  The resolver never raises.  When every provider is
    disabled or unsupported, or every attempted provider fails, it
    returns the mock payload, whose keys are exactly the six keys of a
    genuine payload whatever the random draws: no [synthetic] key marks
    it. *)
Theorem fallback_never_raises (st : list DataSource)
    (symbol market : string) (w : World) (rnd : Random) :
  let res := fetch_with_fallback st symbol market w rnd in
  (exists d, res.1.2 = Ok d) /\
  ((forall i, eligible st market i -> fails (w i symbol market) = true) ->
     res.1.2 = Ok (_get_mock_data symbol market rnd)) /\
  ((forall i, i ∈ res.2 -> fails (w i symbol market) = true) ->
     res.1.2 = Ok (_get_mock_data symbol market rnd)) /\
  ((forall i, ~ eligible st market i) -> res.2 = []) /\
  dict_keys (_get_mock_data symbol market rnd) = payload_keys /\
  dict_get (_get_mock_data symbol market rnd) "synthetic" = None.
Proof.
  intros res.
  destruct (fetch_with_fallback_spec symbol market w st rnd)
    as (st1 & Heq & _).
  unfold res. rewrite Heq. cbn [fst snd].
  pose proof (active_sources_sorted st) as Hsorted.
  split; [eauto|]. split; [|split; [|split; [|split; reflexivity]]].
  - intros Hall. rewrite found_none; [reflexivity|].
    intros i Hi. apply attempts_iff in Hi; [|assumption].
    apply Hall. tauto.
  - intros Hall. now rewrite found_none.
  - intros Hnone.
    destruct (attempts st symbol market w (active_sources st)) as [|i tr]
      eqn:Htr; [reflexivity|].
    assert (Hi : i ∈ attempts st symbol market w (active_sources st))
      by (rewrite Htr; left).
    apply attempts_iff in Hi; [|assumption].
    destruct Hi as (_ & Hel & _). now apply Hnone in Hel.
Qed.

(** ** The fan-out orchestrator *)

Section FanOut.

Import Predictor.

Variables (P : gset string) (prompts : gmap string string).

Lemma add_task_entry w key pk mn acc :
  add_task P prompts w key pk mn acc =
    (acc.1 ++ map snd (entry P prompts w (key, pk, mn)),
     acc.2 ++ map fst (entry P prompts w (key, pk, mn))).
Proof.
  unfold add_task, entry. destruct acc as [ts ns].
  case_bool_decide; [destruct (prompts !! pk)|];
    simpl; now rewrite ?app_nil_r.
Qed.

Lemma build_tasks_entries w :
  build_tasks P prompts w =
    (map snd (entries P prompts w), map fst (entries P prompts w)).
Proof.
  unfold build_tasks. rewrite !add_task_entry. cbn [fst snd].
  unfold entries, routes. cbn [flat_map].
  rewrite !map_app. cbn [map app]. now rewrite !app_nil_r, <- !app_assoc.
Qed.

Lemma combine_fst_snd {A B} (l : list (A * B)) :
  combine (map fst l) (map snd l) = l.
Proof. induction l as [|[a b] l IH]; simpl; congruence. Qed.

Lemma entries_NoDup w : NoDup (map fst (entries P prompts w)).
Proof.
  unfold entries, routes, entry. cbn [flat_map].
  repeat case_bool_decide; repeat case_match; cbn;
    apply (bool_decide_unpack _); vm_compute; reflexivity.
Qed.

Lemma entries_spec w n r :
  (n, r) ∈ entries P prompts w <->
  exists prompt, dispatched P prompts n prompt /\ r = _safe_predict w n prompt.
Proof.
  unfold entries, dispatched.
  rewrite list_elem_of_In, in_flat_map. split.
  - intros ([[key pk] mn] & Hroute & Hin). unfold entry in Hin.
    case_bool_decide; [|contradiction].
    destruct (prompts !! pk) as [prompt|] eqn:Hp; [|contradiction].
    destruct Hin as [Heq|[]]. injection Heq as <- <-.
    exists prompt. split; [|reflexivity]. exists key, pk. auto.
  - intros (prompt & (key & pk & Hroute & HP & Hp) & ->).
    exists (key, pk, n). split; [assumption|].
    unfold entry. rewrite bool_decide_eq_true_2, Hp by assumption. now left.
Qed.

Lemma record_result_stored m item :
  record_result m item = <[item.1 := stored item.2]> m.
Proof. unfold record_result, stored. now destruct item.2 as [[?|]|]. Qed.

Lemma dict_get_in {V} (E : list (string * V)) n r :
  dict_get E n = Some r -> (n, r) ∈ E.
Proof.
  induction E as [|[k v] E IH]; simpl; [discriminate|].
  destruct (String.eqb_spec n k) as [->|Hne].
  - intros [= ->]. left.
  - intros H. right. auto.
Qed.

Lemma dict_get_NoDup {V} (E : list (string * V)) n r :
  NoDup (map fst E) -> (n, r) ∈ E -> dict_get E n = Some r.
Proof.
  induction E as [|[k v] E IH]; simpl; intros Hnd Hin.
  - now apply not_elem_of_nil in Hin.
  - apply NoDup_cons in Hnd as [Hk Hnd].
    apply elem_of_cons in Hin as [[= -> ->]|Hin].
    + now rewrite String.eqb_refl.
    + destruct (String.eqb_spec n k) as [->|Hne]; [|auto].
      exfalso. apply Hk. apply list_elem_of_fmap. exists (k, r). auto.
Qed.

Lemma dict_get_None {V} (E : list (string * V)) n :
  dict_get E n = None <-> n ∉ map fst E.
Proof.
  induction E as [|[k v] E IH]; simpl.
  - split; [intros _; apply not_elem_of_nil | reflexivity].
  - rewrite not_elem_of_cons.
    destruct (String.eqb_spec n k) as [->|Hne]; [split; [discriminate|tauto]|].
    rewrite IH. tauto.
Qed.

(** The map built by the result loop: the stored value of the task of each
    name, nothing for any other name. *)
Lemma fold_record_result E : forall m n,
  NoDup (map fst E) ->
  fold_left record_result E m !! n =
    match dict_get E n with
    | Some r => Some (stored r)
    | None => m !! n
    end.
Proof.
  induction E as [|[k v] E IH]; intros m n Hnd; [reflexivity|].
  cbn [map fst] in Hnd. apply NoDup_cons in Hnd as [Hk Hnd].
  cbn [fold_left dict_get]. rewrite IH by assumption.
  rewrite record_result_stored. cbn [fst snd].
  destruct (String.eqb_spec n k) as [->|Hne].
  - apply dict_get_None in Hk. rewrite Hk. apply lookup_insert_eq.
  - destruct (dict_get E n); [reflexivity|]. now apply lookup_insert_ne.
Qed.

Lemma predict_all_lookup w :
  exists result,
    predict_all P prompts w = Ok result /\
    forall n, result !! n = stored <$> dict_get (entries P prompts w) n.
Proof.
  unfold predict_all. rewrite build_tasks_entries.
  destruct (map snd (entries P prompts w)) as [|t ts] eqn:Hts.
  - exists ∅. split; [reflexivity|]. intros n.
    apply map_eq_nil in Hts. rewrite Hts. reflexivity.
  - rewrite <- Hts. unfold gather. rewrite combine_fst_snd.
    eexists. split; [reflexivity|]. intros n.
    rewrite fold_record_result by apply entries_NoDup.
    destruct (dict_get (entries P prompts w) n); [reflexivity|].
    apply lookup_empty.
Qed.

End FanOut.

(** C4.  For every registry, request mapping and behaviour of the
    predictors, [predict_all] returns normally, also when no entry is
    non-null.  The result has an entry for a name exactly when that
    predictor was dispatched, and distinct dispatched predictors have
    distinct names.  The entry of a dispatched predictor is the value it
    returned, or null when it timed out or raised; it depends on no other
    predictor: changing the behaviour of one predictor changes no entry
    but its own and never makes the call raise. *)
Theorem predict_all_isolates_failures (P : gset string)
    (prompts : gmap string string) (w : Predictor.World) :
  exists result,
    Predictor.predict_all P prompts w = Ok result /\
    (forall n, is_Some (result !! n) <->
               exists prompt, Predictor.dispatched P prompts n prompt) /\
    NoDup (Predictor.build_tasks P prompts w).2 /\
    length (Predictor.build_tasks P prompts w).1
      = length (Predictor.build_tasks P prompts w).2 /\
    (forall n prompt, Predictor.dispatched P prompts n prompt ->
       result !! n = Some (match w n prompt with
                           | Ok v => v
                           | Raise _ => None
                           end)) /\
    (forall n prompt e, Predictor.dispatched P prompts n prompt ->
       w n prompt = Raise e -> result !! n = Some None) /\
    (forall (w' : Predictor.World) n,
       (forall m p, m <> n -> w' m p = w m p) ->
       exists result',
         Predictor.predict_all P prompts w' = Ok result' /\
         forall m, m <> n -> result' !! m = result !! m).
Proof.
  destruct (predict_all_lookup P prompts w) as (result & Heq & Hres).
  exists result. split; [assumption|].
  assert (Hdisp : forall n prompt, Predictor.dispatched P prompts n prompt ->
            result !! n = Some (match w n prompt with
                                | Ok v => v
                                | Raise _ => None
                                end)).
  { intros n prompt Hd. rewrite Hres.
    rewrite (dict_get_NoDup _ n (Predictor._safe_predict w n prompt));
      [|apply entries_NoDup|apply entries_spec; eauto].
    unfold Predictor._safe_predict. cbn.
    now destruct (w n prompt) as [[?|]|[]]. }
  split; [|split; [|split; [|split; [|split]]]].
  - intros n. split.
    + intros [v Hv]. rewrite Hres in Hv.
      destruct (dict_get (entries P prompts w) n) as [r|] eqn:Hr;
        [|discriminate].
      apply dict_get_in, entries_spec in Hr as (prompt & Hd & _). eauto.
    + intros (prompt & Hd). rewrite (Hdisp _ _ Hd). eauto.
  - rewrite build_tasks_entries. apply entries_NoDup.
  - rewrite build_tasks_entries. cbn [fst snd]. now rewrite !length_map.
  - exact Hdisp.
  - intros n prompt e Hd Hw. rewrite (Hdisp _ _ Hd), Hw. reflexivity.
  - intros w' n Hsame.
    destruct (predict_all_lookup P prompts w') as (result' & Heq' & Hres').
    exists result'. split; [assumption|]. intros m Hm.
    rewrite Hres', Hres.
    destruct (dict_get (entries P prompts w) m) as [r|] eqn:Hr.
    + apply dict_get_in, entries_spec in Hr as (prompt & Hd & ->).
      rewrite (dict_get_NoDup _ m (Predictor._safe_predict w' m prompt));
        [|apply entries_NoDup|apply entries_spec; eauto].
      unfold Predictor._safe_predict. now rewrite Hsame.
    + destruct (dict_get (entries P prompts w') m) as [r'|] eqn:Hr';
        [|reflexivity].
      apply dict_get_in, entries_spec in Hr' as (prompt & Hd & _).
      assert (Hin : (m, Predictor._safe_predict w m prompt)
                      ∈ entries P prompts w) by (apply entries_spec; eauto).
      apply dict_get_NoDup in Hin; [congruence | apply entries_NoDup].
Qed.

(** ** The ensemble engine: arithmetic and structure *)

Section Engine.

Import Ensemble.

Local Open Scope R_scope.

Lemma fold_left_Rplus xs : forall a, fold_left Rplus xs a = a + total xs.
Proof.
  induction xs as [|x xs IH]; intros a; simpl; [lra|].
  rewrite IH. lra.
Qed.

Lemma sum_total xs : sum xs = total xs.
Proof. unfold sum. rewrite fold_left_Rplus. lra. Qed.

Lemma length_INR_pos {A} (x : A) (xs : list A) : 0 < INR (length (x :: xs)).
Proof. apply lt_0_INR. simpl. lia. Qed.

Lemma py_div_mean x xs :
  py_div (sum (x :: xs)) (INR (length (x :: xs))) = Ok (mean (x :: xs)).
Proof.
  unfold py_div, mean. rewrite sum_total.
  destruct (Req_dec_T (INR (length (x :: xs))) 0) as [H0|_]; [|reflexivity].
  pose proof (length_INR_pos x xs). lra.
Qed.

Lemma stdev_sample_std xs :
  (1 < length xs)%nat -> stdev xs = Ok (sample_std xs).
Proof.
  intros Hlen. unfold stdev, sample_std.
  destruct (Nat.ltb_spec (length xs) 2) as [?|_]; [lia|].
  f_equal. f_equal. rewrite !sum_total. f_equal.
  - f_equal. apply map_ext. intros a. unfold mean. simpl. ring.
  - rewrite minus_INR by lia. reflexivity.
Qed.

Lemma collected_fold preds h : forall acc,
  fold_left
    (fun acc (model_pred : ModelPrediction) =>
       match dict_get (predictions model_pred) h with
       | Some p => acc ++ [p]
       | None => acc
       end)
    (map snd preds) acc
  = acc ++ collected preds h.
Proof.
  induction preds as [|[k m] preds IH]; intros acc; simpl.
  - now rewrite app_nil_r.
  - rewrite IH. destruct (dict_get (predictions m) h); [|reflexivity].
    now rewrite <- app_assoc.
Qed.

Lemma period_predictions_collected preds h :
  period_predictions_of preds h = collected preds h.
Proof. unfold period_predictions_of. now rewrite collected_fold. Qed.

(** Rounding. *)
Lemma round_half_even_near (x : R) (z : Z) :
  IZR z - 1 / 2 < x < IZR z + 1 / 2 -> round_half_even x = z.
Proof.
  intros [Hlo Hhi]. unfold round_half_even.
  destruct (Rle_lt_dec (IZR z) x) as [Hle|Hlt].
  - rewrite (Zfloor_eq z x) by lra.
    destruct (Rlt_dec (x - IZR z) (1 / 2)); [reflexivity | lra].
  - rewrite (Zfloor_eq (z - 1) x) by (rewrite minus_IZR; lra).
    rewrite minus_IZR.
    destruct (Rlt_dec (x - (IZR z - 1)) (1 / 2)); [lra|].
    destruct (Rlt_dec (1 / 2) (x - (IZR z - 1))); [f_equal; lia | lra].
Qed.

Lemma round2_near (x : R) (z : Z) :
  IZR z - 1 / 2 < x * 100 < IZR z + 1 / 2 -> round2 x = IZR z / 100.
Proof. intros H. unfold round2. now rewrite (round_half_even_near _ z). Qed.

Lemma round2_0 : round2 0 = 0.
Proof. rewrite (round2_near 0 0); lra. Qed.

(** The constructor. *)
Lemma EnsemblePrediction_new_ok p r v d s e :
  EnsemblePrediction_new p r v d s = Ok e ->
  0 < p /\ 0 <= s /\ validate_reason r = Ok (reason e) /\
  price e = p /\ sentiment e = v /\ disagreement e = d /\ std_dev e = s.
Proof.
  unfold EnsemblePrediction_new.
  destruct (Rlt_dec 0 p) as [Hp|Hp]; cbn [negb]; [|discriminate].
  destruct (validate_reason r) as [r'|err]; [|discriminate].
  destruct (Rle_dec 0 s) as [Hs|Hs]; [|discriminate].
  intros [= <-]. cbn. auto 10.
Qed.

Lemma EnsemblePrediction_new_raise p r v d s err :
  EnsemblePrediction_new p r v d s = Raise err ->
  exists field, err = ValidationError field.
Proof.
  unfold EnsemblePrediction_new, validate_reason.
  destruct (Rlt_dec 0 p); cbn [negb]; [|intros [= <-]; eauto].
  destruct r as [|c r]; [intros [= <-]; eauto|].
  destruct (strip (String c r)); [intros [= <-]; eauto|].
  destruct (Rle_dec 0 s); [discriminate | intros [= <-]; eauto].
Qed.

Lemma EnsemblePrediction_new_price p r v d s :
  ~ 0 < p -> EnsemblePrediction_new p r v d s = Raise (ValidationError "price").
Proof.
  intros Hp. unfold EnsemblePrediction_new.
  now destruct (Rlt_dec 0 p).
Qed.

End Engine.

(** ** The ensemble engine: majority vote *)

Section Voting.

Import Ensemble.

Implicit Types (l ks : list SentimentType) (v u x : SentimentType).

Lemma votes_snoc v l x :
  votes v (l ++ [x]) = if bool_decide (v = x) then S (votes v l) else votes v l.
Proof.
  unfold votes. rewrite count_occ_app. simpl.
  destruct (SentimentType_eq_dec x v); case_bool_decide; subst;
    try congruence; lia.
Qed.

Lemma votes_pos v l : (0 < votes v l)%nat <-> v ∈ l.
Proof.
  unfold votes. rewrite list_elem_of_In.
  symmetry. apply (count_occ_In SentimentType_eq_dec).
Qed.

Lemma seen_order_snoc l x :
  seen_order (l ++ [x]) =
    if bool_decide (x ∈ seen_order l) then seen_order l
    else seen_order l ++ [x].
Proof. unfold seen_order. now rewrite fold_left_app. Qed.

Lemma seen_order_elem l v : v ∈ seen_order l <-> v ∈ l.
Proof.
  induction l as [|x l IH] using rev_ind; [reflexivity|].
  rewrite seen_order_snoc, elem_of_app, list_elem_of_singleton.
  case_bool_decide as Hx.
  - rewrite IH. split; [auto|]. intros [?| ->]; [assumption|].
    now apply IH.
  - rewrite elem_of_app, list_elem_of_singleton, IH. reflexivity.
Qed.

Lemma seen_order_NoDup l : NoDup (seen_order l).
Proof.
  induction l as [|x l IH] using rev_ind; [constructor|].
  rewrite seen_order_snoc. case_bool_decide as Hx; [assumption|].
  apply NoDup_app. split; [assumption|]. split; [|apply NoDup_singleton].
  intros y Hy Hyx. apply list_elem_of_singleton in Hyx. congruence.
Qed.

Lemma first_index_old v l x :
  v ∈ l -> first_index v (l ++ [x]) = first_index v l.
Proof.
  induction l as [|y l IH]; simpl; [intros H; now apply not_elem_of_nil in H|].
  case_bool_decide; [reflexivity|].
  intros Hv. apply elem_of_cons in Hv as [->|Hv]; [congruence | auto].
Qed.

Lemma first_index_lt v l : v ∈ l -> (first_index v l < length l)%nat.
Proof.
  induction l as [|y l IH]; simpl; [intros H; now apply not_elem_of_nil in H|].
  case_bool_decide; [lia|].
  intros Hv. apply elem_of_cons in Hv as [->|Hv]; [congruence|].
  apply IH in Hv. lia.
Qed.

Lemma first_index_new x l : x ∉ l -> first_index x (l ++ [x]) = length l.
Proof.
  induction l as [|y l IH]; simpl; intros Hx.
  - now rewrite bool_decide_eq_true_2.
  - apply not_elem_of_cons in Hx as [Hne Hx].
    rewrite bool_decide_eq_false_2 by congruence. now rewrite IH.
Qed.

Lemma sorted_change {A} (R R' : A -> A -> Prop) (ks : list A) :
  (forall a b, a ∈ ks -> b ∈ ks -> R a b -> R' a b) ->
  StronglySorted R ks -> StronglySorted R' ks.
Proof.
  intros Himp Hs. induction Hs as [|a ks Hs IH Ha]; constructor.
  - apply IH. intros x y Hx Hy. apply Himp; now right.
  - rewrite List.Forall_forall in *. intros b Hb.
    apply Himp; [left | right; now apply list_elem_of_In | auto].
Qed.

Lemma sorted_snoc {A} (R : A -> A -> Prop) (ks : list A) (z : A) :
  StronglySorted R ks -> (forall a, a ∈ ks -> R a z) ->
  StronglySorted R (ks ++ [z]).
Proof.
  intros Hs Hx. induction Hs as [|a ks Hs IH Ha]; simpl.
  - repeat constructor.
  - constructor.
    + apply IH. intros b Hb. apply Hx. now right.
    + rewrite List.Forall_forall in *. intros b Hb.
      apply in_app_or in Hb as [Hb|[<-|[]]]; [auto|]. apply Hx. left.
Qed.

Lemma sorted_after {A} (R : A -> A -> Prop) (k1 k2 : list A) (a0 : A) :
  StronglySorted R (k1 ++ a0 :: k2) -> forall b, b ∈ k2 -> R a0 b.
Proof.
  induction k1 as [|a k1 IH]; simpl; intros Hs u Hu.
  - inversion Hs as [|? ? _ Hall]; subst.
    rewrite List.Forall_forall in Hall. apply Hall.
    now apply list_elem_of_In.
  - inversion Hs; subst. now apply IH.
Qed.

Lemma seen_order_sorted l : StronglySorted (seen_before l) (seen_order l).
Proof.
  induction l as [|x l IH] using rev_ind; [constructor|].
  assert (Hold : StronglySorted (seen_before (l ++ [x])) (seen_order l)).
  { eapply sorted_change; [|exact IH].
    intros a b Ha Hb. unfold seen_before.
    rewrite seen_order_elem in Ha, Hb.
    now rewrite (first_index_old a l x Ha), (first_index_old b l x Hb). }
  rewrite seen_order_snoc. case_bool_decide as Hx; [assumption|].
  apply sorted_snoc; [assumption|].
  intros a Ha. unfold seen_before. rewrite seen_order_elem in Ha.
  rewrite first_index_old by assumption.
  rewrite first_index_new by (now rewrite <- seen_order_elem).
  now apply first_index_lt.
Qed.

(** [Counter] holds, in first-seen order, each distinct value with its
    number of votes. *)
Lemma counter_add_map x (g : SentimentType -> nat) ks :
  NoDup ks ->
  counter_add x (map (fun v => (v, g v)) ks) =
    map (fun v => (v, if bool_decide (v = x) then S (g v) else g v)) ks
    ++ (if bool_decide (x ∈ ks) then [] else [(x, 1%nat)]).
Proof.
  induction ks as [|k ks IH]; intros Hnd; [reflexivity|].
  apply NoDup_cons in Hnd as [Hk Hnd]. cbn [map counter_add].
  destruct (decide (x = k)) as [Hxk|Hxk].
  - subst k. rewrite !(bool_decide_eq_true_2 (x = x)) by reflexivity.
    rewrite bool_decide_eq_true_2 by left. rewrite app_nil_r.
    f_equal. apply map_ext_in. intros a Ha.
    rewrite bool_decide_eq_false_2; [reflexivity|].
    intros ->. apply Hk. now apply list_elem_of_In.
  - rewrite (bool_decide_eq_false_2 (k = x)) by congruence.
    rewrite (bool_decide_eq_false_2 (x = k)) by congruence.
    rewrite IH by assumption. cbn [app]. f_equal. f_equal.
    destruct (decide (x ∈ ks)) as [Hin|Hnin].
    + rewrite !bool_decide_eq_true_2; [reflexivity | now right | assumption].
    + rewrite !bool_decide_eq_false_2; [reflexivity | | assumption].
      rewrite not_elem_of_cons. auto.
Qed.

Lemma Counter_snoc l x : Counter (l ++ [x]) = counter_add x (Counter l).
Proof. unfold Counter. now rewrite fold_left_app. Qed.

Lemma Counter_spec l :
  Counter l = map (fun v => (v, votes v l)) (seen_order l).
Proof.
  induction l as [|x l IH] using rev_ind; [reflexivity|].
  rewrite Counter_snoc, IH, counter_add_map by apply seen_order_NoDup.
  rewrite seen_order_snoc.
  assert (Hmap : map (fun v => (v, if bool_decide (v = x)
                                   then S (votes v l) else votes v l))
                     (seen_order l)
                 = map (fun v => (v, votes v (l ++ [x]))) (seen_order l)).
  { apply map_ext. intros a. now rewrite votes_snoc. }
  rewrite Hmap. case_bool_decide as Hx; [apply app_nil_r|].
  rewrite map_app. cbn [map]. rewrite votes_snoc.
  rewrite bool_decide_eq_true_2 by reflexivity.
  assert (H0 : votes x l = 0%nat).
  { destruct (votes x l) eqn:Hv; [reflexivity|].
    exfalso. apply Hx, seen_order_elem, votes_pos. lia. }
  now rewrite H0.
Qed.

(** [max] keeps the first item of greatest count. *)
Lemma keep_max_fold items : forall b,
  exists r,
    fold_left keep_max items (Some b) = Some r /\
    ((r = b /\ forall it, it ∈ items -> (it.2 <= b.2)%nat) \/
     (exists i1 i2,
        items = i1 ++ r :: i2 /\ (b.2 < r.2)%nat /\
        (forall it, it ∈ i1 -> (it.2 < r.2)%nat) /\
        (forall it, it ∈ i2 -> (it.2 <= r.2)%nat))).
Proof.
  induction items as [|it rest IH]; intros b.
  - exists b. split; [reflexivity|]. left. split; [reflexivity|].
    intros it Hit. now apply not_elem_of_nil in Hit.
  - cbn [fold_left keep_max].
    destruct (Nat.ltb_spec b.2 it.2) as [Hlt|Hge].
    + destruct (IH it) as (r & Hr & [[-> Hall] | (i1 & i2 & -> & Hb & H1 & H2)]).
      * exists it. split; [assumption|]. right. exists [], rest.
        split; [reflexivity|]. split; [assumption|]. split; [|assumption].
        intros x Hx. now apply not_elem_of_nil in Hx.
      * exists r. split; [assumption|]. right. exists (it :: i1), i2.
        split; [reflexivity|]. split; [lia|]. split; [|assumption].
        intros x Hx. apply elem_of_cons in Hx as [->|Hx]; [lia | auto].
    + destruct (IH b) as (r & Hr & [[-> Hall] | (i1 & i2 & -> & Hb & H1 & H2)]).
      * exists b. split; [assumption|]. left. split; [reflexivity|].
        intros x Hx. apply elem_of_cons in Hx as [->|Hx]; [lia | auto].
      * exists r. split; [assumption|]. right. exists (it :: i1), i2.
        split; [reflexivity|]. split; [assumption|]. split; [|assumption].
        intros x Hx. apply elem_of_cons in Hx as [->|Hx]; [lia | auto].
Qed.

Lemma max_by_count_spec (c : list (SentimentType * nat)) :
  c <> [] ->
  exists r c1 c2,
    max_by_count c = Some r /\ c = c1 ++ r :: c2 /\
    (forall it, it ∈ c1 -> (it.2 < r.2)%nat) /\
    (forall it, it ∈ c2 -> (it.2 <= r.2)%nat).
Proof.
  destruct c as [|b items]; [congruence|]. intros _.
  unfold max_by_count. cbn [fold_left keep_max].
  destruct (keep_max_fold items b)
    as (r & Hr & [[-> Hall] | (i1 & i2 & -> & Hb & H1 & H2)]).
  - exists b, [], items. split; [assumption|]. split; [reflexivity|].
    split; [|assumption]. intros x Hx. now apply not_elem_of_nil in Hx.
  - exists r, (b :: i1), i2. split; [assumption|]. split; [reflexivity|].
    split; [|assumption].
    intros x Hx. apply elem_of_cons in Hx as [->|Hx]; [lia | auto].
Qed.

Lemma vote_spec l :
  l <> [] ->
  exists v,
    _vote_sentiment l = Ok v /\ v ∈ l /\
    (forall u, (votes u l <= votes v l)%nat) /\
    (forall u, u <> v -> votes u l = votes v l -> seen_before l v u).
Proof.
  intros Hl.
  assert (Hne : Counter l <> []).
  { rewrite Counter_spec. intros Hnil. apply map_eq_nil in Hnil.
    destruct l as [|x0 l0]; [congruence|].
    assert (Hin : x0 ∈ seen_order (x0 :: l0)) by (apply seen_order_elem; left).
    rewrite Hnil in Hin. now apply not_elem_of_nil in Hin. }
  assert (Hvote : _vote_sentiment l =
                  match most_common_1 (Counter l) with
                  | most_common :: _ => Ok most_common.1
                  | [] => Raise IndexError
                  end) by (destruct l; [congruence | reflexivity]).
  rewrite Hvote. unfold most_common_1.
  destruct (max_by_count_spec _ Hne) as (r & c1 & c2 & Hmax & Hc & H1 & H2).
  rewrite Hmax. rewrite Counter_spec in Hc.
  apply map_eq_app in Hc as (k1 & k2' & Hks & Hc1 & Hc2).
  apply map_eq_cons in Hc2 as (v & k2 & -> & Hr & Hc2).
  exists v. subst r c1 c2. cbn [fst].
  assert (Hv : v ∈ l).
  { apply seen_order_elem. rewrite Hks. apply elem_of_app. right. left. }
  assert (Hcases : forall u, u ∈ l -> u ∈ k1 \/ u = v \/ u ∈ k2).
  { intros u Hu. rewrite <- seen_order_elem, Hks in Hu.
    apply elem_of_app in Hu as [?|Hu]; [auto|].
    apply elem_of_cons in Hu as [?|?]; auto. }
  assert (Hk1 : forall u, u ∈ k1 -> (votes u l < votes v l)%nat).
  { intros u Hu. apply (H1 (u, votes u l)).
    apply list_elem_of_In, in_map_iff. exists u.
    split; [reflexivity | now apply list_elem_of_In]. }
  assert (Hk2 : forall u, u ∈ k2 -> (votes u l <= votes v l)%nat).
  { intros u Hu. apply (H2 (u, votes u l)).
    apply list_elem_of_In, in_map_iff. exists u.
    split; [reflexivity | now apply list_elem_of_In]. }
  split; [reflexivity|]. split; [assumption|]. split.
  - intros u. destruct (decide (u ∈ l)) as [Hu|Hu].
    + destruct (Hcases u Hu) as [H|[->|H]]; [apply Hk1 in H; lia | lia | auto].
    + destruct (votes u l) eqn:E; [lia|].
      exfalso. apply Hu, votes_pos. lia.
  - intros u Hne' Heq.
    assert (Hu : u ∈ l).
    { apply votes_pos. rewrite Heq. now apply votes_pos. }
    destruct (Hcases u Hu) as [H|[->|H]];
      [apply Hk1 in H; lia | congruence |].
    pose proof (seen_order_sorted l) as Hs. rewrite Hks in Hs.
    exact (sorted_after _ _ _ _ Hs u H).
Qed.

End Voting.

(** ** The ensemble engine: consolidated reasons *)

Section Reasons.

Import Ensemble.

Implicit Types (l u : list string) (x y : string).

Lemma differs_spec x y : differs x y = true <-> x <> y.
Proof.
  unfold differs. destruct (String.eqb_spec x y); split; simpl; congruence.
Qed.

Lemma filter_filter_ext (f g h : string -> bool) l :
  (forall y, g y && f y = h y) ->
  List.filter f (List.filter g l) = List.filter h l.
Proof.
  intros Hext. induction l as [|y l IH]; [reflexivity|].
  cbn [List.filter]. rewrite <- Hext.
  destruct (g y); cbn [andb List.filter]; [destruct (f y)|]; now rewrite IH.
Qed.

Lemma filter_unseen_nil l : List.filter (unseen []) l = l.
Proof.
  induction l as [|y l IH]; [reflexivity|]. cbn [List.filter].
  unfold unseen at 1. rewrite bool_decide_eq_true_2 by apply not_elem_of_nil.
  now rewrite IH.
Qed.

Lemma filter_differs_unseen x u l :
  List.filter (differs x) (List.filter (unseen u) l)
  = List.filter (unseen (u ++ [x])) l.
Proof.
  apply filter_filter_ext. intros y. apply eq_true_iff_eq.
  rewrite andb_true_iff, differs_spec. unfold unseen.
  rewrite !bool_decide_eq_true, elem_of_app, list_elem_of_singleton.
  split; [intros [? ?] [?|?]; congruence | intros H; split; intros ?; apply H; auto].
Qed.

(** The scan of [_combine_reasons] keeps what [dedup_first] keeps. *)
Lemma unique_reasons_fold l : forall u (seen : gset string),
  (forall y, y ∈ seen <-> y ∈ u) ->
  (fold_left
     (fun (acc : list string * gset string) reason =>
        if bool_decide (reason ∈ acc.2) then acc
        else (acc.1 ++ [reason], {[reason]} ∪ acc.2))
     l (u, seen)).1
  = u ++ dedup_first (List.filter (unseen u) l).
Proof.
  induction l as [|x l IH]; intros u seen Hseen.
  - simpl. simp dedup_first. now rewrite app_nil_r.
  - cbn [fold_left fst snd List.filter].
    destruct (decide (x ∈ seen)) as [Hx|Hx].
    + rewrite bool_decide_eq_true_2 by assumption.
      unfold unseen at 1. rewrite bool_decide_eq_false_2 by (rewrite <- Hseen; tauto).
      now apply IH.
    + rewrite bool_decide_eq_false_2 by assumption.
      unfold unseen at 1. rewrite bool_decide_eq_true_2 by (now rewrite <- Hseen).
      rewrite (IH (u ++ [x]) ({[x]} ∪ seen)).
      * simp dedup_first. rewrite filter_differs_unseen.
        now rewrite <- app_assoc.
      * intros y. rewrite elem_of_union, elem_of_singleton, elem_of_app,
          list_elem_of_singleton, Hseen. tauto.
Qed.

Lemma append_empty_r (s : string) : s +:+ EmptyString = s.
Proof.
  induction s as [|c s IH]; [reflexivity|].
  change (String c (s +:+ EmptyString) = String c s). now rewrite IH.
Qed.

Lemma combine_reasons_nonempty x l :
  _combine_reasons (x :: l) = consolidate (x :: l).
Proof.
  unfold _combine_reasons, consolidate.
  pose proof (unique_reasons_fold (x :: l) [] ∅) as Hfold.
  destruct (fold_left _ (x :: l) ([], ∅)) as [unique seen] eqn:E.
  cbn [fst] in Hfold. rewrite Hfold by set_solver.
  rewrite filter_unseen_nil. cbn [app].
  destruct (Nat.ltb_spec 3 (length (dedup_first (x :: l)))) as [Hlt|Hge].
  - reflexivity.
  - rewrite take_ge by assumption. now rewrite append_empty_r.
Qed.

Lemma dedup_first_elem l : forall y, y ∈ dedup_first l <-> y ∈ l.
Proof.
  funelim (dedup_first l); intros y; [reflexivity|].
  rewrite !elem_of_cons, H. rewrite list_elem_of_In, filter_In, differs_spec.
  rewrite <- list_elem_of_In.
  destruct (decide (y = x)); [tauto|]. split; [tauto|].
  intros [?|?]; [tauto|]. right. split; [assumption | congruence].
Qed.

Lemma dedup_first_NoDup l : NoDup (dedup_first l).
Proof.
  funelim (dedup_first l); [constructor|].
  constructor; [|assumption].
  rewrite dedup_first_elem, list_elem_of_In, filter_In, differs_spec. tauto.
Qed.

End Reasons.

(** ** The ensemble engine: one horizon, then all of them *)

Section Aggregate.

Import Ensemble.

Local Open Scope R_scope.

Implicit Types (preds : list (string * ModelPrediction)) (h : string).

Lemma period_none thr preds h :
  collected preds h = [] -> _calculate_period_ensemble thr preds h = Ok None.
Proof.
  intros H. unfold _calculate_period_ensemble.
  now rewrite period_predictions_collected, H.
Qed.

Lemma period_some thr preds h p ps :
  collected preds h = p :: ps ->
  exists v,
    _vote_sentiment (map sentiment (p :: ps)) = Ok v /\
    _calculate_period_ensemble thr preds h =
      match EnsemblePrediction_new
              (round2 (mean (map price (p :: ps))))
              (_combine_reasons (map reason (p :: ps))) v
              (disagrees thr (map price (p :: ps)))
              (round2 (unrounded_std (map price (p :: ps)))) with
      | Ok e => Ok (Some e)
      | Raise err => Raise err
      end.
Proof.
  intros H.
  destruct (vote_spec (map sentiment (p :: ps))) as (v & Hv & _);
    [discriminate|].
  exists v. split; [assumption|].
  unfold _calculate_period_ensemble.
  rewrite period_predictions_collected, H.
  unfold mbind, Res_bind, bind. rewrite Hv.
  cbn [map]. rewrite py_div_mean.
  unfold disagrees, unrounded_std. cbn [map].
  set (prices := price p :: map price ps).
  assert (Hsd : (if (1 <? length prices)%nat then stdev prices else Ok 0)
                = Ok (if (1 <? length prices)%nat
                      then sample_std prices else 0)).
  { destruct (Nat.ltb_spec 1 (length prices)); [|reflexivity].
    now apply stdev_sample_std. }
  rewrite Hsd.
  destruct (Rlt_dec 0 (mean prices)) as [Hpos|Hneg]; [|reflexivity].
  unfold py_div. destruct (Req_dec_T (mean prices) 0) as [H0|_]; [lra|].
  reflexivity.
Qed.

Lemma period_ok thr preds h e :
  _calculate_period_ensemble thr preds h = Ok (Some e) ->
  let prices := map price (collected preds h) in
  collected preds h <> [] /\
  0 < round2 (mean prices) /\
  price e = round2 (mean prices) /\
  std_dev e = round2 (unrounded_std prices) /\
  disagreement e = disagrees thr prices /\
  _vote_sentiment (map sentiment (collected preds h)) = Ok (sentiment e) /\
  validate_reason (_combine_reasons (map reason (collected preds h)))
    = Ok (reason e).
Proof.
  intros Hcalc prices. subst prices.
  destruct (collected preds h) as [|p ps] eqn:Hc.
  - rewrite period_none in Hcalc by assumption. discriminate.
  - destruct (period_some thr preds h p ps Hc) as (v & Hv & Heq).
    rewrite Heq in Hcalc.
    destruct (EnsemblePrediction_new _ _ _ _ _) as [e'|err] eqn:Hnew;
      [|discriminate].
    injection Hcalc as ->.
    apply EnsemblePrediction_new_ok in Hnew
      as (Hp & Hs & Hr & Hprice & Hsent & Hdis & Hstd).
    split; [discriminate|]. rewrite Hv, Hsent. auto 10.
Qed.

Lemma period_raise thr preds h err :
  _calculate_period_ensemble thr preds h = Raise err ->
  exists field, err = ValidationError field.
Proof.
  intros Hcalc.
  destruct (collected preds h) as [|p ps] eqn:Hc.
  - rewrite period_none in Hcalc by assumption. discriminate.
  - destruct (period_some thr preds h p ps Hc) as (v & Hv & Heq).
    rewrite Heq in Hcalc.
    destruct (EnsemblePrediction_new _ _ _ _ _) as [e'|err'] eqn:Hnew;
      [discriminate|].
    injection Hcalc as ->. eapply EnsemblePrediction_new_raise. exact Hnew.
Qed.

Lemma dict_get_set {V} (d : list (string * V)) k v h :
  dict_get (dict_set d k v) h =
    if String.eqb h k then Some v else dict_get d h.
Proof.
  induction d as [|[k' v'] d IH]; simpl.
  - reflexivity.
  - destruct (String.eqb_spec k k') as [->|Hne]; simpl.
    + now destruct (String.eqb h k').
    + rewrite IH. destruct (String.eqb_spec h k') as [->|Hne'];
        [|reflexivity].
      now rewrite (proj2 (String.eqb_neq k' k)) by congruence.
Qed.

Lemma ensemble_loop_spec thr preds periods : forall acc ens,
  ensemble_loop thr preds periods acc = Ok ens ->
  NoDup periods ->
  (forall h, h ∈ periods -> dict_get acc h = None) ->
  forall h e,
    dict_get ens h = Some e <->
    dict_get acc h = Some e \/
    (h ∈ periods /\ _calculate_period_ensemble thr preds h = Ok (Some e)).
Proof.
  induction periods as [|period rest IH]; intros acc ens Hloop Hnd Hfresh h e.
  - injection Hloop as <-. split; [auto|].
    intros [?|[Hin _]]; [assumption | now apply not_elem_of_nil in Hin].
  - apply NoDup_cons in Hnd as [Hp Hnd].
    cbn [ensemble_loop] in Hloop. unfold mbind, Res_bind, bind in Hloop.
    destruct (_calculate_period_ensemble thr preds period) as [[e0|]|err]
      eqn:Hcalc; [| |discriminate].
    + rewrite (IH _ _ Hloop Hnd).
      2:{ intros k Hk. rewrite dict_get_set.
          destruct (String.eqb_spec k period) as [->|_]; [contradiction|].
          apply Hfresh. now right. }
      rewrite dict_get_set, elem_of_cons.
      destruct (String.eqb_spec h period) as [->|Hne].
      * rewrite Hcalc, (Hfresh period) by left.
        split; [intros [[= ->]|[? _]]; [auto | contradiction]|].
        intros [?|[_ [= ->]]]; [discriminate | auto].
      * split; [intros [?|[? ?]]; auto|].
        intros [?|[[?|?] ?]]; [auto | contradiction | auto].
    + rewrite (IH _ _ Hloop Hnd).
      2:{ intros k Hk. apply Hfresh. now right. }
      rewrite elem_of_cons. split; [intros [?|[? ?]]; auto|].
      intros [?|[[->|?] Hc]]; [auto | congruence | auto].
Qed.

Lemma ensemble_loop_settled thr preds periods : forall acc ens,
  ensemble_loop thr preds periods acc = Ok ens ->
  forall h, h ∈ periods ->
    exists o, _calculate_period_ensemble thr preds h = Ok o.
Proof.
  induction periods as [|period rest IH]; intros acc ens Hloop h Hh.
  - now apply not_elem_of_nil in Hh.
  - cbn [ensemble_loop] in Hloop. unfold mbind, Res_bind, bind in Hloop.
    destruct (_calculate_period_ensemble thr preds period) as [o|err]
      eqn:Hcalc; [|discriminate].
    apply elem_of_cons in Hh as [->|Hh]; [eauto|].
    destruct o; eapply IH; eauto.
Qed.

Lemma ensemble_loop_raise thr preds periods : forall acc err,
  ensemble_loop thr preds periods acc = Raise err ->
  exists field, err = ValidationError field.
Proof.
  induction periods as [|period rest IH]; intros acc err Hloop;
    [discriminate|].
  cbn [ensemble_loop] in Hloop. unfold mbind, Res_bind, bind in Hloop.
  destruct (_calculate_period_ensemble thr preds period) as [o|err']
    eqn:Hcalc.
  - destruct o; eapply IH; eauto.
  - injection Hloop as ->. eapply period_raise. exact Hcalc.
Qed.

Lemma horizons_NoDup : NoDup horizons.
Proof. apply (bool_decide_unpack _). vm_compute. reflexivity. Qed.

(** What a normal return of [calculate_ensemble] holds. *)
Lemma calculate_ensemble_ok thr preds ens :
  calculate_ensemble thr preds = Ok ens ->
  ens <> [] /\
  (forall h e,
     dict_get ens h = Some e <->
     h ∈ horizons /\
     _calculate_period_ensemble thr (valid_of preds) h = Ok (Some e)) /\
  (forall h, h ∈ horizons ->
     (dict_get ens h = None <-> collected (valid_of preds) h = [])).
Proof.
  unfold calculate_ensemble. fold (valid_of preds).
  destruct preds as [|kv preds']; [discriminate|].
  set (all := kv :: preds'). intros Hcalc.
  destruct (valid_of all) as [|kv' valid'] eqn:Hvalid; [discriminate|].
  rewrite <- Hvalid in *. unfold mbind, Res_bind, bind in Hcalc.
  destruct (ensemble_loop thr (valid_of all) ["1d"; "1w"; "1m"] []) as [ens'|]
    eqn:Hloop; [|discriminate].
  destruct ens' as [|item ens']; [discriminate|].
  injection Hcalc as <-.
  pose proof (ensemble_loop_spec thr _ _ _ _ Hloop horizons_NoDup
                (fun h _ => eq_refl)) as Hspec.
  split; [discriminate|]. split.
  - intros h e. rewrite Hspec. cbn [dict_get].
    split; [intros [?|?]; [discriminate | assumption] | auto].
  - intros h Hh.
    destruct (ensemble_loop_settled thr _ _ _ _ Hloop h Hh) as (o & Ho).
    split.
    + intros Hnone. destruct (collected (valid_of all) h) as [|p ps] eqn:Hc;
        [reflexivity|].
      destruct o as [e|].
      * assert (Hsome : dict_get (item :: ens') h = Some e)
          by (apply Hspec; right; auto).
        congruence.
      * destruct (period_some thr _ h p ps Hc) as (v & _ & Heq).
        rewrite Heq in Ho. destruct (EnsemblePrediction_new _ _ _ _ _);
          discriminate.
    + intros Hc. pose proof (period_none thr _ h Hc) as Hn.
      destruct (dict_get (item :: ens') h) as [e|] eqn:Hg; [|reflexivity].
      apply Hspec in Hg as [Hg|[_ Hg]]; [discriminate | congruence].
Qed.

End Aggregate.

(** ** The ensemble engine: evaluation on the examples *)

Section Examples.

Import Ensemble.

Local Open Scope R_scope.

Lemma EnsemblePrediction_new_value p r r' v d s :
  0 < p -> 0 <= s -> validate_reason r = Ok r' ->
  EnsemblePrediction_new p r v d s =
    Ok (mkEnsemblePrediction (mkPeriodPrediction p r' v) d s).
Proof.
  intros Hp Hs Hr. unfold EnsemblePrediction_new. rewrite Hr.
  destruct (Rlt_dec 0 p); [|contradiction].
  destruct (Rle_dec 0 s); [|contradiction].
  reflexivity.
Qed.

(** An input whose predictions are all valid and hold only ["1d"]. *)
Lemma aggregate_one_day thr preds :
  preds <> [] -> valid_of preds = preds ->
  collected preds "1w" = [] -> collected preds "1m" = [] ->
  calculate_ensemble thr preds =
    match _calculate_period_ensemble thr preds "1d" with
    | Ok (Some e) => Ok [("1d", e)]
    | Ok None => Raise (ValueError msg_no_ensemble)
    | Raise err => Raise err
    end.
Proof.
  intros Hne Hvalid Hw Hm. unfold calculate_ensemble. fold (valid_of preds).
  rewrite Hvalid. destruct preds as [|kv preds']; [congruence|].
  cbn [ensemble_loop]. unfold mbind, Res_bind, bind.
  rewrite (period_none thr _ "1w" Hw), (period_none thr _ "1m" Hm).
  now destruct (_calculate_period_ensemble thr _ "1d") as [[e|]|err].
Qed.

Lemma mean_three (a b c : R) : mean [a; b; c] = (a + b + c) / 3.
Proof. unfold mean. simpl. field. Qed.

Lemma sample_std_three (a b c d : R) :
  0 <= d ->
  (a - (a + b + c) / 3) ^ 2 + (b - (a + b + c) / 3) ^ 2
    + (c - (a + b + c) / 3) ^ 2 = 2 * (d * d) ->
  sample_std [a; b; c] = d.
Proof.
  intros Hd Hsq. unfold sample_std. rewrite mean_three.
  replace (total _ / INR _) with (d * d)
    by (cbn [map total length Nat.sub INR]; lra).
  now apply sqrt_square.
Qed.

Lemma three_models_result :
  calculate_ensemble default_threshold three_models =
    Ok [("1d", mkEnsemblePrediction
                 (mkPeriodPrediction 100 "상승 | 하락" POSITIVE) false 10)].
Proof.
  rewrite aggregate_one_day; try reflexivity; [|discriminate].
  destruct (period_some default_threshold three_models "1d"
              (mkPeriodPrediction 100 "상승" POSITIVE)
              [mkPeriodPrediction 110 "상승" POSITIVE;
               mkPeriodPrediction 90 "하락" NEGATIVE] eq_refl)
    as (v & Hv & ->).
  vm_compute in Hv. injection Hv as <-.
  cbn [map price reason].
  assert (Hm : mean [100; 110; 90] = 100) by (rewrite mean_three; lra).
  assert (Hs : unrounded_std [100; 110; 90] = 10).
  { unfold unrounded_std. cbn [length Nat.ltb Nat.leb].
    apply sample_std_three; lra. }
  assert (Hd : disagrees default_threshold [100; 110; 90] = false).
  { unfold disagrees, default_threshold. rewrite Hm, Hs.
    destruct (Rlt_dec 0 100); [|reflexivity].
    destruct (Rlt_dec (2 / 10) (10 / 100)); [lra | reflexivity]. }
  rewrite Hm, Hs, Hd.
  rewrite (round2_near 100 10000) by lra.
  rewrite (round2_near 10 1000) by lra.
  replace (IZR 10000 / 100) with 100 by lra.
  replace (IZR 1000 / 100) with 10 by lra.
  rewrite (EnsemblePrediction_new_value _ _ "상승 | 하락");
    [reflexivity | lra | lra | vm_compute; reflexivity].
Qed.

Lemma penny_result :
  calculate_ensemble default_threshold penny =
    Raise (ValidationError "price").
Proof.
  rewrite aggregate_one_day; try reflexivity; [|discriminate].
  destruct (period_some default_threshold penny "1d"
              (mkPeriodPrediction (4 / 1000) "r" NEUTRAL) [] eq_refl)
    as (v & Hv & ->).
  cbn [map price].
  assert (Hm : mean [4 / 1000] = 4 / 1000) by (unfold mean; simpl; field).
  rewrite Hm. rewrite (round2_near (4 / 1000) 0) by lra.
  rewrite EnsemblePrediction_new_price; [reflexivity | lra].
Qed.

End Examples.

(** ** Claims on the ensemble engine *)

Section EngineClaims.

Import Ensemble.

Local Open Scope R_scope.

(** The first typed failure is raised exactly when no prediction passes
    the filter, the empty input included. *)
Lemma no_valid_predictions_iff thr preds :
  (exists err, calculate_ensemble thr preds = Raise err /\
               NoValidPredictions err)
  <-> valid_of preds = [].
Proof.
  unfold calculate_ensemble, NoValidPredictions. fold (valid_of preds).
  destruct preds as [|kv preds'].
  - split; [reflexivity | eauto].
  - set (all := kv :: preds').
    destruct (valid_of all) as [|kv' valid'] eqn:Hvalid.
    + split; [reflexivity | eauto].
    + rewrite <- Hvalid. unfold mbind, Res_bind, bind.
      split; [|congruence]. intros (err & Hraise & Herr). exfalso.
      destruct (ensemble_loop thr (valid_of all) ["1d"; "1w"; "1m"] [])
        as [[|item ens]|err'] eqn:Hloop.
      * injection Hraise as <-.
        destruct Herr as [H|H]; vm_compute in H; discriminate H.
      * discriminate.
      * injection Hraise as <-.
        apply ensemble_loop_raise in Hloop as (field & ->).
        destruct Herr as [H|H]; discriminate H.
Qed.

(** The second one is raised when predictions pass the filter and no
    horizon collects an opinion. *)
Lemma no_valid_ensemble thr preds :
  valid_of preds <> [] ->
  (forall h, h ∈ horizons -> collected (valid_of preds) h = []) ->
  calculate_ensemble thr preds = Raise (ValueError msg_no_ensemble).
Proof.
  intros Hvalid Hnone. unfold calculate_ensemble. fold (valid_of preds).
  destruct preds as [|kv preds']; [now destruct Hvalid|].
  destruct (valid_of (kv :: preds')) as [|kv' valid'] eqn:Hv; [congruence|].
  rewrite <- Hv in *. cbn [ensemble_loop]. unfold mbind, Res_bind, bind.
  rewrite !period_none; [reflexivity | | |]; apply Hnone;
    unfold horizons; set_solver.
Qed.

(** C5: the two typed failures are raised as claimed, but the call does
    not return normally in every other case.  On a single successful
    prediction of 0.004 for ["1d"], which passes the filter and gives the
    horizon an opinion, the mean rounds to 0.00 and the constructor of the
    result rejects it: [calculate_ensemble] raises a validation error. *)
Theorem aggregate_raises_on_tiny_mean :
  valid_of penny = penny /\
  collected (valid_of penny) "1d"
    = [mkPeriodPrediction (4 / 1000) "r" NEUTRAL] /\
  calculate_ensemble default_threshold penny
    = Raise (ValidationError "price") /\
  ~ NoValidPredictions (ValidationError "price") /\
  ~ NoValidEnsemble (ValidationError "price").
Proof.
  split; [reflexivity|]. split; [reflexivity|].
  split; [apply penny_result|].
  unfold NoValidPredictions, NoValidEnsemble.
  split; [intros [H|H]; discriminate H | discriminate].
Qed.

(** C8, as stated, fails on a tie: for positive, negative, negative,
    positive the vote is positive, the first value seen, while the first
    value whose count reaches the maximum of 2 is negative. *)
Lemma tie_is_not_first_to_reach_max :
  ~ (forall l, l <> [] ->
       exists v, _vote_sentiment l = Ok v /\ first_to_reach_max l = Some v).
Proof.
  intros H.
  destruct (H [POSITIVE; NEGATIVE; NEGATIVE; POSITIVE]) as (v & Hv & Hfirst);
    [discriminate|].
  vm_compute in Hv, Hfirst. congruence.
Qed.

(** C8, amended.  For every non-empty list of sentiments the vote
    returns a value of the list with the greatest number of votes, and
    among values with that number the one seen first in the list.
    Positive, positive, negative gives positive, and a 1-1 tie gives the
    first of the two. *)
Theorem vote_is_first_seen_majority (l : list SentimentType) :
  l <> [] ->
  (exists v,
     _vote_sentiment l = Ok v /\ v ∈ l /\
     (forall u, (votes u l <= votes v l)%nat) /\
     (forall u, u <> v -> votes u l = votes v l ->
                (first_index v l < first_index u l)%nat)) /\
  _vote_sentiment [POSITIVE; POSITIVE; NEGATIVE] = Ok POSITIVE /\
  (forall a b, _vote_sentiment [a; b] = Ok a).
Proof.
  intros Hl. split; [now apply vote_spec|].
  split; [reflexivity|]. intros [] []; reflexivity.
Qed.

Lemma vote_is_first_seen_majority_witness :
  [POSITIVE; NEGATIVE; NEGATIVE; POSITIVE] <> [] /\
  _vote_sentiment [POSITIVE; POSITIVE; NEGATIVE] = Ok POSITIVE.
Proof.
  split; [discriminate|].
  apply (vote_is_first_seen_majority
           [POSITIVE; NEGATIVE; NEGATIVE; POSITIVE]).
  discriminate.
Defined.

(** C9.  The reasons the engine consolidates are those of the opinions
    collected for a horizon, and there is always at least one of them:
    with no opinion collected the horizon gets no entry and
    [_combine_reasons] is not called.  For every such list the text is
    the first three of its distinct reasons, taken in first-seen order
    and joined by the separator, followed by the truncation marker
    exactly when there are more than three distinct reasons.  The
    distinct reasons are those of the list, each once, told apart by
    exact equality.  The opinion of the horizon carries that text,
    stripped by the validator of the model.  (The guard of
    [_combine_reasons] for the empty list returns a fixed text.) *)
Theorem combine_reasons_consolidates (reasons : list string) :
  reasons <> [] ->
  _combine_reasons reasons = consolidate reasons /\
  consolidate reasons =
    String.concat " | " (take 3 (dedup_first reasons))
    +:+ (if (3 <? length (dedup_first reasons))%nat then " 외" else EmptyString) /\
  NoDup (dedup_first reasons) /\
  (forall r, r ∈ dedup_first reasons <-> r ∈ reasons) /\
  (forall x l, dedup_first (x :: l)
               = x :: dedup_first (List.filter (differs x) l)) /\
  _combine_reasons [] = "종합 분석 결과" /\
  (* the lists the engine consolidates *)
  (forall thr preds h,
     collected preds h = [] ->
     _calculate_period_ensemble thr preds h = Ok None) /\
  (forall thr preds h e,
     _calculate_period_ensemble thr preds h = Ok (Some e) ->
     let collected_reasons := map reason (collected preds h) in
     collected_reasons <> [] /\
     reason e = strip (_combine_reasons collected_reasons) /\
     reason e = strip (consolidate collected_reasons)).
Proof.
  intros Hne. destruct reasons as [|x l]; [congruence|].
  split; [apply combine_reasons_nonempty|]. split; [reflexivity|].
  split; [apply dedup_first_NoDup|]. split; [apply dedup_first_elem|].
  split; [intros y k; now simp dedup_first|]. split; [reflexivity|].
  split; [intros thr preds h; apply period_none|].
  intros thr preds h e Hp collected_reasons. subst collected_reasons.
  destruct (period_ok _ _ _ _ Hp) as (Hc & _ & _ & _ & _ & _ & Hr).
  destruct (collected preds h) as [|p ps]; [congruence|].
  split; [discriminate|].
  assert (Hs : reason e
               = strip (_combine_reasons (map reason (p :: ps)))).
  { revert Hr. unfold validate_reason.
    destruct (_combine_reasons _); [discriminate|].
    destruct (strip _); [discriminate|]. now intros [= <-]. }
  split; [exact Hs|].
  rewrite Hs. cbn [map]. now rewrite combine_reasons_nonempty.
Qed.

Lemma combine_reasons_consolidates_witness :
  ["a"; "b"; "a"; "c"; "d"] <> [] /\
  _combine_reasons ["a"; "b"; "a"; "c"; "d"]
    = consolidate ["a"; "b"; "a"; "c"; "d"].
Proof.
  split; [discriminate|].
  apply (combine_reasons_consolidates ["a"; "b"; "a"; "c"; "d"]).
  discriminate.
Defined.

End EngineClaims.

(** ** The life of a fallback manager *)

Section ManagerProps.

Import Manager.

Implicit Types (st : list DataSource) (s : DataSource).

Lemma same_registry_sym a b : same_registry a b -> same_registry b a.
Proof.
  unfold same_registry. intros H. apply Forall2_flip.
  eapply Forall2_impl; [exact H|]. simpl. intros x y (-> & -> & -> & ->). auto.
Qed.

Lemma same_registry_trans a b c :
  same_registry a b -> same_registry b c -> same_registry a c.
Proof.
  unfold same_registry. intros H1. revert c.
  induction H1 as [|x y a b (Hn & Hp & Hm & Hs) _ IH]; intros c H2;
    inversion H2 as [|? z ? c' (Hn' & Hp' & Hm' & Hs') Hbc]; subst;
    constructor; auto.
  repeat split; congruence.
Qed.

Lemma same_registry_reset st : same_registry (reset_all_sources st) st.
Proof.
  unfold same_registry, reset_all_sources.
  induction st as [|s st IH]; simpl; constructor; auto.
Qed.

Lemma same_registry_fetch st symbol market w rnd :
  same_registry (fetch_with_fallback st symbol market w rnd).1.1 st.
Proof.
  destruct (fetch_with_fallback_spec symbol market w st rnd)
    as (st' & -> & Hst'). simpl.
  unfold same_registry. apply Forall2_lookup. intros j. rewrite Hst'.
  case_bool_decide.
  - destruct (st !! j) as [s|]; simpl; constructor.
    apply after_static.
  - destruct (st !! j) as [s|]; constructor. auto.
Qed.

Lemma same_registry_apply_op st op : same_registry (apply_op st op) st.
Proof.
  destruct op; simpl; [apply same_registry_fetch | apply same_registry_reset].
Qed.

Lemma same_registry_run_ops ops : forall st,
  same_registry (run_ops st ops) st.
Proof.
  induction ops as [|op ops IH]; intros st; simpl.
  - apply same_registry_refl.
  - eapply same_registry_trans; [apply IH | apply same_registry_apply_op].
Qed.

Lemma same_registry_length a b : same_registry a b -> length a = length b.
Proof. apply Forall2_length. Qed.

Lemma fetch_lookup st symbol market w rnd j :
  (fetch_with_fallback st symbol market w rnd).1.1 !! j =
    if bool_decide (j ∈ (fetch_with_fallback st symbol market w rnd).2)
    then (fun s => after s (w j symbol market)) <$> st !! j
    else st !! j.
Proof.
  destruct (fetch_with_fallback_spec symbol market w st rnd)
    as (st' & -> & Hst'). simpl. apply Hst'.
Qed.

Lemma fetch_trace st symbol market w rnd i :
  i ∈ (fetch_with_fallback st symbol market w rnd).2 <->
    eligible st market i /\
    forall j, (j < i)%nat -> eligible st market j ->
              fails (w j symbol market) = true.
Proof.
  destruct (fetch_with_fallback_spec symbol market w st rnd)
    as (st' & -> & _). simpl.
  rewrite attempts_iff by apply active_sources_sorted.
  split.
  - intros (_ & He & Hj). split; [assumption|].
    intros j Hlt Hej. apply Hj; [|assumption..].
    destruct Hej as (s & Hs & Hen & _). apply active_sources_spec. eauto.
  - intros (He & Hj). split; [|split; [assumption|]].
    + destruct He as (s & Hs & Hen & _). apply active_sources_spec. eauto.
    + intros j _. apply Hj.
Qed.

Lemma fetch_result st symbol market w rnd :
  exists d, (fetch_with_fallback st symbol market w rnd).1.2 = Ok d.
Proof.
  destruct (fetch_with_fallback_spec symbol market w st rnd)
    as (st' & -> & _). simpl. eauto.
Qed.

Lemma after_bounds s out :
  enabled s = true -> within_bounds s -> within_bounds (after s out).
Proof.
  unfold within_bounds, after, _record_failure. intros He [Hr Hlt].
  specialize (Hlt He).
  destruct (fails out); simpl.
  - destruct (Z.leb_spec (max_failures s) (failure_count s + 1)); simpl;
      (split; [lia|]); [discriminate | intros _; lia].
  - split; [lia|]. intros _. lia.
Qed.

Lemma reset_bounds s : (0 < max_failures s)%Z -> within_bounds (reset s).
Proof. unfold within_bounds, reset. simpl. lia. Qed.

Lemma apply_op_bounds st op :
  Forall (fun s => (0 < max_failures s)%Z) st ->
  Forall within_bounds st -> Forall within_bounds (apply_op st op).
Proof.
  intros Hmax Hb. destruct op as [symbol market w rnd|]; simpl.
  - apply Forall_lookup. intros j s'. rewrite fetch_lookup.
    case_bool_decide as Hj.
    + apply fetch_trace in Hj as [(s & Hs & He & _) _].
      rewrite Hs. simpl. intros [= <-].
      apply after_bounds; [assumption|].
      eapply Forall_lookup_1; eassumption.
    + intros Hs. eapply Forall_lookup_1; eassumption.
  - unfold reset_all_sources. apply Forall_map.
    eapply Forall_impl; [exact Hmax|]. intros s. apply reset_bounds.
Qed.

Lemma same_registry_max_pos a b :
  same_registry a b ->
  Forall (fun s => (0 < max_failures s)%Z) b ->
  Forall (fun s => (0 < max_failures s)%Z) a.
Proof.
  unfold same_registry. induction 1 as [|x y a b (_ & _ & Hm & _) _ IH];
    intros Hb; [constructor|].
  inversion Hb; subst. constructor; [lia | auto].
Qed.

Lemma run_ops_bounds ops : forall st,
  Forall (fun s => (0 < max_failures s)%Z) st ->
  Forall within_bounds st -> Forall within_bounds (run_ops st ops).
Proof.
  induction ops as [|op ops IH]; intros st Hmax Hb; simpl; [assumption|].
  apply IH.
  - eapply same_registry_max_pos; [apply same_registry_apply_op | assumption].
  - now apply apply_op_bounds.
Qed.

Lemma register_length reg : length (_register_sources reg) = length reg.
Proof.
  symmetry. apply Permutation_length, sort_by_priority_perm.
Qed.

Lemma register_Forall (P : DataSource -> Prop) reg :
  Forall P reg -> Forall P (_register_sources reg).
Proof.
  intros H. eapply Permutation_Forall; [|exact H].
  apply sort_by_priority_perm.
Qed.

(** X1.  Whatever requests and resets a manager serves, its registry is
    the one it was built with: the same providers, at the same
    positions, with the same priorities, thresholds and market
    predicates, still in ascending priority order. *)
Theorem manager_keeps_registry (reg : list DataSource) (ops : list Op) :
  let st := run_ops (_register_sources reg) ops in
  same_registry st (_register_sources reg) /\
  length st = length reg /\
  map name st = map name (_register_sources reg) /\
  (forall i j a b, (i < j)%nat -> st !! i = Some a -> st !! j = Some b ->
                   (priority a <= priority b)%Z).
Proof.
  intros st.
  assert (Hreg : same_registry st (_register_sources reg))
    by apply same_registry_run_ops.
  split; [assumption|]. split; [|split].
  - rewrite (same_registry_length _ _ Hreg). apply register_length.
  - clear -Hreg. induction Hreg as [|x y a b (Hn & _) _ IH]; simpl;
      [reflexivity | now rewrite Hn, IH].
  - intros i j a b Hij Ha Hb.
    destruct (same_registry_priority _ _ _ _ Hreg Ha) as (a' & Ha' & ->).
    destruct (same_registry_priority _ _ _ _ Hreg Hb) as (b' & Hb' & ->).
    eapply (sorted_lookup (_register_sources reg)); eauto.
    apply sort_by_priority_sorted.
Qed.

(** X2.  In a manager built from providers with a zero count and a
    positive threshold, every counter stays between zero and the
    threshold, and an enabled provider is strictly below it, after any
    sequence of requests and resets. *)
Theorem failure_counts_stay_bounded (reg : list DataSource)
    (ops : list Op) :
  Forall (fun s => failure_count s = 0%Z /\ (0 < max_failures s)%Z) reg ->
  Forall within_bounds (run_ops (_register_sources reg) ops).
Proof.
  intros Hreg. apply run_ops_bounds.
  - apply register_Forall. eapply Forall_impl; [exact Hreg|].
    now intros s [_ H].
  - apply register_Forall. eapply Forall_impl; [exact Hreg|].
    intros s [H0 Hm]. unfold within_bounds. rewrite H0. lia.
Qed.

Lemma failure_counts_stay_bounded_witness :
  let reg := shipped_sources true false None None in
  let w : World := fun _ _ _ => Raise TimeoutError in
  let op := OpFetch "005930" "KOSPI" w (mkRandom 0 1000000) in
  Forall (fun s => failure_count s = 0%Z /\ (0 < max_failures s)%Z) reg /\
  Forall within_bounds
    (run_ops (_register_sources reg) [op; op; op; op; OpResetAll; op]).
Proof.
  intros reg w op.
  assert (H : Forall (fun s => failure_count s = 0%Z /\
                               (0 < max_failures s)%Z) reg).
  { unfold reg, shipped_sources. repeat constructor. }
  split; [exact H|].
  exact (failure_counts_stay_bounded reg _ H).
Defined.

End ManagerProps.

Section ManagerStatus.

Import Manager.

Implicit Types (st : list DataSource) (s : DataSource).

Lemma dict_set_fresh {V} (d : list (string * V)) k v :
  dict_get d k = None -> dict_set d k v = d ++ [(k, v)].
Proof.
  induction d as [|[k' v'] d IH]; simpl; [reflexivity|].
  destruct (String.eqb_spec k k'); [discriminate|].
  intros H. now rewrite IH.
Qed.

Lemma get_status_fold st : forall d n v,
  dict_get
    (fold_left (fun d s => dict_set d (name s) (status_of s)) st d) n
    = Some v ->
  dict_get d n = Some v \/ exists s, s ∈ st /\ name s = n /\ v = status_of s.
Proof.
  induction st as [|s st IH]; intros d n v; simpl.
  - auto.
  - intros H. apply IH in H as [H | (s' & Hin & Hn & Hv)].
    + rewrite dict_get_set in H.
      destruct (String.eqb_spec n (name s)) as [->|Hne]; [|auto].
      injection H as <-. right. exists s. split; [left|]; auto.
    + right. exists s'. split; [now right | auto].
Qed.

Lemma get_status_entry st n v :
  dict_get (get_status st) n = Some v ->
  exists s, s ∈ st /\ name s = n /\ v = status_of s.
Proof.
  unfold get_status. intros H.
  apply get_status_fold in H as [H | H]; [discriminate | exact H].
Qed.

(** On a registry whose providers have distinct names the report lists
    the providers in store order. *)
Lemma get_status_distinct st :
  NoDup (map name st) -> Manager.get_status st = Fallback.get_status st.
Proof.
  unfold Manager.get_status, Fallback.get_status.
  enough (H : forall d,
    NoDup (map fst d ++ map name st) ->
    fold_left (fun d s => dict_set d (name s) (status_of s)) st d
    = d ++ map (fun s => (name s, (enabled s, priority s, failure_count s)))
              st) by apply (H []).
  induction st as [|s st IH]; intros d Hnd; simpl.
  - now rewrite app_nil_r.
  - simpl in Hnd. apply NoDup_app in Hnd as (Hd & Hdisj & Hst).
    apply NoDup_cons in Hst as [Hs Hst].
    rewrite dict_set_fresh.
    + rewrite IH.
      * now rewrite <- app_assoc.
      * rewrite map_app. simpl. rewrite <- app_assoc. simpl.
        apply NoDup_app. split; [exact Hd|]. split.
        -- intros x Hx Hin. apply (Hdisj x Hx). exact Hin.
        -- now apply NoDup_cons.
    + apply dict_get_None. intros Hin. apply (Hdisj _ Hin). left.
Qed.

Lemma shipped_registered fdr pykrx k1 k2 :
  _register_sources (shipped_sources fdr pykrx k1 k2)
  = shipped_sources fdr pykrx k1 k2.
Proof. reflexivity. Qed.

(** X3.  The status report of the shipped manager always lists the four
    providers under their own names in priority order, with priorities
    1 to 4, a failure count between 0 and 3, and a count below 3 for
    every provider reported as enabled. *)
Theorem status_report_of_shipped_manager (fdr pykrx : bool)
    (api_key settings_key : option string) (ops : list Op) :
  let status :=
    get_status
      (run_ops
         (_register_sources (shipped_sources fdr pykrx api_key settings_key))
         ops) in
  map (fun kv => (kv.1, kv.2.1.2)) status
    = [ ("YahooFinance", 1%Z); ("FinanceDataReader", 2%Z);
        ("PyKrx", 3%Z); ("AlphaVantage", 4%Z) ] /\
  forall n e p c, dict_get status n = Some (e, p, c) ->
    (0 <= c <= 3)%Z /\ (e = true -> (c < 3)%Z).
Proof.
  intros status. subst status.
  set (st := run_ops _ ops).
  assert (Hreg : same_registry st
                    (shipped_sources fdr pykrx api_key settings_key)).
  { unfold st.
    rewrite <- (shipped_registered fdr pykrx api_key settings_key) at 2.
    apply same_registry_run_ops. }
  assert (Hb : Forall within_bounds st).
  { apply run_ops_bounds.
    - rewrite shipped_registered. repeat constructor.
    - rewrite shipped_registered. unfold within_bounds.
      repeat constructor; simpl; lia. }
  split.
  - unfold same_registry, shipped_sources in Hreg.
    inversion Hreg as [|a ? ? ? (Ha & Hpa & _) Hreg1]; subst.
    inversion Hreg1 as [|b ? ? ? (Hb' & Hpb & _) Hreg2]; subst.
    inversion Hreg2 as [|c ? ? ? (Hc & Hpc & _) Hreg3]; subst.
    inversion Hreg3 as [|d ? ? ? (Hd & Hpd & _) Hreg4]; subst.
    inversion Hreg4; subst.
    unfold get_status, status_of. simpl in *.
    rewrite Ha, Hb', Hc, Hd, Hpa, Hpb, Hpc, Hpd. reflexivity.
  - intros n e p c H.
    apply get_status_entry in H as (s & Hin & _ & Hv).
    unfold status_of in Hv. injection Hv as -> -> ->.
    assert (Hm : max_failures s = 3%Z).
    { apply list_elem_of_lookup in Hin as [i Hi].
      destruct (Forall2_lookup_l _ _ _ _ _ Hreg Hi)
        as (y & Hy & _ & _ & -> & _).
      apply list_elem_of_lookup_2 in Hy.
      unfold shipped_sources in Hy.
      repeat (apply elem_of_cons in Hy as [-> | Hy]; [reflexivity|]).
      now apply elem_of_nil in Hy. }
    rewrite Forall_forall in Hb. specialize (Hb s Hin).
    unfold within_bounds in Hb. rewrite Hm in Hb. exact Hb.
Qed.

End ManagerStatus.

Section ManagerReset.

Import Manager.

Implicit Types (st : list DataSource) (s : DataSource).

Lemma reset_all_lookup st i :
  reset_all_sources st !! i = reset <$> st !! i.
Proof. unfold reset_all_sources. apply list_lookup_fmap. Qed.

Lemma eligible_reset_all st market i :
  eligible (reset_all_sources st) market i <->
  exists s, st !! i = Some s /\ supports_market s market = true.
Proof.
  unfold eligible. rewrite reset_all_lookup. split.
  - intros (s' & Hs' & _ & Hsup).
    destruct (st !! i) as [s|]; [|discriminate].
    injection Hs' as <-. eauto.
  - intros (s & -> & Hsup). exists (reset s). simpl. auto.
Qed.

(** X4.  [reset_all_sources] re-enables every provider with a zero
    count, also one its constructor disabled for a missing library or
    API key, so the next request is routed by market support alone: a
    provider is invoked exactly when it supports the market and every
    earlier provider that supports it has failed. *)
Theorem reset_all_reopens_every_provider (st : list DataSource) :
  let st' := reset_all_sources st in
  same_registry st' st /\
  Forall (fun s => enabled s = true /\ failure_count s = 0%Z) st' /\
  active_sources st' = seq 0 (length st) /\
  forall symbol market (w : World) rnd i,
    i ∈ (fetch_with_fallback st' symbol market w rnd).2 <->
      (exists s, st !! i = Some s /\ supports_market s market = true) /\
      forall j s, (j < i)%nat -> st !! j = Some s ->
                  supports_market s market = true ->
                  fails (w j symbol market) = true.
Proof.
  intros st'. subst st'. split; [apply same_registry_reset|].
  split; [|split].
  - unfold reset_all_sources. apply Forall_map, Forall_forall.
    intros s _. simpl. auto.
  - unfold active_sources.
    replace (length (reset_all_sources st)) with (length st)
      by (unfold reset_all_sources; now rewrite length_map).
    apply forallb_filter_id. apply forallb_forall. intros i Hi.
    apply in_seq in Hi. rewrite reset_all_lookup.
    destruct (st !! i) as [s|] eqn:Hs; [reflexivity|].
    apply lookup_ge_None in Hs. lia.
  - intros symbol market w rnd i. rewrite fetch_trace.
    rewrite eligible_reset_all. split.
    + intros [He Hj]. split; [assumption|].
      intros j s Hlt Hs Hsup. apply Hj; [assumption|].
      apply eligible_reset_all. eauto.
    + intros [He Hj]. split; [assumption|].
      intros j Hlt Hej. apply eligible_reset_all in Hej as (s & Hs & Hsup).
      eauto.
Qed.

End ManagerReset.

Section ManagerOutage.

Import Manager.

Implicit Types (st : list DataSource) (s : DataSource).

(** A request during which every provider fails leaves each eligible
    provider with one more failure and every other provider as it was. *)
Lemma serve_outage st symbol market (w : World) rnd :
  (forall i, eligible st market i -> fails (w i symbol market) = true) ->
  serve st (symbol, market, w, rnd) = map (outage market) st.
Proof.
  intros Hfail. unfold serve. apply list_eq. intros j.
  rewrite fetch_lookup, list_lookup_fmap.
  case_bool_decide as Hj.
  - apply fetch_trace in Hj as [He _].
    pose proof (Hfail j He) as Hf.
    destruct He as (s & -> & Hen & Hsup). simpl.
    unfold outage, after. now rewrite Hen, Hsup, Hf.
  - destruct (st !! j) as [s|] eqn:Hs; [|reflexivity]. simpl.
    unfold outage.
    destruct (enabled s && supports_market s market) eqn:Hes; [|reflexivity].
    apply andb_true_iff in Hes as [Hen Hsup].
    exfalso. apply Hj. apply fetch_trace. split.
    + exists s. auto.
    + intros i _. apply Hfail.
Qed.

Lemma outage_static market s :
  supports_market (outage market s) = supports_market s /\
  max_failures (outage market s) = max_failures s.
Proof.
  unfold outage. destruct (_ && _); [|easy].
  destruct (record_failure_static s) as (_ & _ & -> & ->). easy.
Qed.

(** The progress of one provider through [n] all-failing requests. *)
Lemma outage_iter market s (n : nat) :
  supports_market s market = true ->
  let s' := Nat.iter n (outage market) s in
  (enabled s' = true ->
     enabled s = true /\
     failure_count s' = (failure_count s + Z.of_nat n)%Z /\
     (n = 0%nat \/ failure_count s' < max_failures s)%Z).
Proof.
  intros Hsup. induction n as [|n IH]; cbn zeta.
  - simpl. intros He. split; [assumption|]. split; [lia | auto].
  - rewrite Nat.iter_succ. cbn zeta in IH.
    set (t := Nat.iter n (outage market) s) in *.
    assert (Ht : supports_market t market = true /\
                 max_failures t = max_failures s).
    { clear IH. subst t. induction n as [|n IHn]; [auto|].
      rewrite Nat.iter_succ.
      destruct (outage_static market (Nat.iter n (outage market) s))
        as [-> ->]. exact IHn. }
    destruct Ht as [Htsup Htmax].
    unfold outage. rewrite Htsup, andb_true_r.
    destruct (enabled t) eqn:Het.
    + destruct (IH eq_refl) as (He & Hc & _).
      unfold _record_failure. cbn -[Z.of_nat Z.add Z.leb].
      destruct (Z.leb_spec (max_failures t) (failure_count t + 1));
        cbn -[Z.of_nat Z.add Z.leb].
      * discriminate.
      * intros _. split; [assumption|]. split; [lia|]. right. lia.
    + rewrite Het. discriminate.
Qed.

Lemma serve_all_outage market reqs : forall st,
  Forall (fun req : string * string * World * Random =>
            req.1.1.2 = market /\
            forall i, fails (req.1.2 i req.1.1.1 market) = true) reqs ->
  serve_all st reqs = map (Nat.iter (length reqs) (outage market)) st.
Proof.
  unfold serve_all.
  induction reqs as [|[[[symbol m] w] rnd] reqs IH]; intros st Hall.
  - simpl. now rewrite map_id.
  - inversion Hall as [|? ? [Hm Hw] Hrest]. simpl in Hm, Hw. subst.
    cbn [fold_left]. rewrite serve_outage by (intros; apply Hw).
    rewrite IH by assumption. rewrite map_map.
    apply map_ext. intros s. cbn [length].
    now rewrite Nat.iter_succ_r.
Qed.

(** X5.  An outage opens every circuit: after as many requests for one
    market, all of whose fetches failed, as the thresholds of the
    providers supporting that market require, no provider is eligible
    for it any more; the next request for it invokes no provider,
    changes nothing and is answered with generated data, while the
    providers that do not support the market are as they were. *)
Theorem outage_opens_every_circuit (st : list DataSource)
    (market : string) (reqs : list (string * string * World * Random)) :
  Forall within_bounds st ->
  Forall (fun req : string * string * World * Random =>
            req.1.1.2 = market /\
            forall i, fails (req.1.2 i req.1.1.1 market) = true) reqs ->
  (forall s, s ∈ st -> supports_market s market = true ->
     (max_failures s <= failure_count s + Z.of_nat (length reqs))%Z) ->
  let st' := serve_all st reqs in
  (forall i, ~ eligible st' market i) /\
  (forall symbol (w : World) rnd,
     fetch_with_fallback st' symbol market w rnd
       = (st', Ok (_get_mock_data symbol market rnd), [])) /\
  (forall i s, st !! i = Some s -> supports_market s market = false ->
     st' !! i = Some s).
Proof.
  intros Hb Hall Hmax st'.
  assert (Hst' : st' = map (Nat.iter (length reqs) (outage market)) st)
    by (apply serve_all_outage; assumption).
  assert (Hnone : forall i, ~ eligible st' market i).
  { intros i (s' & Hs' & Hen & Hsup).
    rewrite Hst', list_lookup_fmap in Hs'.
    destruct (st !! i) as [s|] eqn:Hs; [|discriminate].
    injection Hs' as <-.
    assert (Hsup0 : supports_market s market = true).
    { clear -Hsup. induction (length reqs) as [|n IH]; [assumption|].
      rewrite Nat.iter_succ in Hsup.
      destruct (outage_static market (Nat.iter n (outage market) s))
        as [Heq _]. rewrite Heq in Hsup. auto. }
    destruct (outage_iter market s (length reqs) Hsup0 Hen)
      as (Hen0 & Hc & Hn).
    apply list_elem_of_lookup_2 in Hs.
    specialize (Hmax s Hs Hsup0).
    rewrite Forall_forall in Hb. destruct (Hb s Hs) as [_ Hlt].
    specialize (Hlt Hen0).
    destruct Hn as [Hn | Hn]; [rewrite Hn in Hmax; simpl in Hmax|]; lia. }
  split; [exact Hnone|]. split.
  - intros symbol w rnd.
    destruct (fetch_with_fallback_spec symbol market w st' rnd)
      as (st'' & Heq & Hlook).
    assert (Htr : attempts st' symbol market w (active_sources st') = []).
    { destruct (attempts _ _ _ _ _) as [|i tr] eqn:Ha; [reflexivity|].
      exfalso. apply (Hnone i).
      assert (Hi : i ∈ attempts st' symbol market w (active_sources st'))
        by (rewrite Ha; left).
      apply attempts_iff in Hi; [|apply active_sources_sorted].
      tauto. }
    rewrite Heq, Htr.
    assert (Hfound : found st' symbol market w (active_sources st') = None).
    { apply found_none. rewrite Htr. intros i Hi.
      now apply elem_of_nil in Hi. }
    rewrite Hfound.
    assert (Hsame : st'' = st').
    { apply list_eq. intros j. rewrite Hlook, Htr.
      rewrite bool_decide_eq_false_2; [reflexivity|].
      apply not_elem_of_nil. }
    now rewrite Hsame.
  - intros i s Hs Hsup. rewrite Hst', list_lookup_fmap, Hs. simpl.
    f_equal. clear -Hsup. induction (length reqs) as [|n IH]; [reflexivity|].
    rewrite Nat.iter_succ, IH. unfold outage. rewrite Hsup.
    now rewrite andb_false_r.
Qed.

Lemma outage_opens_every_circuit_witness :
  let st := shipped_sources true true (Some "k") None in
  let w : World := fun _ _ _ => Raise TimeoutError in
  let req := ("005930", "KOSPI", w, mkRandom 0 1000000) in
  let st' := serve_all st [req; req; req] in
  Forall within_bounds st /\
  (forall i, ~ eligible st' "KOSPI" i) /\
  st' !! 3%nat = Some (AlphaVantageSource (Some "k") None).
Proof.
  intros st w req st'.
  assert (Hb : Forall within_bounds st).
  { unfold within_bounds. repeat constructor; simpl; lia. }
  assert (Hall : Forall (fun req : string * string * World * Random =>
            req.1.1.2 = "KOSPI" /\
            forall i, fails (req.1.2 i req.1.1.1 "KOSPI") = true)
            [req; req; req]).
  { repeat constructor. }
  assert (Hmax : forall s, s ∈ st -> supports_market s "KOSPI" = true ->
     (max_failures s <= failure_count s + Z.of_nat (length [req; req; req]))%Z).
  { intros s Hs _. unfold st, shipped_sources in Hs.
    repeat (apply elem_of_cons in Hs as [-> | Hs]; [simpl; lia|]).
    now apply elem_of_nil in Hs. }
  destruct (outage_opens_every_circuit st "KOSPI" [req; req; req]
              Hb Hall Hmax) as (H1 & _ & H3).
  split; [exact Hb|]. split; [exact H1|].
  apply H3; reflexivity.
Defined.

End ManagerOutage.

Section ManagerRouting.

Implicit Types (st : list DataSource) (s : DataSource).

(** X6.  With draws inside the ranges asked of the random generator,
    the generated payload is a plausible quote: the six keys in their
    order, the drawn volume, a previous close equal to the base price of
    the market, a positive price within five percent of that base, a
    change rate between -5 and 5, and a positive trading value and
    market capitalisation. *)
Theorem mock_payload_is_plausible (symbol market : string) (rnd : Random) :
  (- (5 / 100) <= uniform rnd <= 5 / 100)%R ->
  (1000000 <= randint rnd <= 10000000)%Z ->
  let base : R :=
    if str_in (upper market) korean_markets then 50000%R else 150%R in
  exists price cap value rate : R,
    _get_mock_data symbol market rnd =
      [ ("current_price", VFloat price); ("market_cap", VFloat cap);
        ("trading_volume", VInt (randint rnd));
        ("trading_value", VFloat value); ("change_rate", VFloat rate);
        ("previous_close", VFloat base) ] /\
    (95 / 100 * base <= price <= 105 / 100 * base)%R /\
    (0 < price)%R /\ (-5 <= rate <= 5)%R /\
    (0 < value)%R /\ (0 < cap)%R.
Proof.
  intros Hu Hv base.
  assert (Hbase : (base = 50000 \/ base = 150)%R).
  { unfold base. destruct (str_in _ _); auto. }
  assert (Hvol : (1000000 <= IZR (randint rnd))%R).
  { apply IZR_le. lia. }
  assert (Heq : (if str_in (upper market) ["KOSPI"; "KOSDAQ"; "KRX"]
                 then 50000%R else 150%R) = base).
  { unfold base, korean_markets, str_in. simpl.
    destruct (String.eqb_spec (upper market) "KOSPI");
      destruct (String.eqb_spec (upper market) "KOSDAQ");
      destruct (String.eqb_spec (upper market) "KRX"); reflexivity. }
  unfold _get_mock_data. rewrite Heq.
  assert (Hpos : (0 < base * (1 + uniform rnd))%R).
  { destruct Hbase as [-> | ->]; lra. }
  assert (Hval : (0 < base * (1 + uniform rnd) * IZR (randint rnd))%R).
  { apply Rmult_lt_0_compat; [exact Hpos | lra]. }
  do 4 eexists. split; [reflexivity|].
  split; [destruct Hbase as [-> | ->]; lra|].
  split; [exact Hpos|].
  split; [|split; [exact Hval | lra]].
  assert ((base * (1 + uniform rnd) - base) / base * 100
          = 100 * uniform rnd)%R as ->
    by (destruct Hbase as [-> | ->]; field).
  lra.
Qed.

Lemma mock_payload_is_plausible_witness :
  exists price : R,
    dict_get (_get_mock_data "005930" "kospi" (mkRandom (1 / 100) 2000000))
             "current_price" = Some (VFloat price) /\
    (47500 <= price <= 52500)%R.
Proof.
  destruct (mock_payload_is_plausible "005930" "kospi"
              (mkRandom (1 / 100) 2000000))
    as (price & cap & value & rate & Heq & Hrange & _).
  - simpl. lra.
  - simpl. lia.
  - exists price. split; [now rewrite Heq|].
    change (str_in (upper "kospi") korean_markets) with true in Hrange.
    lra.
Defined.

(** X7.  Routing by market in the shipped manager, in any state it can
    be in: a request for a market outside KRX/KOSPI/KOSDAQ never invokes
    FinanceDataReader or PyKrx, one outside NASDAQ/NYSE/AMEX never
    invokes AlphaVantage, and YahooFinance, while enabled, is invoked
    first on every request whatever the market. *)
Theorem shipped_routing (fdr pykrx : bool)
    (api_key settings_key : option string) (st : list DataSource)
    (symbol market : string) (w : World) (rnd : Random) :
  same_registry st
    (_register_sources (shipped_sources fdr pykrx api_key settings_key)) ->
  let trace := (fetch_with_fallback st symbol market w rnd).2 in
  (str_in (upper market) korean_markets = false ->
     (1%nat ∉ trace) /\ (2%nat ∉ trace)) /\
  (str_in (upper market) us_markets = false -> 3%nat ∉ trace) /\
  (forall i, i ∈ trace -> (i < 4)%nat) /\
  (forall s, st !! 0%nat = Some s ->
     (enabled s = true <-> exists tr, trace = 0%nat :: tr)).
Proof.
  intros Hreg trace.
  assert (Hsup : forall i s, st !! i = Some s ->
            (i < 4)%nat /\
            (i = 0%nat -> forall m, supports_market s m = true) /\
            (i = 1%nat \/ i = 2%nat ->
               supports_market s market
               = str_in (upper market) korean_markets) /\
            (i = 3%nat ->
               supports_market s market = str_in (upper market) us_markets)).
  { intros i s Hs.
    destruct (Forall2_lookup_l _ _ _ _ _ Hreg Hs)
      as (y & Hy & _ & _ & _ & ->).
    change (_register_sources (shipped_sources fdr pykrx api_key settings_key))
      with (shipped_sources fdr pykrx api_key settings_key) in Hy.
    unfold shipped_sources in Hy.
    destruct i as [|[|[|[|i]]]]; simpl in Hy; try discriminate;
      injection Hy as <-; (split; [lia|]);
      repeat split; intros; try lia; try reflexivity;
      repeat match goal with H : _ \/ _ |- _ => destruct H end;
      try discriminate; reflexivity. }
  assert (Hno : forall i, i ∈ trace ->
            exists s, st !! i = Some s /\ supports_market s market = true).
  { intros i Hi. apply fetch_trace in Hi as [(s & Hs & _ & Hm) _]. eauto. }
  split; [|split; [|split]].
  - intros Hk. split; intros Hi; apply Hno in Hi as (s & Hs & Hm);
      destruct (Hsup _ _ Hs) as (_ & _ & H12 & _);
      rewrite H12 in Hm by auto; congruence.
  - intros Hu Hi. apply Hno in Hi as (s & Hs & Hm).
    destruct (Hsup _ _ Hs) as (_ & _ & _ & H3).
    rewrite H3 in Hm by auto. congruence.
  - intros i Hi. apply Hno in Hi as (s & Hs & _).
    now destruct (Hsup _ _ Hs).
  - intros s Hs. destruct (Hsup _ _ Hs) as (_ & H0 & _).
    assert (Hsorted : StronglySorted lt trace).
    { unfold trace.
      destruct (fetch_with_fallback_spec symbol market w st rnd)
        as (st' & -> & _). simpl.
      apply attempts_sorted, active_sources_sorted. }
    split.
    + intros Hen.
      assert (H0in : 0%nat ∈ trace).
      { apply fetch_trace. split; [|intros j Hj; lia].
        exists s. split; [assumption|]. split; [assumption|]. now apply H0. }
      destruct trace as [|i tr]; [now apply elem_of_nil in H0in|].
      apply elem_of_cons in H0in as [<- | Hin]; [eauto|].
      inversion Hsorted as [|? ? _ Hall]; subst.
      rewrite List.Forall_forall in Hall.
      apply list_elem_of_In in Hin. specialize (Hall _ Hin). lia.
    + intros [tr Htr].
      assert (H0in : 0%nat ∈ trace) by (rewrite Htr; left).
      apply fetch_trace in H0in as [(s' & Hs' & Hen & _) _].
      congruence.
Qed.

Lemma shipped_routing_witness :
  let st := _register_sources (shipped_sources true true (Some "k") None) in
  let w : World := fun _ _ _ => Ok None in
  same_registry st st /\
  3%nat ∉ (fetch_with_fallback st "005930" "KOSDAQ" w (mkRandom 0 1000000)).2.
Proof.
  intros st w.
  assert (Hreg : same_registry st st) by apply same_registry_refl.
  split; [exact Hreg|].
  destruct (shipped_routing true true (Some "k") None st "005930" "KOSDAQ"
              w (mkRandom 0 1000000) Hreg) as (_ & H & _).
  apply H. reflexivity.
Defined.

End ManagerRouting.

(** ** The collector: retries, news sentiment *)

Section Retry.

Import Collector.

Implicit Types (self : DataCollector).

Lemma realtime_fetch_ok sources symbol market (w : World) rnd :
  exists d,
    (fetch_with_fallback sources symbol market w rnd).1.2 = Ok d /\
    Realtime.fetch sources symbol market w rnd
      = fetch_with_fallback sources symbol market w rnd.
Proof.
  destruct (fetch_result sources symbol market w rnd) as [d Hd].
  exists d. split; [exact Hd|].
  unfold Realtime.fetch.
  destruct (fetch_with_fallback sources symbol market w rnd)
    as [[st' r] tr]. simpl in Hd. now rewrite Hd.
Qed.

Lemma retry_loop_first_ok {St A} (call : nat -> St -> St * Res A) self
    attempt todo st last st1 data :
  call attempt st = (st1, Ok data) ->
  retry_loop call self attempt (S todo) st last
    = (st1, inl data, [], 1%nat).
Proof. intros H. simpl. now rewrite H. Qed.

(** X8.  With at least one attempt configured, the retry wrapper of the
    realtime collection makes exactly one call of the fallback manager
    and returns its answer: it never sleeps, never makes a second
    attempt and never raises, because the manager answers every request,
    with generated data if need be. *)
Theorem realtime_retry_is_single_shot (self : DataCollector)
    (sources : list DataSource) (symbol market : string)
    (env : nat -> World * Random) :
  (0 < max_retries self)%Z ->
  let first :=
    fetch_with_fallback sources symbol market (env 0%nat).1 (env 0%nat).2 in
  exists d,
    first.1.2 = Ok d /\
    _fetch_realtime_with_retry self sources symbol market env
      = (first.1.1, Ok d, [], 1%nat).
Proof.
  intros Hpos first.
  destruct (realtime_fetch_ok sources symbol market
              (env 0%nat).1 (env 0%nat).2) as (d & Hd & Hf).
  exists d. split; [exact Hd|].
  unfold _fetch_realtime_with_retry.
  destruct (Z.to_nat (max_retries self)) as [|todo] eqn:Hn; [lia|].
  rewrite (retry_loop_first_ok _ self 0 todo sources None first.1.1 d).
  - reflexivity.
  - rewrite Hf. subst first.
    destruct (fetch_with_fallback _ _ _ _ _) as [[st1 r] tr].
    simpl in *. now rewrite Hd.
Qed.

Lemma realtime_retry_is_single_shot_witness :
  let w : World := fun _ _ _ => Raise TimeoutError in
  let rnd := mkRandom 0 1000000 in
  (0 < max_retries DataCollector_init)%Z /\
  _fetch_realtime_with_retry DataCollector_init
      (shipped_sources true true None None) "005930" "KOSPI"
      (fun _ => (w, rnd))
  = ((fetch_with_fallback (shipped_sources true true None None)
        "005930" "KOSPI" w rnd).1.1,
     Ok (_get_mock_data "005930" "KOSPI" rnd), [], 1%nat).
Proof.
  intros w rnd.
  assert (H : (0 < max_retries DataCollector_init)%Z) by reflexivity.
  split; [exact H|].
  destruct (realtime_retry_is_single_shot DataCollector_init
              (shipped_sources true true None None) "005930" "KOSPI"
              (fun _ => (w, rnd)) H) as (d & Hd & ->).
  simpl in Hd. injection Hd as <-. reflexivity.
Defined.

(** The loop, for a call that leaves the state alone. *)
Lemma retry_loop_spec {A} (fetch : nat -> Res A) self todo :
  forall attempt last,
  (Z.of_nat (attempt + todo) <= Z.max 0 (max_retries self))%Z ->
  (todo = 0%nat \/ Z.of_nat (attempt + todo) = max_retries self) ->
  retry_loop (fun a (st : unit) => (st, fetch a)) self attempt todo tt last
  = match first_ok fetch attempt todo with
    | Some (k, data) =>
        (tt, inl data, backoff self attempt (k - attempt),
         S (k - attempt))
    | None =>
        (tt,
         inr (match todo with
              | O => last
              | S n =>
                  match fetch (attempt + n)%nat with
                  | Raise e => Some e
                  | Ok _ => None
                  end
              end),
         backoff self attempt (todo - 1), todo)
    end.
Proof.
  induction todo as [|todo IH]; intros attempt last Hle Heq.
  - reflexivity.
  - cbn [retry_loop first_ok].
    destruct (fetch attempt) as [data | e] eqn:Hf.
    + rewrite Nat.sub_diag. reflexivity.
    + destruct Heq as [Heq | Heq]; [discriminate|].
      rewrite IH; [|lia|right; lia].
      destruct (first_ok fetch (S attempt) todo)
        as [[k data]|] eqn:Hfirst.
      * assert (Hk : (attempt < k < attempt + S todo)%nat).
        { clear -Hfirst. revert attempt Hfirst.
          induction todo as [|todo IHt]; intros attempt Hfirst;
            [discriminate|].
          simpl in Hfirst.
          destruct (fetch (S attempt)).
          - injection Hfirst as <- _. lia.
          - apply IHt in Hfirst. lia. }
        destruct (Z.ltb_spec (Z.of_nat attempt) (max_retries self - 1));
          [|lia].
        replace (k - attempt)%nat
          with (S (k - S attempt)) by lia.
        reflexivity.
      * destruct todo as [|todo'].
        -- destruct (Z.ltb_spec (Z.of_nat attempt) (max_retries self - 1));
             [lia|].
           simpl. rewrite Nat.add_0_r, Hf. reflexivity.
        -- destruct (Z.ltb_spec (Z.of_nat attempt) (max_retries self - 1));
             [|lia].
           cbn [Nat.sub]. rewrite Nat.sub_0_r.
           replace (S attempt + todo')%nat
             with (attempt + S todo')%nat by lia.
           reflexivity.
Qed.

End Retry.

Section NewsRetry.

Import Collector News.

Context {Article : Type}.

Implicit Types (self : DataCollector) (fetch : nat -> Res (NewsData Article)).

Lemma news_retry_closed_form self fetch :
  _fetch_news_with_retry self fetch =
    match first_ok fetch 0 (Z.to_nat (max_retries self)) with
    | Some (k, data) => (data, backoff self 0 k, S k)
    | None =>
        (mkNewsData unavailable 0 0 None,
         backoff self 0 (Z.to_nat (max_retries self) - 1),
         Z.to_nat (max_retries self))
    end.
Proof.
  unfold _fetch_news_with_retry.
  rewrite retry_loop_spec by lia.
  destruct (first_ok fetch 0 _) as [[k data]|]; [|reflexivity].
  now rewrite Nat.sub_0_r.
Qed.

Lemma first_ok_some {A} (f : nat -> Res A) n : forall a k data,
  (a <= k < a + n)%nat ->
  (forall j, (a <= j < k)%nat -> exists e, f j = Raise e) ->
  f k = Ok data ->
  first_ok f a n = Some (k, data).
Proof.
  induction n as [|n IH]; intros a k data Hk Hfail Hok; [lia|].
  simpl. destruct (Nat.eq_dec a k) as [->|Hne].
  - now rewrite Hok.
  - destruct (Hfail a) as [e ->]; [lia|].
    apply IH; [lia | | assumption].
    intros j Hj. apply Hfail. lia.
Qed.

Lemma first_ok_none {A} (f : nat -> Res A) n : forall a,
  (forall j, (a <= j < a + n)%nat -> exists e, f j = Raise e) ->
  first_ok f a n = None.
Proof.
  induction n as [|n IH]; intros a Hfail; [reflexivity|].
  simpl. destruct (Hfail a) as [e ->]; [lia|].
  apply IH. intros j Hj. apply Hfail. lia.
Qed.

Lemma first_ok_range {A} (f : nat -> Res A) n : forall a k data,
  first_ok f a n = Some (k, data) -> (a <= k < a + n)%nat.
Proof.
  induction n as [|n IH]; intros a k data H; [discriminate|].
  simpl in H. destruct (f a).
  - injection H as <- _. lia.
  - apply IH in H. lia.
Qed.

(** X9.  The retry wrapper of the news collection, for any awaited
    call: the first attempt that does not raise ends the loop with its
    data, after one delay of [retry_delay * 2 ** attempt] per earlier
    attempt; when all [max_retries] attempts raise, the wrapper raises
    nothing and returns the fixed fallback record, having slept after
    every attempt but the last.  With the settings of the constructor
    that is at most three calls and delays of 1 and 2 seconds. *)
Theorem news_retry_backoff (self : DataCollector)
    (fetch : nat -> Res (NewsData Article)) :
  let n := Z.to_nat (max_retries self) in
  (forall k data, (k < n)%nat ->
     (forall j, (j < k)%nat -> exists e, fetch j = Raise e) ->
     fetch k = Ok data ->
     _fetch_news_with_retry self fetch
       = (data, backoff self 0 k, S k)) /\
  ((forall j, (j < n)%nat -> exists e, fetch j = Raise e) ->
     _fetch_news_with_retry self fetch
       = (mkNewsData unavailable 0 0 None, backoff self 0 (n - 1), n)) /\
  (self = DataCollector_init ->
     let '(_, slept, calls) := _fetch_news_with_retry self fetch in
     (calls <= 3)%nat /\
     (slept = [] \/ slept = [1%Z] \/ slept = [1%Z; 2%Z])).
Proof.
  intros n. split; [|split].
  - intros k data Hk Hfail Hok. rewrite news_retry_closed_form.
    fold n. rewrite (first_ok_some fetch n 0 k data); auto; [lia|].
    intros j Hj. apply Hfail. lia.
  - intros Hfail. rewrite news_retry_closed_form. fold n.
    rewrite first_ok_none; [reflexivity|].
    intros j Hj. apply Hfail. lia.
  - intros ->. rewrite news_retry_closed_form.
    change (Z.to_nat (max_retries DataCollector_init)) with 3%nat.
    destruct (first_ok fetch 0 3) as [[k data]|] eqn:Hfirst.
    + apply first_ok_range in Hfirst.
      destruct k as [|[|[|k]]]; try lia; (split; [lia|]); auto.
    + split; [lia|]. auto.
Qed.

(** X10.  With at least one attempt configured, the news wrapper
    around the shipped [fetch_and_analyze] makes exactly one call and
    never sleeps: [fetch_and_analyze] turns every failure of the
    collection into a record of its own, so the wrapper's fallback
    record, the only one without an article list, is never returned. *)
Theorem news_retry_is_single_shot (self : DataCollector)
    (sync : nat -> Res (NewsData Article)) :
  (0 < max_retries self)%Z ->
  let res :=
    _fetch_news_with_retry self (fun a => Ok (fetch_and_analyze (sync a))) in
  res = (fetch_and_analyze (sync 0%nat), [], 1%nat) /\
  (articles res.1.1 = None -> exists d, sync 0%nat = Ok d /\ articles d = None).
Proof.
  intros Hpos res. subst res. rewrite news_retry_closed_form.
  destruct (Z.to_nat (max_retries self)) as [|n] eqn:Hn; [lia|].
  simpl. split; [reflexivity|].
  unfold fetch_and_analyze. destruct (sync 0%nat) as [d|e]; simpl.
  - eauto.
  - discriminate.
Qed.

End NewsRetry.

Lemma news_retry_is_single_shot_witness :
  (0 < Collector.max_retries Collector.DataCollector_init)%Z /\
  Collector._fetch_news_with_retry (Article := unit)
    Collector.DataCollector_init
    (fun a => Ok (News.fetch_and_analyze (Raise TimeoutError)))
  = (News.mkNewsData News.unavailable 0 0 (Some []), [], 1%nat).
Proof.
  assert (H : (0 < Collector.max_retries Collector.DataCollector_init)%Z)
    by reflexivity.
  split; [exact H|].
  exact (proj1 (news_retry_is_single_shot (Article := unit)
                  Collector.DataCollector_init
                  (fun _ => Raise TimeoutError) H)).
Defined.

Section NewsSentiment.

Import News.

Context {Article : Type}.

Implicit Types (polarity : Article -> option R) (arts : list Article).

Lemma sum_app_one (l : list R) (x : R) :
  Ensemble.sum (l ++ [x]) = (Ensemble.sum l + x)%R.
Proof. unfold Ensemble.sum. now rewrite fold_left_app. Qed.

Lemma analyze_fold polarity arts : forall sents pos neg neu,
  let '(sents', pos', neg', neu') :=
    fold_left (analyze_article polarity) arts (sents, pos, neg, neu) in
  sents' = sents ++ omap polarity arts /\
  (pos' + neg' + neu'
   = pos + neg + neu + Z.of_nat (length (omap polarity arts)))%Z /\
  (pos <= pos')%Z /\ (neg <= neg')%Z /\ (neu <= neu')%Z.
Proof.
  induction arts as [|a arts IH]; intros sents pos neg neu.
  - simpl. rewrite app_nil_r. repeat split; lia.
  - cbn [fold_left]. unfold analyze_article at 2.
    cbn [omap list_omap]. destruct (polarity a) as [p|].
    + destruct (Rlt_dec (1 / 10) p); [|destruct (Rlt_dec p (- (1 / 10)))].
      * specialize (IH (sents ++ [p]) (pos + 1)%Z neg neu).
        destruct (fold_left _ arts _) as [[[s1 p1] n1] u1].
        destruct IH as (-> & H & ? & ? & ?).
        rewrite <- app_assoc. cbn [length]. repeat split; try lia; auto.
      * specialize (IH (sents ++ [p]) pos (neg + 1)%Z neu).
        destruct (fold_left _ arts _) as [[[s1 p1] n1] u1].
        destruct IH as (-> & H & ? & ? & ?).
        rewrite <- app_assoc. cbn [length]. repeat split; try lia; auto.
      * specialize (IH (sents ++ [p]) pos neg (neu + 1)%Z).
        destruct (fold_left _ arts _) as [[[s1 p1] n1] u1].
        destruct IH as (-> & H & ? & ? & ?).
        rewrite <- app_assoc. cbn [length]. repeat split; try lia; auto.
    + apply IH.
Qed.

Lemma sum_bounds (l : list R) :
  Forall (fun p => (-1 <= p <= 1)%R) l ->
  (- INR (length l) <= Ensemble.sum l <= INR (length l))%R.
Proof.
  induction l as [|x l IH] using rev_ind; intros Hall.
  - unfold Ensemble.sum. simpl. lra.
  - apply Forall_app in Hall as [Hl Hx].
    inversion Hx as [|? ? Hx' _]; subst.
    rewrite sum_app_one, length_app, plus_INR. simpl.
    specialize (IH Hl). lra.
Qed.

(** X11.  [_analyze_sentiment] never divides by zero, counts every
    analysed article in exactly one of its three classes, and, as long
    as each polarity lies between -1 and 1, returns an average between
    -1 and 1, the range the collected record demands of its sentiment
    score; with nothing analysed the average is 0. *)
Theorem sentiment_average_in_range (polarity : Article -> option R)
    (arts : list Article) :
  (forall a p, a ∈ arts -> polarity a = Some p -> (-1 <= p <= 1)%R) ->
  let r := _analyze_sentiment polarity arts in
  (-1 <= average_score r <= 1)%R /\
  (positive_count r + negative_count r + neutral_count r
   = total_analyzed r)%Z /\
  (0 <= positive_count r)%Z /\ (0 <= negative_count r)%Z /\
  (0 <= neutral_count r)%Z /\
  (total_analyzed r <= Z.of_nat (length arts))%Z /\
  total_analyzed r = Z.of_nat (length (omap polarity arts)) /\
  (total_analyzed r = 0%Z -> average_score r = 0%R).
Proof.
  intros Hrange r. subst r. unfold _analyze_sentiment.
  pose proof (analyze_fold polarity arts [] 0%Z 0%Z 0%Z) as H.
  destruct (fold_left _ arts _) as [[[sents pos] neg] neu].
  destruct H as (Hs & Hc & Hp & Hn & Hu). simpl in Hs. subst sents.
  cbn [average_score positive_count negative_count neutral_count
       total_analyzed].
  assert (Hall : Forall (fun p => (-1 <= p <= 1)%R) (omap polarity arts)).
  { apply Forall_forall. intros p Hp'.
    apply list_elem_of_omap in Hp' as (a & Ha & Hpa). eauto. }
  assert (Hlen : (length (omap polarity arts) <= length arts)%nat).
  { clear. induction arts as [|a arts IH]; [reflexivity|].
    cbn [omap list_omap]. destruct (polarity a); cbn [length]; lia. }
  split; [|repeat split; try lia].
  - destruct (omap polarity arts) as [|p l] eqn:Hl; [lra|].
    pose proof (sum_bounds _ Hall) as Hb.
    assert (Hpos : (0 < INR (length (p :: l)))%R)
      by (apply lt_0_INR; simpl; lia).
    set (n := INR (length (p :: l))) in *.
    set (s := Ensemble.sum (p :: l)) in *.
    assert (Hq : (s / n * n = s)%R) by (field; lra).
    revert Hq. generalize (s / n)%R. intros q Hq. split; nra.
  - intros H0. destruct (omap polarity arts); [reflexivity|].
    simpl in H0. lia.
Qed.

End NewsSentiment.

Lemma sentiment_average_in_range_witness :
  let polarity : nat -> option R :=
    fun a => match a with
             | 0%nat => Some (1 / 2)%R
             | 1%nat => None
             | _ => Some (- (1 / 4))%R
             end in
  News.total_analyzed (News._analyze_sentiment polarity [0; 1; 2]%nat) = 2%Z /\
  (-1 <= News.average_score
           (News._analyze_sentiment polarity [0; 1; 2]%nat) <= 1)%R.
Proof.
  intros polarity.
  assert (H : forall a p, a ∈ [0; 1; 2]%nat -> polarity a = Some p ->
                          (-1 <= p <= 1)%R).
  { intros a p Ha Hp.
    repeat (apply elem_of_cons in Ha as [-> | Ha];
            [simpl in Hp; try discriminate; injection Hp as <-; lra|]).
    now apply elem_of_nil in Ha. }
  destruct (sentiment_average_in_range polarity [0; 1; 2]%nat H)
    as (Hr & _ & _ & _ & _ & _ & Ht & _).
  split; [exact Ht | exact Hr].
Defined.

(** ** The registry of predictors *)

Section RegistryProps.

Import Predictor Registry.

Implicit Types (env : Env) (prompts : gmap string string) (w : Predictor.World).

Lemma register_elem key built (P : gset string) k :
  k ∈ register key built P <-> (k = key /\ built = Ok true) \/ k ∈ P.
Proof.
  unfold register. destruct built as [[|]|e].
  - rewrite elem_of_union, elem_of_singleton. intuition.
  - intuition congruence.
  - intuition congruence.
Qed.

Lemma init_predictors_elem env k :
  k ∈ _init_predictors env <->
    k = "Ollama" \/
    (k = "GPT" /\ OpenAIPredictor env = Ok true) \/
    (k = "Gemini" /\ GooglePredictor env = Ok true) \/
    (k = "Claude" /\ AnthropicPredictor env = Ok true).
Proof.
  unfold _init_predictors.
  rewrite elem_of_union, elem_of_singleton, !register_elem.
  rewrite elem_of_empty. tauto.
Qed.

Lemma OpenAIPredictor_true env :
  OpenAIPredictor env = Ok true <->
  str_bool (openai_api_key env) = true /\ AsyncOpenAI env = true.
Proof.
  unfold OpenAIPredictor.
  replace (str_or None (openai_api_key env)) with (openai_api_key env)
    by reflexivity.
  destruct (str_bool (openai_api_key env)), (AsyncOpenAI env); simpl;
    split; intros H; try discriminate; try (destruct H; discriminate); auto.
Qed.

Lemma GooglePredictor_true env :
  GooglePredictor env = Ok true <->
  GOOGLE_AI_AVAILABLE env = true /\
  str_bool (google_api_key env) = true /\ GenerativeModel env = true.
Proof.
  unfold GooglePredictor.
  replace (str_or None (google_api_key env)) with (google_api_key env)
    by reflexivity.
  destruct (GOOGLE_AI_AVAILABLE env), (str_bool (google_api_key env)),
    (GenerativeModel env); simpl;
    split; intros H; try discriminate;
    try (destruct H as (? & ? & ?); discriminate); auto.
Qed.

Lemma AnthropicPredictor_true env :
  AnthropicPredictor env = Ok true <->
  ANTHROPIC_AVAILABLE env = true /\
  str_bool (anthropic_api_key env) = true /\ AsyncAnthropic env = true.
Proof.
  unfold AnthropicPredictor.
  replace (str_or None (anthropic_api_key env))
    with (anthropic_api_key env) by reflexivity.
  destruct (ANTHROPIC_AVAILABLE env), (str_bool (anthropic_api_key env)),
    (AsyncAnthropic env); simpl;
    split; intros H; try discriminate;
    try (destruct H as (? & ? & ?); discriminate); auto.
Qed.

Lemma route_key key pk mn :
  In (key, pk, mn) routes ->
  (mn = "GPT-5.2" -> key = "GPT" /\ pk = "gpt") /\
  (mn = "Gemini 3.0" -> key = "Gemini" /\ pk = "gemini") /\
  (mn = "Claude 4.5" -> key = "Claude" /\ pk = "claude") /\
  (mn = "Gemma" -> key = "Ollama" /\ pk = "gemma") /\
  (mn = "Qwen" -> key = "Ollama" /\ pk = "qwen").
Proof.
  unfold routes. simpl.
  intros [H|[H|[H|[H|[H|[]]]]]]; injection H as <- <- <-;
    repeat split; intros; try discriminate; reflexivity.
Qed.

Lemma predict_all_dispatched (P : gset string) prompts w :
  exists result,
    predict_all P prompts w = Ok result /\
    (forall key pk mn prompt,
       In (key, pk, mn) routes -> key ∈ P -> prompts !! pk = Some prompt ->
       result !! mn = Some (stored (_safe_predict w mn prompt))) /\
    (forall mn,
       (forall key pk, In (key, pk, mn) routes ->
                       key ∉ P \/ prompts !! pk = None) ->
       result !! mn = None).
Proof.
  destruct (predict_all_lookup P prompts w) as (result & Hres & Hlook).
  exists result. split; [exact Hres|]. split.
  - intros key pk mn prompt Hroute Hkey Hp. rewrite Hlook.
    rewrite (dict_get_NoDup _ mn (_safe_predict w mn prompt)).
    + reflexivity.
    + apply entries_NoDup.
    + apply entries_spec. exists prompt. split; [|reflexivity].
      exists key, pk. auto.
  - intros mn Hno. rewrite Hlook.
    destruct (dict_get (entries P prompts w) mn) as [r|] eqn:Hd;
      [|reflexivity].
    apply dict_get_in, entries_spec in Hd
      as (prompt & (key & pk & Hroute & Hkey & Hp) & _).
    destruct (Hno key pk Hroute) as [H | H]; [contradiction | congruence].
Qed.

(** X12.  The registry [_init_predictors] builds always holds the local
    Ollama predictor, and holds a hosted one only if its API key is
    configured (and, for Gemini and Claude, its library was imported).
    So every [predict_all] on it calls Gemma and Qwen whenever the
    request has their prompts, recording each outcome under the model's
    display name, and never reports a hosted model whose key is
    missing. *)
Theorem registry_always_has_local_models (env : Env)
    (prompts : gmap string string) (w : Predictor.World) :
  let P := _init_predictors env in
  "Ollama" ∈ P /\
  ("GPT" ∈ P <->
     str_bool (openai_api_key env) = true /\ AsyncOpenAI env = true) /\
  ("Gemini" ∈ P <->
     GOOGLE_AI_AVAILABLE env = true /\
     str_bool (google_api_key env) = true /\ GenerativeModel env = true) /\
  ("Claude" ∈ P <->
     ANTHROPIC_AVAILABLE env = true /\
     str_bool (anthropic_api_key env) = true /\ AsyncAnthropic env = true) /\
  (forall k, k ∈ P -> k ∈ ["GPT"; "Gemini"; "Claude"; "Ollama"]) /\
  exists result,
    predict_all P prompts w = Ok result /\
    (forall prompt, prompts !! "gemma" = Some prompt ->
       result !! "Gemma" = Some (stored (_safe_predict w "Gemma" prompt))) /\
    (forall prompt, prompts !! "qwen" = Some prompt ->
       result !! "Qwen" = Some (stored (_safe_predict w "Qwen" prompt))) /\
    (str_bool (openai_api_key env) = false -> result !! "GPT-5.2" = None) /\
    (str_bool (google_api_key env) = false ->
       result !! "Gemini 3.0" = None) /\
    (str_bool (anthropic_api_key env) = false ->
       result !! "Claude 4.5" = None).
Proof.
  intros P.
  assert (Hgpt : "GPT" ∈ P <->
     str_bool (openai_api_key env) = true /\ AsyncOpenAI env = true).
  { unfold P. rewrite init_predictors_elem, OpenAIPredictor_true.
    split; [|auto].
    intros [H | [[_ H] | [[H _] | [H _]]]]; [discriminate | exact H |..];
      discriminate. }
  assert (Hgem : "Gemini" ∈ P <->
     GOOGLE_AI_AVAILABLE env = true /\
     str_bool (google_api_key env) = true /\ GenerativeModel env = true).
  { unfold P. rewrite init_predictors_elem, GooglePredictor_true.
    split; [|auto].
    intros [H | [[H _] | [[_ H] | [H _]]]]; [discriminate.. | exact H |];
      discriminate. }
  assert (Hcla : "Claude" ∈ P <->
     ANTHROPIC_AVAILABLE env = true /\
     str_bool (anthropic_api_key env) = true /\ AsyncAnthropic env = true).
  { unfold P. rewrite init_predictors_elem, AnthropicPredictor_true.
    split; [|auto 6].
    intros [H | [[H _] | [[H _] | [_ H]]]]; [discriminate.. | exact H]. }
  assert (Holl : "Ollama" ∈ P).
  { unfold P. apply init_predictors_elem. now left. }
  split; [exact Holl|]. split; [exact Hgpt|]. split; [exact Hgem|].
  split; [exact Hcla|]. split.
  { intros k Hk. apply init_predictors_elem in Hk.
    destruct Hk as [-> | [[-> _] | [[-> _] | [-> _]]]];
      repeat first [apply list_elem_of_here | apply list_elem_of_further]. }
  destruct (predict_all_dispatched P prompts w) as (result & Hres & Hyes & Hno).
  exists result. split; [exact Hres|].
  split; [|split; [|split; [|split]]].
  - intros prompt Hp. apply (Hyes "Ollama" "gemma"); auto.
    unfold routes. simpl. auto 6.
  - intros prompt Hp. apply (Hyes "Ollama" "qwen"); auto.
    unfold routes. simpl. auto 6.
  - intros Hk. apply Hno. intros key pk Hroute.
    destruct (route_key _ _ _ Hroute) as (H & _).
    destruct (H eq_refl) as [-> ->]. left. rewrite Hgpt, Hk.
    intros [? _]. discriminate.
  - intros Hk. apply Hno. intros key pk Hroute.
    destruct (route_key _ _ _ Hroute) as (_ & H & _).
    destruct (H eq_refl) as [-> ->]. left. rewrite Hgem, Hk.
    intros (_ & ? & _). discriminate.
  - intros Hk. apply Hno. intros key pk Hroute.
    destruct (route_key _ _ _ Hroute) as (_ & _ & H & _).
    destruct (H eq_refl) as [-> ->]. left. rewrite Hcla, Hk.
    intros (_ & ? & _). discriminate.
Qed.

End RegistryProps.

(** ** The ensemble engine: queries, shape and order *)

Section EngineQueries.

Import Ensemble Engine.

Local Open Scope R_scope.

Implicit Types (preds : list (string * ModelPrediction)) (h : string).

Lemma gather_field_fold {A} (field : PeriodPrediction -> A) preds h :
  forall acc,
  fold_left
    (fun acc (model_pred : ModelPrediction) =>
       if success model_pred then
         match dict_get (predictions model_pred) h with
         | Some p => acc ++ [field p]
         | None => acc
         end
       else acc)
    (map snd preds) acc
  = acc ++ map field (collected (valid_of preds) h).
Proof.
  induction preds as [|[n m] preds IH]; intros acc.
  - simpl. now rewrite app_nil_r.
  - cbn [map snd fold_left]. rewrite IH.
    change (valid_of ((n, m) :: preds))
      with (if is_valid m then (n, m) :: valid_of preds else valid_of preds).
    unfold is_valid. destruct (success m); cbn [andb]; [|reflexivity].
    destruct (dict_get (predictions m) h) as [p|] eqn:Hd.
    + destruct (predictions m) as [|kv ps] eqn:Hp; [discriminate|].
      cbn [collected]. rewrite Hp, Hd. cbn [map].
      now rewrite <- app_assoc.
    + destruct (predictions m) as [|kv ps] eqn:Hp; [reflexivity|].
      cbn [collected]. rewrite Hp, Hd. reflexivity.
Qed.

Lemma gather_field_collected {A} (field : PeriodPrediction -> A) preds h :
  gather_field field preds h = map field (collected (valid_of preds) h).
Proof. unfold gather_field. now rewrite gather_field_fold. Qed.

Lemma sentiment_value_inj (a b : SentimentType) :
  sentiment_value a = sentiment_value b -> a = b.
Proof. destruct a, b; simpl; intros H; try reflexivity; discriminate H. Qed.

(** X14.  [calculate_consensus] never raises and always returns one of
    the three sentiment values: "중립" when no successful model has an
    opinion on the horizon, a sentiment some successful model voted for
    otherwise, and, on every horizon of a computed ensemble, the value
    of the sentiment the ensemble carries. *)
Theorem calculate_consensus_agrees_with_ensemble (thr : R)
    (preds : list (string * ModelPrediction)) (h : string) :
  (exists v, calculate_consensus preds h = Ok (sentiment_value v) /\
     (collected (valid_of preds) h = [] -> v = NEUTRAL) /\
     (collected (valid_of preds) h <> [] ->
        exists p, p ∈ collected (valid_of preds) h /\ sentiment p = v)) /\
  (forall ens e, calculate_ensemble thr preds = Ok ens ->
     dict_get ens h = Some e ->
     calculate_consensus preds h = Ok (sentiment_value (sentiment e))).
Proof.
  assert (Hval : forall x xs,
            map sentiment (collected (valid_of preds) h) = x :: xs ->
            exists v, _vote_sentiment (x :: xs) = Ok v /\
                      calculate_consensus preds h = Ok (sentiment_value v) /\
                      v ∈ x :: xs).
  { intros x xs Heq.
    destruct (vote_spec (x :: xs)) as (v & Hv & Hin & _); [discriminate|].
    exists v. split; [exact Hv|]. split; [|exact Hin].
    unfold calculate_consensus. rewrite gather_field_collected, Heq.
    now rewrite Hv. }
  split.
  - destruct (map sentiment (collected (valid_of preds) h)) as [|x xs] eqn:Hs.
    + exists NEUTRAL. split; [|split].
      * unfold calculate_consensus. now rewrite gather_field_collected, Hs.
      * reflexivity.
      * intros Hne. apply map_eq_nil in Hs. contradiction.
    + destruct (Hval x xs eq_refl) as (v & _ & Hc & Hin).
      exists v. split; [exact Hc|]. split.
      * intros Hnil. rewrite Hnil in Hs. discriminate.
      * intros _. rewrite <- Hs in Hin.
        apply list_elem_of_fmap in Hin as (p & -> & Hp). eauto.
  - intros ens e Hens He.
    destruct (calculate_ensemble_ok _ _ _ Hens) as (_ & Hget & _).
    apply Hget in He as [_ Hp].
    destruct (period_ok _ _ _ _ Hp) as (Hne & _ & _ & _ & _ & Hv & _).
    destruct (map sentiment (collected (valid_of preds) h)) as [|x xs] eqn:Hs.
    + apply map_eq_nil in Hs. contradiction.
    + destruct (Hval x xs eq_refl) as (v & Hv' & Hc & _).
      rewrite Hc. congruence.
Qed.

End EngineQueries.

Section EngineResult.

Import Ensemble Result.

Local Open Scope R_scope.

Implicit Types (preds : list (string * ModelPrediction)) (h : string).

Lemma has_required_periods_spec {V} (d : list (string * V)) :
  has_required_periods d = true <->
  forall h, h ∈ horizons -> dict_get d h <> None.
Proof.
  unfold has_required_periods, required_periods, horizons.
  rewrite forallb_forall. split.
  - intros H h Hh. apply list_elem_of_In in Hh. specialize (H h Hh).
    destruct (dict_get d h); [discriminate | discriminate H].
  - intros H h Hh. apply list_elem_of_In in Hh. specialize (H h Hh).
    destruct (dict_get d h); [reflexivity | contradiction].
Qed.

(** X15.  A computed ensemble passes [PredictionResult.validate_ensemble]
    exactly when every one of the three horizons had an opinion from
    some valid model: the engine returns a partial ensemble for a
    horizon nobody predicted, and the result model rejects it. *)
Theorem partial_ensemble_is_rejected (thr : R)
    (preds : list (string * ModelPrediction))
    (ens : list (string * EnsemblePrediction)) :
  calculate_ensemble thr preds = Ok ens ->
  (validate_ensemble ens = Ok ens <->
     forall h, h ∈ horizons -> collected (valid_of preds) h <> []) /\
  (forall h, h ∈ horizons -> collected (valid_of preds) h = [] ->
     exists msg, validate_ensemble ens = Raise (ValueError msg)).
Proof.
  intros Hens.
  destruct (calculate_ensemble_ok _ _ _ Hens) as (_ & _ & Hnone).
  assert (Hreq : has_required_periods ens = true <->
            forall h, h ∈ horizons -> collected (valid_of preds) h <> []).
  { rewrite has_required_periods_spec. split; intros H h Hh.
    - rewrite <- (Hnone h Hh). auto.
    - rewrite (Hnone h Hh). auto. }
  unfold validate_ensemble. split.
  - destruct (has_required_periods ens) eqn:Hr; simpl.
    + split; [intros _; now apply Hreq | reflexivity].
    + split; [discriminate|]. intros H. apply Hreq in H. discriminate.
  - intros h Hh Hnil.
    destruct (has_required_periods ens) eqn:Hr; simpl; [|eauto].
    exfalso. destruct Hreq as [Hreq _]. now apply (Hreq eq_refl h Hh).
Qed.

Lemma partial_ensemble_is_rejected_witness :
  exists ens msg,
    calculate_ensemble default_threshold three_models = Ok ens /\
    validate_ensemble ens = Raise (ValueError msg).
Proof.
  assert (Hh : "1w" ∈ horizons)
    by (unfold horizons; apply list_elem_of_further, list_elem_of_here).
  assert (Hnil : collected (valid_of three_models) "1w" = [])
    by reflexivity.
  destruct (proj2 (partial_ensemble_is_rejected default_threshold
                     three_models _ three_models_result) "1w" Hh Hnil)
    as [msg Hmsg].
  eexists. exists msg. split; [exact three_models_result | exact Hmsg].
Defined.

End EngineResult.

Section EngineShape.

Import Ensemble.

Local Open Scope R_scope.

Implicit Types (preds : list (string * ModelPrediction)) (h : string).

Lemma validate_reason_nonempty r r' :
  validate_reason r = Ok r' -> r' <> EmptyString.
Proof.
  unfold validate_reason. destruct r; [discriminate|].
  destruct (strip _) eqn:Hs; [discriminate|].
  intros [= <-]. discriminate.
Qed.

(** X17.  Only the valid predictions count: two inputs with the same
    predictions left by the filter ([success] set and at least one
    horizon), neither input empty, give the same ensemble or the same
    error, and the same answers of [detect_disagreement] and
    [calculate_consensus] on every horizon.  Failed models can be added
    or removed at will. *)
Theorem failed_models_have_no_influence (thr : R)
    (preds preds' : list (string * ModelPrediction)) :
  preds <> [] -> preds' <> [] ->
  valid_of preds = valid_of preds' ->
  calculate_ensemble thr preds = calculate_ensemble thr preds' /\
  forall h,
    Engine.detect_disagreement thr preds h
    = Engine.detect_disagreement thr preds' h /\
    Engine.calculate_consensus preds h = Engine.calculate_consensus preds' h.
Proof.
  intros Hne Hne' Hv. split.
  - unfold calculate_ensemble.
    fold (valid_of preds). fold (valid_of preds'). rewrite Hv.
    destruct preds; [congruence|]. destruct preds'; [congruence|].
    reflexivity.
  - intros h.
    unfold Engine.detect_disagreement, Engine.calculate_consensus.
    now rewrite !gather_field_collected, Hv.
Qed.

Lemma failed_models_have_no_influence_witness :
  let failed :=
    ("model4", mkModelPrediction "model4"
                 [("1d", mkPeriodPrediction 1 "실패" NEUTRAL)] false) in
  calculate_ensemble default_threshold (failed :: three_models)
  = calculate_ensemble default_threshold three_models.
Proof.
  intros failed.
  apply (failed_models_have_no_influence default_threshold
           (failed :: three_models) three_models);
    [discriminate | discriminate | reflexivity].
Defined.

End EngineShape.

Section EngineVote.

Import Ensemble.

Implicit Types (l : list SentimentType) (v u : SentimentType).

Lemma votes_two l v u : v <> u -> (votes v l + votes u l <= length l)%nat.
Proof.
  intros Hne. unfold votes. induction l as [|x l IH]; simpl; [lia|].
  destruct (SentimentType_eq_dec x v), (SentimentType_eq_dec x u);
    subst; try congruence; lia.
Qed.

(** X18.  A sentiment held by more than half of the opinions wins the
    vote, wherever its votes stand in the list; in particular a
    unanimous list returns its sentiment. *)
Theorem strict_majority_wins (l : list SentimentType) (v : SentimentType) :
  (length l < 2 * votes v l)%nat -> _vote_sentiment l = Ok v.
Proof.
  intros Hmaj.
  assert (Hne : l <> []) by (intros ->; simpl in Hmaj; lia).
  destruct (vote_spec l Hne) as (w & Hw & _ & Hmax & _).
  destruct (decide (w = v)) as [->|Hwv]; [exact Hw|].
  pose proof (Hmax v). pose proof (votes_two l w v Hwv). lia.
Qed.

Lemma strict_majority_wins_witness :
  _vote_sentiment [NEGATIVE; POSITIVE; NEUTRAL; POSITIVE; POSITIVE]
  = Ok POSITIVE.
Proof.
  apply strict_majority_wins. vm_compute. lia.
Defined.

End EngineVote.

Section EngineSingle.

Import Ensemble.

Local Open Scope R_scope.

Implicit Types (preds : list (string * ModelPrediction)) (h : string).

Lemma round_half_even_nonpos (y : R) : y <= 0 -> (round_half_even y <= 0)%Z.
Proof.
  intros Hy. unfold round_half_even.
  pose proof (Zfloor_bound y) as [Hlo Hhi].
  assert (Hf : (Zfloor y <= 0)%Z).
  { apply le_IZR. lra. }
  destruct (Rlt_dec (y - IZR (Zfloor y)) (1 / 2)) as [Hd | Hd]; [exact Hf|].
  assert (Hneg : (Zfloor y <= -1)%Z).
  { destruct (Z.eq_dec (Zfloor y) 0%Z) as [H0 | H0]; [|lia].
    rewrite H0 in Hd, Hlo. simpl in Hd, Hlo. lra. }
  destruct (Rlt_dec (1 / 2) (y - IZR (Zfloor y))); [lia|].
  destruct (Z.even (Zfloor y)); lia.
Qed.

Lemma round2_pos (x : R) : 0 < round2 x -> 0 < x.
Proof.
  unfold round2. intros H.
  destruct (Rlt_dec 0 x) as [Hx | Hx]; [exact Hx|].
  assert (Hr : (round_half_even (x * 100) <= 0)%Z)
    by (apply round_half_even_nonpos; lra).
  apply IZR_le in Hr. lra.
Qed.

Lemma combine_reasons_one (r : string) : _combine_reasons [r] = r.
Proof.
  unfold _combine_reasons. cbn [fold_left].
  rewrite bool_decide_eq_false_2 by set_solver.
  cbn [fst snd app length Nat.ltb Nat.leb String.concat]. reflexivity.
Qed.

Lemma validate_reason_strip r r' : validate_reason r = Ok r' -> r' = strip r.
Proof.
  unfold validate_reason. destruct r; [discriminate|].
  destruct (strip _); [discriminate|]. now intros [= <-].
Qed.

(** X19.  A horizon on which a single valid model has an opinion: the
    ensemble passes that opinion through, with the price rounded to
    hundredths, the reason stripped, the same sentiment and a deviation
    of zero; the disagreement flag is then set exactly when the
    configured threshold is negative. *)
Theorem single_opinion_is_passed_through (thr : R)
    (preds : list (string * ModelPrediction))
    (ens : list (string * EnsemblePrediction)) (h : string)
    (e : EnsemblePrediction) (p : PeriodPrediction) :
  calculate_ensemble thr preds = Ok ens ->
  dict_get ens h = Some e ->
  collected (valid_of preds) h = [p] ->
  price e = round2 (price p) /\ std_dev e = 0 /\
  sentiment e = sentiment p /\ reason e = strip (reason p) /\
  disagreement e = (if Rlt_dec thr 0 then true else false).
Proof.
  intros Hens He Hc.
  destruct (calculate_ensemble_ok _ _ _ Hens) as (_ & Hget & _).
  apply Hget in He as [_ Hp].
  destruct (period_ok _ _ _ _ Hp) as (_ & Hpos & Hprice & Hstd & Hd & Hv & Hr).
  rewrite Hc in *. cbn [map] in *.
  assert (Hmean : mean [price p] = price p).
  { unfold mean. simpl. field. }
  rewrite Hmean in *.
  split; [exact Hprice|]. split; [|split; [|split]].
  - rewrite Hstd. unfold unrounded_std. simpl. apply round2_0.
  - destruct (vote_spec [sentiment p]) as (v & Hv' & Hin & _);
      [discriminate|].
    apply list_elem_of_singleton in Hin. congruence.
  - rewrite combine_reasons_one in Hr. now apply validate_reason_strip.
  - rewrite Hd. unfold disagrees, unrounded_std. rewrite Hmean. simpl.
    apply round2_pos in Hpos.
    destruct (Rlt_dec 0 (price p)); [|contradiction].
    assert (H0 : 0 / price p = 0) by (field; lra).
    rewrite H0. reflexivity.
Qed.

Lemma solo_result :
  calculate_ensemble default_threshold solo =
    Ok [("1d", mkEnsemblePrediction
                 (mkPeriodPrediction (1235 / 100) "단독 의견" POSITIVE)
                 false 0)].
Proof.
  rewrite aggregate_one_day; try reflexivity; [|discriminate].
  destruct (period_some default_threshold solo "1d"
              (mkPeriodPrediction (12346 / 1000) "  단독 의견 " POSITIVE)
              [] eq_refl) as (v & Hv & ->).
  vm_compute in Hv. injection Hv as <-.
  cbn [map price reason].
  assert (Hm : mean [12346 / 1000] = 12346 / 1000)
    by (unfold mean; simpl; field).
  assert (Hs : unrounded_std [12346 / 1000] = 0) by reflexivity.
  assert (Hd : disagrees default_threshold [12346 / 1000] = false).
  { unfold disagrees, default_threshold. rewrite Hm, Hs.
    destruct (Rlt_dec 0 (12346 / 1000)); [|reflexivity].
    destruct (Rlt_dec (2 / 10) (0 / (12346 / 1000))); [lra | reflexivity]. }
  rewrite Hm, Hs, Hd.
  rewrite (round2_near (12346 / 1000) 1235) by lra.
  rewrite round2_0, combine_reasons_one.
  replace (IZR 1235 / 100) with (1235 / 100) by lra.
  rewrite (EnsemblePrediction_new_value _ _ "단독 의견");
    [reflexivity | lra | lra | vm_compute; reflexivity].
Qed.

Lemma single_opinion_is_passed_through_witness :
  exists ens e p,
    calculate_ensemble default_threshold solo = Ok ens /\
    dict_get ens "1d" = Some e /\
    collected (valid_of solo) "1d" = [p] /\
    std_dev e = 0 /\ sentiment e = sentiment p.
Proof.
  eexists. eexists. eexists.
  split; [exact solo_result|]. split; [reflexivity|].
  split; [reflexivity|].
  pose proof (single_opinion_is_passed_through default_threshold
                solo _ "1d" _ _ solo_result eq_refl eq_refl)
    as (_ & Hs & Hv & _).
  split; [exact Hs | exact Hv].
Defined.

End EngineSingle.

(** ** Binary64 *)

Section Binary64Facts.

Import Binary64 Spec64.

Implicit Types (x y : float).

Lemma Prim2SF_zero : Prim2SF 0%float = S754_zero false.
Proof. reflexivity. Qed.

(** A float above zero is a positive finite number or plus infinity. *)
Lemma ltb_0_inv x :
  PrimFloat.ltb 0 x = true ->
  Prim2SF x = S754_infinity false \/
  exists m e, Prim2SF x = S754_finite false m e.
Proof.
  rewrite FloatAxioms.ltb_spec, Prim2SF_zero.
  destruct (Prim2SF x) as [s|s| |s m e]; try destruct s; try discriminate;
    eauto.
Qed.

Lemma ltb_0_nonzero x :
  PrimFloat.ltb 0 x = true -> PrimFloat.eqb x 0 = false.
Proof.
  intros H. rewrite FloatAxioms.eqb_spec, Prim2SF_zero.
  destruct (ltb_0_inv x H) as [-> | (m & e & ->)]; reflexivity.
Qed.

Lemma truediv_pos x y :
  PrimFloat.ltb 0 y = true -> truediv x y = Ok (PrimFloat.div x y).
Proof. intros H. unfold truediv. now rewrite ltb_0_nonzero. Qed.

Lemma truediv_int_pos x (n : nat) :
  (0 < n)%nat ->
  truediv_int x (Z.of_nat n)
  = Ok (PrimFloat.div x (float_of_int (Z.of_nat n))).
Proof.
  intros Hn. unfold truediv_int.
  destruct (Z.eqb_spec (Z.of_nat n) 0); [lia | reflexivity].
Qed.


(** The sign of a rounded float. *)
Lemma ltb_0_opp_abs x : PrimFloat.ltb 0 (PrimFloat.opp (PrimFloat.abs x)) = false.
Proof.
  rewrite FloatAxioms.ltb_spec, FloatAxioms.opp_spec, FloatAxioms.abs_spec, Prim2SF_zero.
  now destruct (Prim2SF x) as [s|s| |s m e].
Qed.

Lemma decimal_0 : decimal 0 = 0%float.
Proof. reflexivity. Qed.

Lemma round_div_nonneg (a b : Z) : (0 <= a)%Z -> (0 < b)%Z -> (0 <= round_div a b)%Z.
Proof.
  intros Ha Hb. unfold round_div.
  assert (0 <= a / b)%Z by (apply Z.div_pos; lia).
  destruct (2 * (a mod b) <? b)%Z; [lia|].
  destruct (b <? 2 * (a mod b))%Z; [lia|].
  destruct (Z.even (a / b)); lia.
Qed.

Lemma hundredths_of_nonneg (m : positive) (e : Z) : (0 <= hundredths_of m e)%Z.
Proof.
  unfold hundredths_of. destruct (0 <=? e)%Z eqn:He.
  - apply Z.leb_le in He. apply Z.mul_nonneg_nonneg; [lia|].
    apply Z.pow_nonneg. lia.
  - apply round_div_nonneg; [lia|]. apply Z.pow_pos_nonneg; lia.
Qed.

(** What [round2] returns: an infinity, a nan or a zero as it is, and a
    number of hundredths otherwise. *)
Lemma round2_cases x :
  (round2 x = x /\
   match Prim2SF x with S754_finite _ _ _ => False | _ => True end) \/
  exists s m e,
    Prim2SF x = S754_finite s m e /\
    round2 x = (if s then PrimFloat.opp (decimal (hundredths_of m e))
                else decimal (hundredths_of m e)).
Proof.
  unfold round2. destruct (Prim2SF x) as [s|s| |s m e] eqn:Hx; eauto 10.
Qed.

Lemma round2_pos64 x :
  PrimFloat.ltb 0 (round2 x) = true -> PrimFloat.ltb 0 x = true.
Proof.
  destruct (round2_cases x) as [[-> _] | (s & m & e & Hx & ->)]; [auto|].
  destruct s.
  - unfold decimal. now rewrite ltb_0_opp_abs.
  - intros _. now rewrite FloatAxioms.ltb_spec, Hx.
Qed.

(** A rounded float above zero is plus infinity or a positive number of
    hundredths. *)
Lemma round2_pos_form x :
  PrimFloat.ltb 0 (round2 x) = true ->
  round2 x = infinity \/
  exists k, (0 < k)%Z /\ round2 x = decimal k.
Proof.
  intros H.
  destruct (round2_cases x) as [[Heq Hx] | (s & m & e & Hx & Heq)].
  - rewrite Heq in *. destruct (ltb_0_inv x H) as [Hi | (m & e & Hf)].
    + left. now rewrite <- (SF2Prim_Prim2SF x), Hi.
    + now rewrite Hf in Hx.
  - rewrite Heq in *. destruct s.
    + unfold decimal in H. now rewrite ltb_0_opp_abs in H.
    + right. exists (hundredths_of m e). split; [|reflexivity].
      pose proof (hundredths_of_nonneg m e) as Hk.
      destruct (Z.eq_dec (hundredths_of m e) 0%Z) as [H0|]; [|lia].
      rewrite H0, decimal_0 in H. discriminate.
Qed.

End Binary64Facts.

(** ** The sample deviation of [statistics] *)

Section Statistics.

Import Binary64 Spec64.

Local Open Scope Q_scope.

Lemma exact_ratios_values (xs : list float) (qs : list Q) :
  exact_ratios xs = Some qs -> qs = map value xs /\ forallb finite xs = true.
Proof.
  revert qs. induction xs as [|x xs IH]; intros qs; simpl.
  - now intros [= <-].
  - unfold value, finite.
    destruct (as_integer_ratio x) as [q|]; [|discriminate].
    destruct (exact_ratios xs) as [qs'|]; [|discriminate].
    intros [= <-]. destruct (IH qs' eq_refl) as [-> Hfin].
    split; [reflexivity | exact Hfin].
Qed.

Lemma exact_ratios_finite (xs : list float) :
  forallb finite xs = true -> exact_ratios xs = Some (map value xs).
Proof.
  induction xs as [|x xs IH]; simpl; [reflexivity|].
  unfold finite at 1, value at 1.
  destruct (as_integer_ratio x) as [q|]; [|discriminate].
  simpl. intros H. now rewrite IH.
Qed.

Lemma fraction_sum_fold (qs : list Q) : forall a,
  fold_left (fun acc q => Qred (acc + q)) qs a == a + total qs.
Proof.
  induction qs as [|q qs IH]; intros a; simpl.
  - ring.
  - rewrite IH, Qred_correct. ring.
Qed.

Lemma fraction_sum_total (qs : list Q) : fraction_sum qs == total qs.
Proof. unfold fraction_sum. rewrite fraction_sum_fold. ring. Qed.

Lemma total_squares (mu : Q) (qs : list Q) :
  total (map (fun q => (q - mu) * (q - mu)) qs)
  == total (map (fun q => q * q) qs) - 2 * mu * total qs
     + inject_Z (Z.of_nat (length qs)) * mu * mu.
Proof.
  induction qs as [|q qs IH].
  - simpl. ring.
  - cbn [map total length]. rewrite IH.
    rewrite Nat2Z.inj_succ, <- Z.add_1_r, inject_Z_plus. ring.
Qed.

(** The fraction whose root [stdev] takes is the sample variance. *)
Lemma stdev_variance (xs : list float) :
  (1 < length xs)%nat ->
  let n := Z.of_nat (length xs) in
  let qs := map value xs in
  (inject_Z n * fraction_sum (map (fun q => q * q) qs)
   - fraction_sum qs * fraction_sum qs) / inject_Z n / inject_Z (n - 1)
  == sample_variance xs.
Proof.
  intros Hlen n qs. unfold sample_variance, exact_mean. fold n. fold qs.
  rewrite !fraction_sum_total.
  assert (Hmap : map (fun x => (value x - total qs / inject_Z n)
                               * (value x - total qs / inject_Z n)) xs
                 = map (fun q => (q - total qs / inject_Z n)
                                 * (q - total qs / inject_Z n)) qs).
  { unfold qs. now rewrite map_map. }
  rewrite Hmap, total_squares.
  assert (Hlenq : length qs = length xs) by (unfold qs; apply length_map).
  rewrite Hlenq. fold n.
  assert (Hn : ~ inject_Z n == 0).
  { unfold n, Qeq. simpl. lia. }
  assert (Hn1 : ~ inject_Z (n - 1) == 0).
  { unfold n, Qeq. simpl. lia. }
  field. split; assumption.
Qed.

(** The last division of [_float_sqrt_of_frac] fails exactly when the
    rounded root is beyond the floats. *)
Lemma float_sqrt_of_frac_cases (n m : Z) :
  _float_sqrt_of_frac n m =
    let r := match _float_sqrt_of_frac n m with
             | Ok r => r
             | Raise _ => infinity
             end in
    if representable r then Ok r else Raise (Exception "OverflowError").
Proof.
  unfold _float_sqrt_of_frac, representable.
  destruct (if (0 <=? _)%Z then _ else _) as [numerator denominator].
  unfold int_truediv. cbn zeta.
  destruct (PrimFloat.is_infinity (nearest_quotient numerator denominator))
    eqn:Hr.
  - reflexivity.
  - cbn zeta. now rewrite Hr.
Qed.

Lemma stdev_sample_std64 (xs : list float) :
  (1 < length xs)%nat -> forallb finite xs = true ->
  stdev xs = if representable (sample_std xs) then Ok (sample_std xs)
             else Raise (Exception "OverflowError").
Proof.
  intros Hlen Hfin. unfold stdev.
  destruct (Z.ltb_spec (Z.of_nat (length xs)) 2); [lia|].
  rewrite (exact_ratios_finite _ Hfin). cbn zeta.
  rewrite (Qred_complete _ _ (stdev_variance xs Hlen)).
  apply float_sqrt_of_frac_cases.
Qed.

Lemma stdev_ok (xs : list float) (sd : float) :
  stdev xs = Ok sd ->
  (1 < length xs)%nat /\ forallb finite xs = true /\ sd = sample_std xs /\
  representable (sample_std xs) = true.
Proof.
  intros H. assert (Hlen : (1 < length xs)%nat).
  { revert H. unfold stdev.
    destruct (Z.ltb_spec (Z.of_nat (length xs)) 2); [discriminate | lia]. }
  split; [exact Hlen|].
  assert (Hfin : forallb finite xs = true).
  { revert H. unfold stdev.
    destruct (Z.of_nat (length xs) <? 2)%Z; [discriminate|].
    destruct (exact_ratios xs) as [qs|] eqn:Hqs; [|discriminate].
    intros _. now destruct (exact_ratios_values _ _ Hqs). }
  split; [exact Hfin|].
  rewrite (stdev_sample_std64 _ Hlen Hfin) in H.
  destruct (representable (sample_std xs)); [|discriminate].
  split; congruence.
Qed.

Lemma stdev_raise (xs : list float) err :
  stdev xs = Raise err ->
  (length xs < 2)%nat /\ err = StatisticsError \/
  (1 < length xs)%nat /\ forallb finite xs = false /\
  err = Exception "AttributeError" \/
  (1 < length xs)%nat /\ forallb finite xs = true /\
  representable (sample_std xs) = false /\
  err = Exception "OverflowError".
Proof.
  intros H.
  destruct (Nat.ltb_spec 1 (length xs)) as [Hlen | Hlen].
  - right. destruct (forallb finite xs) eqn:Hf.
    + right. rewrite (stdev_sample_std64 _ Hlen Hf) in H.
      destruct (representable (sample_std xs)); [discriminate|].
      injection H as <-. auto.
    + left. split; [exact Hlen|]. split; [reflexivity|].
      revert H. unfold stdev.
      destruct (Z.ltb_spec (Z.of_nat (length xs)) 2); [lia|].
      destruct (exact_ratios xs) as [qs|] eqn:Hqs; [|now intros [= <-]].
      apply exact_ratios_values in Hqs as [_ Hqs]. congruence.
  - left. split; [lia|]. revert H. unfold stdev.
    destruct (Z.ltb_spec (Z.of_nat (length xs)) 2); [|lia].
    now intros [= <-].
Qed.

(** When [stdev] returns: at least two data, all finite, with a
    deviation within the floats. *)
Lemma stdev_returns (xs : list float) :
  (1 < length xs)%nat ->
  forallb finite xs = true -> representable (sample_std xs) = true ->
  stdev xs = Ok (sample_std xs).
Proof.
  intros Hlen Hfin Hrep. rewrite (stdev_sample_std64 _ Hlen Hfin).
  now rewrite Hrep.
Qed.

End Statistics.

(** ** Rounding to hundredths *)

Section Rounding.

Import Binary64 Spec64.

Lemma round_div_spec (a b : Z) :
  (0 < b)%Z ->
  (2 * Z.abs (a - round_div a b * b) <= b)%Z /\
  ((2 * Z.abs (a - round_div a b * b) = b)%Z ->
   Z.even (round_div a b) = true).
Proof.
  intros Hb. unfold round_div.
  pose proof (Z.div_mod a b ltac:(lia)) as Hdm.
  pose proof (Z.mod_pos_bound a b Hb) as Hr.
  set (q := (a / b)%Z) in *. set (r := (a mod b)%Z) in *.
  destruct (Z.ltb_spec (2 * r) b) as [Hlt | Hge].
  - split; [lia|]. intros H. exfalso. nia.
  - destruct (Z.ltb_spec b (2 * r)) as [Hgt | Hle].
    + split; [nia|]. intros H. exfalso. nia.
    + destruct (Z.even q) eqn:Hev.
      * split; [nia | intros _; exact Hev].
      * split; [nia|]. intros _.
        rewrite Z.even_add, Hev. reflexivity.
Qed.

Local Open Scope Q_scope.

(** [round2] on a finite float: the sign is kept, and the magnitude is
    the float nearest to [k / 100], where [k] is the integer nearest to
    a hundred times the magnitude, the even one on a tie. *)
Lemma round2_nearest (x : float) s m e :
  Prim2SF x = S754_finite s m e ->
  let k := hundredths_of m e in
  round2 x = (if s then PrimFloat.opp (decimal k) else decimal k) /\
  (0 <= k)%Z /\
  Qabs (100 * Qabs (value x) - inject_Z k) <= 1 # 2 /\
  (Qabs (100 * Qabs (value x) - inject_Z k) == 1 # 2 -> Z.even k = true).
Proof.
  intros Hx k. split; [unfold round2; now rewrite Hx|].
  split; [apply hundredths_of_nonneg|].
  unfold value, as_integer_ratio. rewrite Hx.
  unfold k, hundredths_of.
  destruct (Z.leb_spec 0 e) as [He | He].
  - assert (Hp : (0 < 2 ^ e)%Z) by (apply Z.pow_pos_nonneg; lia).
    assert (H0 : 100 * Qabs ((if s then Z.neg m else Z.pos m) * 2 ^ e # 1)
                 - inject_Z (100 * Z.pos m * 2 ^ e) == 0).
    { unfold Qeq, Qabs, Qminus, Qplus, Qmult, Qopp, inject_Z. simpl.
      destruct s; rewrite Z.abs_mul, Z.abs_pow;
        change (Z.abs (Z.neg m)) with (Z.pos m);
        change (Z.abs (Z.pos m)) with (Z.pos m);
        change (Z.abs 2) with 2%Z;
        generalize (2 ^ e)%Z; intros P; nia. }
    rewrite H0. split; [discriminate|]. intros H. discriminate H.
  - set (D := (2 ^ (- e))%Z).
    assert (HD : (0 < D)%Z) by (apply Z.pow_pos_nonneg; lia).
    destruct (round_div_spec (100 * Z.pos m) D HD) as [Hle Heven].
    set (kk := round_div (100 * Z.pos m) D) in *.
    assert (Hq : 100 * Qabs ((if s then Z.neg m else Z.pos m) # Z.to_pos D)
                 - inject_Z kk
                 == (100 * Z.pos m - kk * D) # Z.to_pos D).
    { unfold Qeq, Qabs, Qminus, Qplus, Qmult, Qopp, inject_Z.
      cbn [Qnum Qden]. rewrite !Z2Pos.id by lia.
      destruct s;
        change (Z.abs (Z.neg m)) with (Z.pos m);
        change (Z.abs (Z.pos m)) with (Z.pos m);
        rewrite ?Pos2Z.inj_mul, ?Z2Pos.id by lia; ring. }
    rewrite Hq. unfold Qabs, Qle, Qeq. cbn [Qnum Qden].
    rewrite Z2Pos.id by lia. split; [lia|].
    intros H. apply Heven. lia.
Qed.

End Rounding.

(** ** The engine on binary64: one horizon, then all of them *)

Section Aggregate64.

Import Binary64 Ensemble64 Spec64.

Implicit Types (preds : list (string * ModelPrediction)) (h : string).

Lemma collected_fold64 preds h : forall acc,
  fold_left
    (fun acc (model_pred : ModelPrediction) =>
       match dict_get (predictions model_pred) h with
       | Some p => acc ++ [p]
       | None => acc
       end)
    (map snd preds) acc
  = acc ++ collected preds h.
Proof.
  induction preds as [|[k m] preds IH]; intros acc; simpl.
  - now rewrite app_nil_r.
  - rewrite IH. destruct (dict_get (predictions m) h); [|reflexivity].
    now rewrite <- app_assoc.
Qed.

Lemma period_predictions_collected64 preds h :
  period_predictions_of preds h = collected preds h.
Proof. unfold period_predictions_of. now rewrite collected_fold64. Qed.



(** The constructor. *)
Lemma EnsemblePrediction_new_ok64 p r v d s e :
  EnsemblePrediction_new p r v d s = Ok e ->
  PrimFloat.ltb 0 p = true /\ PrimFloat.leb 0 s = true /\
  Ensemble.validate_reason r = Ok (reason e) /\
  price e = p /\ sentiment e = v /\ disagreement e = d /\ std_dev e = s.
Proof.
  unfold EnsemblePrediction_new.
  destruct (PrimFloat.ltb 0 p) eqn:Hp; cbn [negb]; [|discriminate].
  destruct (Ensemble.validate_reason r) as [r'|err]; [|discriminate].
  destruct (PrimFloat.leb 0 s) eqn:Hs; [|discriminate].
  intros [= <-]. cbn. auto 10.
Qed.

Lemma EnsemblePrediction_new_raise64 p r v d s err :
  EnsemblePrediction_new p r v d s = Raise err ->
  exists field, err = ValidationError field.
Proof.
  unfold EnsemblePrediction_new, Ensemble.validate_reason.
  destruct (PrimFloat.ltb 0 p); cbn [negb]; [|intros [= <-]; eauto].
  destruct r as [|c r]; [intros [= <-]; eauto|].
  destruct (Ensemble.strip (String c r)); [intros [= <-]; eauto|].
  destruct (PrimFloat.leb 0 s); [discriminate | intros [= <-]; eauto].
Qed.

Lemma period_none64 thr preds h :
  collected preds h = [] -> _calculate_period_ensemble thr preds h = Ok None.
Proof.
  intros H. unfold _calculate_period_ensemble.
  now rewrite period_predictions_collected64, H.
Qed.

Lemma period_some64 thr preds h p ps :
  collected preds h = p :: ps ->
  let prices := map price (p :: ps) in
  exists v,
    Ensemble._vote_sentiment (map sentiment (p :: ps)) = Ok v /\
    _calculate_period_ensemble thr preds h =
      match deviation_of prices with
      | Raise err => Raise err
      | Ok sd =>
          match EnsemblePrediction_new
                  (round2 (mean prices))
                  (Ensemble._combine_reasons (map reason (p :: ps))) v
                  (disagrees thr (mean prices) sd)
                  (round2 sd) with
          | Ok e => Ok (Some e)
          | Raise err => Raise err
          end
      end.
Proof.
  intros H prices.
  destruct (vote_spec (map sentiment (p :: ps))) as (v & Hv & _);
    [discriminate|].
  exists v. split; [assumption|].
  unfold _calculate_period_ensemble.
  rewrite period_predictions_collected64, H.
  fold prices. unfold mbind, Res_bind, bind.
  rewrite (truediv_int_pos _ (length prices)) by (simpl; lia).
  fold (mean prices). fold (deviation_of prices).
  destruct (deviation_of prices) as [sd|err]; [|reflexivity].
  rewrite Hv. unfold disagrees.
  destruct (PrimFloat.ltb 0 (mean prices)) eqn:Hm; [|reflexivity].
  now rewrite truediv_pos.
Qed.

Lemma deviation_of_ok prices sd :
  deviation_of prices = Ok sd ->
  sd = unrounded_std prices /\
  ((1 < length prices)%nat ->
   forallb finite prices = true /\
   representable (sample_std prices) = true).
Proof.
  unfold deviation_of, unrounded_std.
  destruct (Nat.ltb_spec 1 (length prices)) as [Hlt | Hge].
  - intros H. apply stdev_ok in H as (_ & Hfin & -> & Hrep). auto.
  - intros [= <-]. split; [reflexivity | lia].
Qed.

Lemma period_ok64 thr preds h e :
  _calculate_period_ensemble thr preds h = Ok (Some e) ->
  let prices := map price (collected preds h) in
  collected preds h <> [] /\
  ((1 < length prices)%nat ->
   forallb finite prices = true /\
   representable (sample_std prices) = true) /\
  PrimFloat.ltb 0 (round2 (mean prices)) = true /\
  PrimFloat.leb 0 (round2 (unrounded_std prices)) = true /\
  price e = round2 (mean prices) /\
  std_dev e = round2 (unrounded_std prices) /\
  disagreement e = disagrees thr (mean prices) (unrounded_std prices) /\
  Ensemble._vote_sentiment (map sentiment (collected preds h))
    = Ok (sentiment e) /\
  Ensemble.validate_reason
    (Ensemble._combine_reasons (map reason (collected preds h)))
    = Ok (reason e).
Proof.
  intros Hcalc prices. subst prices.
  destruct (collected preds h) as [|p ps] eqn:Hc.
  - rewrite period_none64 in Hcalc by assumption. discriminate.
  - destruct (period_some64 thr preds h p ps Hc) as (v & Hv & Heq).
    rewrite Heq in Hcalc.
    destruct (deviation_of _) as [sd|] eqn:Hsd; [|discriminate].
    apply deviation_of_ok in Hsd as [-> Hfin].
    destruct (EnsemblePrediction_new _ _ _ _ _) as [e'|err] eqn:Hnew;
      [|discriminate].
    injection Hcalc as ->.
    apply EnsemblePrediction_new_ok64 in Hnew
      as (Hp & Hs & Hr & Hprice & Hsent & Hdis & Hstd).
    split; [discriminate|]. rewrite Hv, Hsent. auto 12.
Qed.

(** What one horizon can raise: a validation error of the constructor,
    or an error of [statistics.stdev], on an infinity or a nan or on a
    deviation too large for a float. *)
Lemma period_raise64 thr preds h err :
  _calculate_period_ensemble thr preds h = Raise err ->
  (exists field, err = ValidationError field) \/
  (err = Exception "AttributeError" /\
   forallb finite (map price (collected preds h)) = false) \/
  (err = Exception "OverflowError" /\
   representable (sample_std (map price (collected preds h))) = false).
Proof.
  intros Hcalc.
  destruct (collected preds h) as [|p ps] eqn:Hc.
  - rewrite period_none64 in Hcalc by assumption. discriminate.
  - destruct (period_some64 thr preds h p ps Hc) as (v & Hv & Heq).
    rewrite Heq in Hcalc.
    destruct (deviation_of _) as [sd|err'] eqn:Hsd.
    + destruct (EnsemblePrediction_new _ _ _ _ _) as [e'|err'] eqn:Hnew;
        [discriminate|].
      injection Hcalc as ->. left.
      eapply EnsemblePrediction_new_raise64. exact Hnew.
    + injection Hcalc as ->. right.
      unfold deviation_of in Hsd.
      destruct (Nat.ltb_spec 1 (length (map price (p :: ps))));
        [|discriminate].
      rewrite <- Hc.
      apply stdev_raise in Hsd
        as [[Hlen _] | [(_ & Hfin & ->) | (_ & _ & Hrep & ->)]]; [lia | |];
        rewrite Hc in *; auto.
Qed.

Lemma ensemble_loop_spec64 thr preds periods : forall acc ens,
  ensemble_loop thr preds periods acc = Ok ens ->
  NoDup periods ->
  (forall h, h ∈ periods -> dict_get acc h = None) ->
  forall h e,
    dict_get ens h = Some e <->
    dict_get acc h = Some e \/
    (h ∈ periods /\ _calculate_period_ensemble thr preds h = Ok (Some e)).
Proof.
  induction periods as [|period rest IH]; intros acc ens Hloop Hnd Hfresh h e.
  - injection Hloop as <-. split; [auto|].
    intros [?|[Hin _]]; [assumption | now apply not_elem_of_nil in Hin].
  - apply NoDup_cons in Hnd as [Hp Hnd].
    cbn [ensemble_loop] in Hloop. unfold mbind, Res_bind, bind in Hloop.
    destruct (_calculate_period_ensemble thr preds period) as [[e0|]|err]
      eqn:Hcalc; [| |discriminate].
    + rewrite (IH _ _ Hloop Hnd).
      2:{ intros k Hk. rewrite dict_get_set.
          destruct (String.eqb_spec k period) as [->|_]; [contradiction|].
          apply Hfresh. now right. }
      rewrite dict_get_set, elem_of_cons.
      destruct (String.eqb_spec h period) as [->|Hne].
      * rewrite Hcalc, (Hfresh period) by left.
        split; [intros [[= ->]|[? _]]; [auto | contradiction]|].
        intros [?|[_ [= ->]]]; [discriminate | auto].
      * split; [intros [?|[? ?]]; auto|].
        intros [?|[[?|?] ?]]; [auto | contradiction | auto].
    + rewrite (IH _ _ Hloop Hnd).
      2:{ intros k Hk. apply Hfresh. now right. }
      rewrite elem_of_cons. split; [intros [?|[? ?]]; auto|].
      intros [?|[[->|?] Hc]]; [auto | congruence | auto].
Qed.

Lemma ensemble_loop_raise64 thr preds periods : forall acc err,
  ensemble_loop thr preds periods acc = Raise err ->
  exists h, h ∈ periods /\ _calculate_period_ensemble thr preds h = Raise err.
Proof.
  induction periods as [|period rest IH]; intros acc err Hloop;
    [discriminate|].
  cbn [ensemble_loop] in Hloop. unfold mbind, Res_bind, bind in Hloop.
  destruct (_calculate_period_ensemble thr preds period) as [o|err']
    eqn:Hcalc.
  - destruct o; apply IH in Hloop as (h & Hh & Hr); exists h;
      (split; [now right | exact Hr]).
  - injection Hloop as ->. exists period. split; [left | exact Hcalc].
Qed.

Lemma ensemble_loop_keys64 thr preds periods : forall acc ens,
  ensemble_loop thr preds periods acc = Ok ens ->
  NoDup periods ->
  (forall h, h ∈ periods -> h ∉ map fst acc) ->
  map fst ens =
    map fst acc ++
    List.filter (fun h => match collected preds h with
                          | [] => false
                          | _ :: _ => true
                          end) periods.
Proof.
  induction periods as [|h periods IH]; intros acc ens Hloop Hnd Hfresh.
  - simpl in Hloop. injection Hloop as <-. simpl. now rewrite app_nil_r.
  - apply NoDup_cons in Hnd as [Hh Hnd].
    cbn [ensemble_loop] in Hloop. unfold mbind, Res_bind, bind in Hloop.
    destruct (_calculate_period_ensemble thr preds h) as [[e|]|err] eqn:Hp;
      [| |discriminate].
    + destruct (period_ok64 _ _ _ _ Hp) as (Hne & _).
      apply IH in Hloop; [|assumption|].
      * rewrite Hloop. cbn [List.filter].
        destruct (collected preds h); [congruence|].
        rewrite dict_set_fresh.
        -- rewrite map_app. simpl. now rewrite <- app_assoc.
        -- apply dict_get_None. apply Hfresh. left.
      * intros h' Hh'. rewrite dict_set_fresh
          by (apply dict_get_None, Hfresh; left).
        rewrite map_app. simpl. rewrite elem_of_app, list_elem_of_singleton.
        intros [Hin | ->]; [|contradiction].
        revert Hin. apply Hfresh. now right.
    + apply IH in Hloop; [|assumption|].
      * rewrite Hloop. cbn [List.filter].
        destruct (collected preds h) as [|p ps] eqn:Hc; [reflexivity|].
        destruct (period_some64 thr preds h p ps Hc) as (v & _ & Heq).
        rewrite Heq in Hp.
        destruct (deviation_of _); [|discriminate].
        destruct (EnsemblePrediction_new _ _ _ _ _); discriminate.
      * intros h' Hh'. apply Hfresh. now right.
Qed.

(** What a normal return of [calculate_ensemble] holds. *)
Lemma calculate_ensemble_ok64 thr preds ens :
  calculate_ensemble thr preds = Ok ens ->
  ens <> [] /\
  (forall h e,
     dict_get ens h = Some e <->
     h ∈ horizons /\
     _calculate_period_ensemble thr (valid_of preds) h = Ok (Some e)) /\
  map fst ens =
    List.filter (fun h => match collected (valid_of preds) h with
                          | [] => false
                          | _ :: _ => true
                          end) horizons.
Proof.
  unfold calculate_ensemble. fold (valid_of preds).
  destruct preds as [|kv preds']; [discriminate|].
  set (all := kv :: preds'). intros Hcalc.
  destruct (valid_of all) as [|kv' valid'] eqn:Hvalid; [discriminate|].
  rewrite <- Hvalid in *. unfold mbind, Res_bind, bind in Hcalc.
  destruct (ensemble_loop thr (valid_of all) ["1d"; "1w"; "1m"] []) as [ens'|]
    eqn:Hloop; [|discriminate].
  destruct ens' as [|item ens']; [discriminate|].
  injection Hcalc as <-.
  pose proof (ensemble_loop_spec64 thr _ _ _ _ Hloop horizons_NoDup
                (fun h _ => eq_refl)) as Hspec.
  split; [discriminate|]. split.
  - intros h e. rewrite Hspec. cbn [dict_get].
    split; [intros [?|?]; [discriminate | assumption] | auto].
  - apply (ensemble_loop_keys64 thr _ _ _ _ Hloop horizons_NoDup).
    intros h _. apply not_elem_of_nil.
Qed.

Lemma calculate_ensemble_raise64 thr preds err :
  calculate_ensemble thr preds = Raise err ->
  (exists msg, err = ValueError msg) \/
  exists h, _calculate_period_ensemble thr (valid_of preds) h = Raise err.
Proof.
  unfold calculate_ensemble. fold (valid_of preds).
  destruct preds as [|kv preds']; [intros [= <-]; eauto|].
  destruct (valid_of (kv :: preds')) as [|kv' valid'] eqn:Hv;
    [intros [= <-]; eauto|].
  rewrite <- Hv. unfold mbind, Res_bind, bind.
  destruct (ensemble_loop _ _ _ _) as [[|item ens]|err'] eqn:Hloop.
  - intros [= <-]. eauto.
  - discriminate.
  - intros [= <-]. right.
    apply ensemble_loop_raise64 in Hloop as (h & _ & Hr). eauto.
Qed.

End Aggregate64.

(** ** Claims on the numbers of the ensemble *)

Section EngineClaims64.

Import Binary64 Ensemble64 Spec64.

Local Open Scope float_scope.

Implicit Types (preds : list (string * ModelPrediction)) (h : string).

Lemma round2_not_finite (x : float) : finite x = false -> round2 x = x.
Proof.
  unfold finite, as_integer_ratio, round2.
  now destruct (Prim2SF x) as [s|s| |s m e].
Qed.

Lemma float_neq (x y : float) : Prim2SF x <> Prim2SF y -> x <> y.
Proof. intros H ->. now apply H. Qed.

Lemma three_models_result64 :
  calculate_ensemble default_threshold three_models =
    Ok [("1d", mkEnsemblePrediction
                 (mkPeriodPrediction 100 "상승 | 하락" Ensemble.POSITIVE)
                 false 10)].
Proof. vm_compute. reflexivity. Qed.

Lemma overflow_result :
  calculate_ensemble default_threshold (models_at 0 [1e308; 1e308]) =
    Ok [("1d", mkEnsemblePrediction
                 (mkPeriodPrediction infinity "a | b" Ensemble.NEUTRAL)
                 false 0)].
Proof. vm_compute. reflexivity. Qed.

Lemma close_pair_result :
  calculate_ensemble default_threshold (models_at 0 [100; 100.05]) =
    Ok [("1d", mkEnsemblePrediction
                 (mkPeriodPrediction 100.03 "a | b" Ensemble.NEUTRAL)
                 false 0.04)].
Proof. vm_compute. reflexivity. Qed.

Lemma near_threshold_result64 :
  calculate_ensemble default_threshold
    (models_at 0 [8.001; 10.004; 12.007]) =
    Ok [("1d", mkEnsemblePrediction
                 (mkPeriodPrediction 10 "a | b | c" Ensemble.NEUTRAL)
                 true 2)].
Proof. vm_compute. reflexivity. Qed.

Lemma one_order_result :
  calculate_ensemble default_threshold
    (models_at 0 [292.3; 286.68; 275.54; 279.34]) =
    Ok [("1d", mkEnsemblePrediction
                 (mkPeriodPrediction 283.46 "a | b | c 외" Ensemble.NEUTRAL)
                 false 7.49)].
Proof. vm_compute. reflexivity. Qed.

Lemma other_order_result :
  calculate_ensemble default_threshold
    (models_at 0 [292.3; 275.54; 279.34; 286.68]) =
    Ok [("1d", mkEnsemblePrediction
                 (mkPeriodPrediction 283.47 "a | b | c 외" Ensemble.NEUTRAL)
                 false 7.49)].
Proof. vm_compute. reflexivity. Qed.

(** C6, as stated, fails: the mean is computed in binary64, and the sum
    of two prices of 1e308 overflows.  The opinion holds an infinite
    price, while the arithmetic mean of the two prices is 1e308, which
    rounded to 2 decimals is 1e308. *)
Lemma binary64_mean_is_not_the_arithmetic_mean :
  ~ (forall thr preds ens h e,
       calculate_ensemble thr preds = Ok ens ->
       dict_get ens h = Some e ->
       price e = decimal (nearest_hundredth
                            (exact_mean
                               (map price (collected (valid_of preds) h))))).
Proof.
  intros H.
  specialize (H default_threshold (models_at 0 [1e308; 1e308]) _ "1d" _
                overflow_result eq_refl).
  revert H. apply float_neq. vm_compute. discriminate.
Qed.

(** C6, amended.  In every result of [calculate_ensemble], the opinion
    of a horizon has for price the binary64 mean of the prices collected
    for that horizon (their sum from left to right, each addition
    rounded, divided by their number) rounded to 2 decimals, and for
    [std_dev] 0 when there is one price and otherwise the rounding to 2
    decimals of [statistics.stdev]: the square root, rounded to a float,
    of the sample variance taken exactly, with its [n - 1]; the prices
    are then all finite.  Rounding a finite float to 2 decimals keeps
    its sign and gives the float nearest to [k / 100], where [k] is the
    integer nearest to a hundred times its magnitude, the even one on a
    tie; an infinity and a nan are left as they are.  Prices 100, 110 and
    90 give price 100 and [std_dev] 10; prices 100 and 100.05 give 100.03
    where the exact mean rounds to 100.02; and the prices 292.3, 286.68,
    275.54 and 279.34 give 283.46 in that order and 283.47 in
    another. *)
Theorem ensemble_mean_and_sample_std :
  (forall thr preds ens h e,
     calculate_ensemble thr preds = Ok ens ->
     dict_get ens h = Some e ->
     let prices := map price (collected (valid_of preds) h) in
     prices <> [] /\
     price e = round2 (mean prices) /\
     (length prices = 1%nat -> std_dev e = 0) /\
     ((1 < length prices)%nat ->
        forallb finite prices = true /\
        stdev prices = Ok (sample_std prices) /\
        std_dev e = round2 (sample_std prices))) /\
  (forall x s m e,
     Prim2SF x = S754_finite s m e ->
     exists k,
       (0 <= k)%Z /\
       round2 x = (if s then - decimal k else decimal k) /\
       (Qabs (100 * Qabs (value x) - inject_Z k) <= 1 # 2)%Q /\
       ((Qabs (100 * Qabs (value x) - inject_Z k) == 1 # 2)%Q ->
        Z.even k = true)) /\
  (forall x, finite x = false -> round2 x = x) /\
  (exists e,
     calculate_ensemble default_threshold three_models = Ok [("1d", e)] /\
     map price (collected (valid_of three_models) "1d") = [100; 110; 90] /\
     price e = 100 /\ std_dev e = 10) /\
  (exists e,
     calculate_ensemble default_threshold (models_at 0 [100; 100.05])
       = Ok [("1d", e)] /\
     price e = 100.03 /\
     decimal (nearest_hundredth (exact_mean [100; 100.05])) = 100.02) /\
  (exists e e',
     calculate_ensemble default_threshold
       (models_at 0 [292.3; 286.68; 275.54; 279.34]) = Ok [("1d", e)] /\
     calculate_ensemble default_threshold
       (models_at 0 [292.3; 275.54; 279.34; 286.68]) = Ok [("1d", e')] /\
     price e = 283.46 /\ price e' = 283.47).
Proof.
  split; [|split; [|split; [|split; [|split]]]].
  - intros thr preds ens h e Hcalc Hget prices.
    apply calculate_ensemble_ok64 in Hcalc as (_ & Hspec & _).
    apply Hspec in Hget as [_ Hperiod].
    apply period_ok64 in Hperiod
      as (Hne & Hfin & _ & _ & Hprice & Hstd & _).
    fold prices in Hfin, Hprice, Hstd.
    split; [|split; [assumption|split]].
    + unfold prices. destruct (collected (valid_of preds) h);
        [congruence | discriminate].
    + intros Hlen. rewrite Hstd. unfold unrounded_std. rewrite Hlen.
      reflexivity.
    + intros Hlen. destruct (Hfin Hlen) as [Hfin' Hrep].
      split; [exact Hfin'|]. split; [now apply stdev_returns|].
      rewrite Hstd. unfold unrounded_std.
      destruct (Nat.ltb_spec 1 (length prices)); [reflexivity | lia].
  - intros x s m e Hx.
    destruct (round2_nearest x s m e Hx) as (Hr & Hk & Hle & Heven).
    eauto 10.
  - exact round2_not_finite.
  - eexists. split; [exact three_models_result64|].
    split; [reflexivity|]. split; reflexivity.
  - eexists. split; [exact close_pair_result|]. split; [reflexivity|].
    vm_compute. reflexivity.
  - do 2 eexists. split; [exact one_order_result|].
    split; [exact other_order_result|]. split; reflexivity.
Qed.

Lemma ensemble_mean_and_sample_std_witness :
  exists e,
    calculate_ensemble default_threshold (models_at 0 [100; 100.05])
      = Ok [("1d", e)] /\
    price e = round2 (mean [100; 100.05]).
Proof.
  eexists. split; [exact close_pair_result|].
  exact (proj1 (proj2 (proj1 ensemble_mean_and_sample_std
                         default_threshold (models_at 0 [100; 100.05])
                         _ "1d" _ close_pair_result eq_refl))).
Defined.

(** C7, as stated, fails: the stored price and deviation are rounded
    after the flag is computed.  For prices 8.001, 10.004 and 12.007 the
    opinion holds price 10, deviation 2 and a raised flag, yet 2 / 10
    does not exceed the threshold 0.2. *)
Lemma disagreement_not_on_rounded_fields :
  ~ (forall thr preds ens h e,
       calculate_ensemble thr preds = Ok ens ->
       dict_get ens h = Some e ->
       (disagreement e = true <-> (thr <? std_dev e / price e) = true)).
Proof.
  intros H.
  specialize (H default_threshold (models_at 0 [8.001; 10.004; 12.007])
                _ "1d" _ near_threshold_result64 eq_refl).
  vm_compute in H. destruct H as [H _]. discriminate (H eq_refl).
Qed.

Lemma ltb_0_false_round2 (x : float) :
  (0 <? x) = false -> (0 <? round2 x) = false.
Proof.
  intros H. destruct (0 <? round2 x) eqn:Hr; [|reflexivity].
  apply round2_pos64 in Hr. congruence.
Qed.

(** C7, amended.  In every result of [calculate_ensemble], the mean of
    the prices collected for a horizon, computed in binary64 before any
    rounding, is above zero, and the deviation is divided by it under
    that guard only, so that no division by zero is ever raised.  The
    flag is raised whenever the unrounded deviation divided by the
    unrounded mean exceeds the threshold, and it is down whenever
    neither that quotient exceeds the threshold nor the stored deviation
    exceeds 0.2 times the stored price.  The stored price and deviation
    are the roundings of that mean and deviation.  A horizon whose mean
    is not above zero gets no opinion: building it fails. *)
Theorem disagreement_before_rounding :
  (forall thr preds ens h e,
     calculate_ensemble thr preds = Ok ens ->
     dict_get ens h = Some e ->
     let prices := map price (collected (valid_of preds) h) in
     let m := mean prices in
     let s := unrounded_std prices in
     (0 <? m) = true /\
     truediv s m = Ok (s / m) /\
     ((thr <? s / m) = true -> disagreement e = true) /\
     (disagreement e = true ->
        (thr <? s / m) = true \/ (price e * 0.2 <? std_dev e) = true) /\
     price e = round2 m /\ std_dev e = round2 s) /\
  (forall thr preds, calculate_ensemble thr preds <> Raise ZeroDivisionError) /\
  (forall thr preds h,
     _calculate_period_ensemble thr preds h <> Raise ZeroDivisionError) /\
  (forall thr preds h,
     collected preds h <> [] ->
     (0 <? mean (map price (collected preds h))) = false ->
     exists err, _calculate_period_ensemble thr preds h = Raise err).
Proof.
  assert (Hperiod : forall thr preds h,
            _calculate_period_ensemble thr preds h <> Raise ZeroDivisionError).
  { intros thr preds h Hraise.
    apply period_raise64 in Hraise as [(field & Hf) | [[Hf _] | [Hf _]]];
      discriminate. }
  split; [|split; [|split]].
  - intros thr preds ens h e Hcalc Hget prices m s.
    apply calculate_ensemble_ok64 in Hcalc as (_ & Hspec & _).
    apply Hspec in Hget as [_ Hp].
    apply period_ok64 in Hp
      as (_ & _ & Hpos & _ & Hprice & Hstd & Hdis & _).
    fold prices in Hpos, Hprice, Hstd, Hdis. fold m in Hpos, Hprice, Hdis.
    fold s in Hstd, Hdis.
    apply round2_pos64 in Hpos.
    unfold disagrees in Hdis. rewrite Hpos in Hdis.
    split; [exact Hpos|]. split; [now apply truediv_pos|].
    split; [intros H; now rewrite Hdis|].
    split; [intros H; left; now rewrite <- Hdis|].
    split; assumption.
  - intros thr preds Hraise.
    apply calculate_ensemble_raise64 in Hraise as [(msg & Hm) | (h & Hr)];
      [discriminate|].
    now apply Hperiod in Hr.
  - exact Hperiod.
  - intros thr preds h Hne Hm.
    destruct (collected preds h) as [|p ps] eqn:Hc; [congruence|].
    destruct (period_some64 thr preds h p ps Hc) as (v & _ & ->).
    destruct (deviation_of _) as [sd|err]; [|eauto].
    unfold EnsemblePrediction_new.
    rewrite (ltb_0_false_round2 _ Hm). cbn [negb]. eauto.
Qed.

Lemma disagreement_before_rounding_witness :
  exists e,
    calculate_ensemble default_threshold
      (models_at 0 [8.001; 10.004; 12.007]) = Ok [("1d", e)] /\
    std_dev e = round2 (unrounded_std [8.001; 10.004; 12.007]).
Proof.
  eexists. split; [exact near_threshold_result64|].
  exact (proj2 (proj2 (proj2 (proj2 (proj2
           (proj1 disagreement_before_rounding
              default_threshold (models_at 0 [8.001; 10.004; 12.007])
              _ "1d" _ near_threshold_result64 eq_refl)))))).
Defined.

End EngineClaims64.

(** ** The engine on binary64: the query and the shape of a result *)

Section EngineQueries64.

Import Binary64 Ensemble64 Spec64.

Local Open Scope float_scope.

Implicit Types (preds : list (string * ModelPrediction)) (h : string).




(** X16.  A computed ensemble is well formed: its keys are exactly the
    horizons some valid model predicted, in the order 1d, 1w, 1m and
    without repetition; every entry has a reason that is not empty, a
    deviation that is not negative, and a price above zero that is, when
    it is finite, a whole number of hundredths: the float nearest to
    [k / 100] for a positive integer [k].  The price is infinite when
    the sum of the prices overflows. *)
Theorem ensemble_is_well_formed (thr : float)
    (preds : list (string * ModelPrediction))
    (ens : list (string * EnsemblePrediction)) :
  calculate_ensemble thr preds = Ok ens ->
  map fst ens =
    List.filter (fun h => match collected (valid_of preds) h with
                          | [] => false
                          | _ :: _ => true
                          end) horizons /\
  (1 <= length ens <= 3)%nat /\
  (forall h (e : EnsemblePrediction), (h, e) ∈ ens ->
     (0 <? price e) = true /\ (0 <=? std_dev e) = true /\
     reason e <> EmptyString /\
     (price e = infinity \/
      exists k, (0 < k)%Z /\ price e = decimal k)) /\
  (exists e,
     calculate_ensemble default_threshold (models_at 0 [1e308; 1e308])
       = Ok [("1d", e)] /\
     price e = infinity).
Proof.
  intros Hens.
  destruct (calculate_ensemble_ok64 _ _ _ Hens) as (Hne & Hget & Hkeys).
  split; [exact Hkeys|]. split; [|split].
  - split.
    + destruct ens; [congruence | simpl; lia].
    + rewrite <- (length_map fst), Hkeys.
      pose proof (List.filter_length_le
                    (fun h => match collected (valid_of preds) h with
                              | [] => false
                              | _ :: _ => true
                              end) horizons) as Hle.
      simpl in Hle. simpl. lia.
  - intros h e Hin.
    assert (Hd : dict_get ens h = Some e).
    { apply dict_get_NoDup; [|assumption].
      rewrite Hkeys. apply NoDup_ListNoDup, List.NoDup_filter.
      apply NoDup_ListNoDup, horizons_NoDup. }
    apply Hget in Hd as [_ Hp].
    destruct (period_ok64 _ _ _ _ Hp)
      as (_ & _ & Hpos & Hsd & Hprice & Hstd & _ & _ & Hr).
    rewrite Hprice, Hstd.
    split; [exact Hpos|]. split; [exact Hsd|].
    split; [eapply validate_reason_nonempty; exact Hr|].
    now apply round2_pos_form.
  - eexists. split; [exact overflow_result | reflexivity].
Qed.

Lemma ensemble_is_well_formed_witness :
  exists ens,
    calculate_ensemble default_threshold
      (models_at 0 [8.001; 10.004; 12.007]) = Ok ens /\
    map fst ens = ["1d"].
Proof.
  eexists. split; [exact near_threshold_result64|].
  exact (proj1 (ensemble_is_well_formed default_threshold _ _
                  near_threshold_result64)).
Defined.

End EngineQueries64.

(** ** The engine on binary64: the order of the models *)

Section EngineOrder64.

Import Binary64 Ensemble64 Spec64.

Local Open Scope float_scope.

Implicit Types (preds : list (string * ModelPrediction)) (h : string).

Lemma total_perm64 (qs qs' : list Q) :
  Permutation qs qs' -> (total qs == total qs')%Q.
Proof.
  induction 1 as [|q qs qs' _ IH|q q' qs|qs qs' qs'' _ IH1 _ IH2]; simpl.
  - reflexivity.
  - now rewrite IH.
  - ring.
  - now rewrite IH1.
Qed.

(** The sample variance from the sum and the sum of the squares. *)
Lemma sample_variance_sums (xs : list float) :
  (1 < length xs)%nat ->
  let n := inject_Z (Z.of_nat (length xs)) in
  let qs := map value xs in
  (sample_variance xs ==
   (n * total (map (fun q => q * q) qs) - total qs * total qs)
   / n / inject_Z (Z.of_nat (length xs) - 1))%Q.
Proof.
  intros Hlen n qs. rewrite <- (stdev_variance xs Hlen). cbn zeta.
  fold qs. fold n. now rewrite !fraction_sum_total.
Qed.

Lemma sample_std_perm64 (xs xs' : list float) :
  Permutation xs xs' -> unrounded_std xs = unrounded_std xs'.
Proof.
  intros Hp. unfold unrounded_std.
  rewrite <- (Permutation_length Hp).
  destruct (Nat.ltb_spec 1 (length xs)) as [Hlen | _]; [|reflexivity].
  unfold sample_std, sqrt_of_fraction.
  assert (Hq : (sample_variance xs == sample_variance xs')%Q).
  { rewrite (sample_variance_sums xs Hlen).
    rewrite (sample_variance_sums xs')
      by (now rewrite <- (Permutation_length Hp)).
    cbn zeta. rewrite <- (Permutation_length Hp).
    pose proof (Permutation_map value Hp) as Hv.
    rewrite (total_perm64 _ _ Hv).
    rewrite (total_perm64 _ _ (Permutation_map (fun q => (q * q)%Q) Hv)).
    reflexivity. }
  now rewrite (Qred_complete _ _ Hq).
Qed.

Lemma valid_of_perm64 preds preds' :
  Permutation preds preds' -> Permutation (valid_of preds) (valid_of preds').
Proof.
  unfold valid_of.
  induction 1 as [|x xs ys _ IH|x y xs|xs ys zs _ IH1 _ IH2]; simpl.
  - constructor.
  - destruct (is_valid x.2); [now constructor | assumption].
  - destruct (is_valid x.2), (is_valid y.2); try reflexivity.
    apply perm_swap.
  - now transitivity (List.filter
                        (fun kv : string * ModelPrediction => is_valid kv.2)
                        ys).
Qed.

Lemma collected_perm64 preds preds' h :
  Permutation preds preds' ->
  Permutation (collected preds h) (collected preds' h).
Proof.
  induction 1 as [|[n m] xs ys _ IH|[n m] [n' m'] xs|xs ys zs _ IH1 _ IH2];
    simpl.
  - constructor.
  - destruct (dict_get (predictions m) h); [now constructor | assumption].
  - destruct (dict_get (predictions m') h), (dict_get (predictions m) h);
      try reflexivity.
    apply perm_swap.
  - now transitivity (collected ys h).
Qed.

Lemma growing_order_result :
  calculate_ensemble default_threshold (within_reach [0; 1; 2]%nat) =
    Ok [("1d", mkEnsemblePrediction
                 (mkPeriodPrediction 1.1 "a | b | c" Ensemble.NEUTRAL)
                 true 0.22)].
Proof. vm_compute. reflexivity. Qed.

Lemma mixed_order_result :
  calculate_ensemble default_threshold (within_reach [0; 2; 1]%nat) =
    Ok [("1d", mkEnsemblePrediction
                 (mkPeriodPrediction 1.1 "a | c | b" Ensemble.NEUTRAL)
                 false 0.22)].
Proof. vm_compute. reflexivity. Qed.

Lemma one_quote_order_result :
  calculate_ensemble default_threshold (four_quotes [0; 1; 2; 3]%nat) =
    Ok [("1d", mkEnsemblePrediction
                 (mkPeriodPrediction 283.46 "a | b | c 외" Ensemble.NEUTRAL)
                 false 7.49)].
Proof. vm_compute. reflexivity. Qed.

Lemma other_quote_order_result :
  calculate_ensemble default_threshold (four_quotes [0; 2; 3; 1]%nat) =
    Ok [("1d", mkEnsemblePrediction
                 (mkPeriodPrediction 283.47 "a | c | d 외" Ensemble.NEUTRAL)
                 false 7.49)].
Proof. vm_compute. reflexivity. Qed.

(** X20.  What the order of the models decides.  Two orders of the same
    models for which the engine returns an ensemble give the same
    horizons and, on each, the same deviation: [statistics.stdev] works
    on exact fractions.  The price and the flag can differ, the sum of
    the prices being rounded at each addition: the same four models give
    the price 283.46 in one order and 283.47 in another, and the same
    three models a raised flag in one order and none in another. *)
Theorem model_order_decides_price_and_flag :
  (forall thr preds preds' ens ens',
     Permutation preds preds' ->
     calculate_ensemble thr preds = Ok ens ->
     calculate_ensemble thr preds' = Ok ens' ->
     map fst ens' = map fst ens /\
     forall h e e',
       dict_get ens h = Some e -> dict_get ens' h = Some e' ->
       std_dev e' = std_dev e) /\
  (exists e e',
     Permutation (four_quotes [0; 1; 2; 3]%nat) (four_quotes [0; 2; 3; 1]%nat) /\
     calculate_ensemble default_threshold (four_quotes [0; 1; 2; 3]%nat)
       = Ok [("1d", e)] /\
     calculate_ensemble default_threshold (four_quotes [0; 2; 3; 1]%nat)
       = Ok [("1d", e')] /\
     price e = 283.46 /\ price e' = 283.47) /\
  (exists e e',
     Permutation (within_reach [0; 1; 2]%nat) (within_reach [0; 2; 1]%nat) /\
     calculate_ensemble default_threshold (within_reach [0; 1; 2]%nat)
       = Ok [("1d", e)] /\
     calculate_ensemble default_threshold (within_reach [0; 2; 1]%nat)
       = Ok [("1d", e')] /\
     disagreement e = true /\ disagreement e' = false).
Proof.
  split; [|split].
  - intros thr preds preds' ens ens' Hperm Hens Hens'.
    pose proof (valid_of_perm64 _ _ Hperm) as HV.
    destruct (calculate_ensemble_ok64 _ _ _ Hens) as (_ & Hget & Hkeys).
    destruct (calculate_ensemble_ok64 _ _ _ Hens') as (_ & Hget' & Hkeys').
    split.
    + rewrite Hkeys, Hkeys'. apply List.filter_ext. intros h.
      pose proof (collected_perm64 _ _ h HV) as Hc.
      destruct (collected (valid_of preds) h),
               (collected (valid_of preds') h); try reflexivity.
      * apply Permutation_nil in Hc. discriminate.
      * apply Permutation_sym, Permutation_nil in Hc. discriminate.
    + intros h e e' He He'.
      apply Hget in He as [_ Hp]. apply Hget' in He' as [_ Hp'].
      destruct (period_ok64 _ _ _ _ Hp) as (_ & _ & _ & _ & _ & -> & _).
      destruct (period_ok64 _ _ _ _ Hp') as (_ & _ & _ & _ & _ & -> & _).
      f_equal. symmetry. apply sample_std_perm64.
      apply Permutation_map, collected_perm64, HV.
  - do 2 eexists. split; [|split; [exact one_quote_order_result|]].
    + unfold four_quotes. cbn [omap list_omap lookup]. simpl.
      apply perm_skip. apply (Permutation_cons_append [_; _]).
    + split; [exact other_quote_order_result|]. split; reflexivity.
  - do 2 eexists. split; [|split; [exact growing_order_result|]].
    + unfold within_reach. simpl. apply perm_skip, perm_swap.
    + split; [exact mixed_order_result|]. split; reflexivity.
Qed.

End EngineOrder64.

(** ** The prediction service: parsing *)

Section ServiceProps.

Import Ensemble Service.

Implicit Types
  (parse : string -> Predictor.RawResponse -> Res (option ModelPrediction))
  (raw : list (string * option Predictor.RawResponse)).

Lemma failed_prediction_raises n :
  exists field, failed_prediction n = Raise (ValidationError field).
Proof.
  unfold failed_prediction, ModelPrediction_new, validate_model_name.
  destruct n as [|c n]; simpl; [eauto|].
  destruct (strip (String c n)); simpl; eauto.
Qed.

Lemma parse_entry_spec parse n r :
  (exists m, parse_entry parse n r = Ok m /\ parsed_by parse (n, r) m) \/
  ((forall m, ~ parsed_by parse (n, r) m) /\
   exists field, parse_entry parse n r = Raise (ValidationError field)).
Proof.
  destruct (failed_prediction_raises n) as [field Hf].
  unfold parse_entry, parsed_by. simpl.
  destruct r as [response|].
  - unfold mbind, Res_bind, bind.
    destruct (parse n response) as [[m|]|e] eqn:Hp.
    + left. exists m. split; [reflexivity|]. eauto.
    + right. rewrite Hf. split; [|eauto].
      intros m (r' & [= <-] & Hm). congruence.
    + right. rewrite Hf. split; [|eauto].
      intros m (r' & [= <-] & Hm). congruence.
  - right. rewrite Hf. split; [|eauto].
    intros m (r' & Hr & _). discriminate.
Qed.

Lemma parse_loop_ok parse raw : forall parsed,
  Forall (fun entry => exists m, parsed_by parse entry m) raw ->
  exists out,
    parse_loop parse raw parsed = Ok out /\
    forall n m, dict_get out n = Some m ->
      dict_get parsed n = Some m \/
      exists r, (n, r) ∈ raw /\ parsed_by parse (n, r) m.
Proof.
  induction raw as [|[n r] raw IH]; intros parsed Hall.
  - exists parsed. split; [reflexivity | auto].
  - inversion Hall as [|? ? (m0 & Hm0) Hrest]; subst.
    cbn [parse_loop]. unfold mbind, Res_bind, bind.
    destruct (parse_entry_spec parse n r)
      as [(m & -> & Hm) | (Hno & _)]; [|exfalso; exact (Hno m0 Hm0)].
    destruct (IH (dict_set parsed n m) Hrest) as (out & -> & Hout).
    exists out. split; [reflexivity|].
    intros n' m' Hget. apply Hout in Hget as [Hget | (r' & Hin & Hp)].
    + rewrite dict_get_set in Hget.
      destruct (String.eqb_spec n' n) as [->|Hne]; [|auto].
      injection Hget as <-. right. exists r. split; [left | exact Hm].
    + right. exists r'. split; [now right | exact Hp].
Qed.

(** X21.  [_parse_predictions] is all or nothing.  The placeholder it
    builds for a model without a usable answer has no predictions, which
    the constructor of [ModelPrediction] rejects; so as soon as one
    entry is null, or one answer is not parsed, the call raises a
    validation error, whatever the other models answered. *)
Theorem one_unusable_answer_fails_the_parse
    (parse : string -> Predictor.RawResponse -> Res (option ModelPrediction))
    (raw : list (string * option Predictor.RawResponse)) :
  Exists (fun entry => forall m, ~ parsed_by parse entry m) raw ->
  exists field, _parse_predictions parse raw = Raise (ValidationError field).
Proof.
  unfold _parse_predictions. generalize ([] : list (string * ModelPrediction)).
  induction raw as [|[n r] raw IH]; intros parsed Hex.
  - inversion Hex.
  - cbn [parse_loop]. unfold mbind, Res_bind, bind.
    destruct (parse_entry_spec parse n r)
      as [(m & -> & Hm) | (Hno & field & ->)]; [|eauto].
    apply IH. inversion Hex as [? ? Hbad | ? ? Hrest]; subst; [|assumption].
    exfalso. exact (Hbad m Hm).
Qed.

Lemma one_unusable_answer_fails_the_parse_witness :
  let ok := Predictor.mkRawResponse "gpt" "{}" true in
  let m := mkModelPrediction "GPT-5.2"
             [("1d", mkPeriodPrediction 100 "r" NEUTRAL)] true in
  exists field,
    _parse_predictions (fun _ _ => Ok (Some m))
      [("GPT-5.2", Some ok); ("Gemma", None)]
    = Raise (ValidationError field).
Proof.
  intros ok m.
  apply one_unusable_answer_fails_the_parse.
  apply Exists_cons_tl, Exists_cons_hd.
  intros m' (r & Hr & _). discriminate Hr.
Defined.

(** X22.  When every entry has an answer that [parse_response] turns
    into a prediction, [_parse_predictions] returns, and everything it
    returns is such a parsed prediction stored under the name of its
    model: no placeholder with [success] unset ever reaches the
    ensemble engine from this function. *)
Theorem parse_returns_only_parsed_answers
    (parse : string -> Predictor.RawResponse -> Res (option ModelPrediction))
    (raw : list (string * option Predictor.RawResponse)) :
  Forall (fun entry => exists m, parsed_by parse entry m) raw ->
  exists out,
    _parse_predictions parse raw = Ok out /\
    forall n m, dict_get out n = Some m ->
      exists r, (n, r) ∈ raw /\ parsed_by parse (n, r) m.
Proof.
  intros Hall.
  destruct (parse_loop_ok parse raw [] Hall) as (out & Hout & Hget).
  exists out. split; [exact Hout|].
  intros n m H. apply Hget in H as [H | H]; [discriminate | exact H].
Qed.

Lemma parse_returns_only_parsed_answers_witness :
  let ok := Predictor.mkRawResponse "gpt" "{}" true in
  let m := mkModelPrediction "GPT-5.2"
             [("1d", mkPeriodPrediction 100 "r" NEUTRAL)] true in
  exists out,
    _parse_predictions (fun _ _ => Ok (Some m)) [("GPT-5.2", Some ok)]
    = Ok out.
Proof.
  intros ok m.
  destruct (parse_returns_only_parsed_answers (fun _ _ => Ok (Some m))
              [("GPT-5.2", Some ok)]) as (out & Hout & _).
  - repeat constructor. exists m, ok. split; reflexivity.
  - exists out. exact Hout.
Defined.

End ServiceProps.

(** ** The ranking service *)

Section RankingProps.

Import Ranking.

Local Open Scope R_scope.

Implicit Types (l : list StockRanking) (s x : StockRanking).

Lemma insert_by_value_perm x l : Permutation (x :: l) (insert_by_value x l).
Proof.
  induction l as [|y l IH]; simpl; [reflexivity|].
  destruct (Rle_dec _ _); [reflexivity|].
  rewrite perm_swap. now constructor.
Qed.

Lemma sort_by_value_perm l : Permutation l (sort_by_value l).
Proof.
  induction l as [|x l IH]; simpl; [constructor|].
  rewrite <- insert_by_value_perm. now constructor.
Qed.

Lemma insert_by_value_sorted x l :
  StronglySorted ge_value l -> StronglySorted ge_value (insert_by_value x l).
Proof.
  induction 1 as [|y l Hs IH Hall]; simpl.
  - repeat constructor.
  - destruct (Rle_dec (trading_value y) (trading_value x)) as [Hle | Hgt].
    + constructor; [now constructor|].
      constructor; [exact Hle|].
      eapply List.Forall_impl; [|exact Hall].
      unfold ge_value. intros z Hz. lra.
    + constructor; [exact IH|].
      eapply Permutation_Forall; [apply insert_by_value_perm|].
      constructor; [unfold ge_value; lra | exact Hall].
Qed.

Lemma sort_by_value_sorted l : StronglySorted ge_value (sort_by_value l).
Proof.
  induction l as [|x l IH]; simpl; [constructor|].
  now apply insert_by_value_sorted.
Qed.

Lemma insert_by_value_stable v x l :
  List.filter (has_value v) (insert_by_value x l)
  = List.filter (has_value v) (x :: l).
Proof.
  induction l as [|y l IH]; [reflexivity|].
  cbn [insert_by_value].
  destruct (Rle_dec (trading_value y) (trading_value x)) as [Hle | Hgt];
    [reflexivity|].
  cbn [List.filter] in *. rewrite IH.
  unfold has_value.
  destruct (Req_dec_T (trading_value y) v), (Req_dec_T (trading_value x) v);
    try reflexivity.
  lra.
Qed.

Lemma sort_by_value_stable v l :
  List.filter (has_value v) (sort_by_value l) = List.filter (has_value v) l.
Proof.
  induction l as [|x l IH]; [reflexivity|].
  cbn [sort_by_value]. rewrite insert_by_value_stable.
  cbn [List.filter]. now rewrite IH.
Qed.

Lemma assign_ranks_lookup l : forall start i,
  assign_ranks start l !! i
  = set_rank (start + Z.of_nat i)%Z <$> l !! i.
Proof.
  induction l as [|x l IH]; intros start i; [reflexivity|].
  destruct i as [|i]; simpl.
  - now rewrite Z.add_0_r.
  - rewrite IH. do 2 f_equal. lia.
Qed.

Lemma assign_ranks_length l : forall start,
  length (assign_ranks start l) = length l.
Proof. induction l; intros; simpl; auto. Qed.

Lemma assign_ranks_take n l : forall start,
  take n (assign_ranks start l) = assign_ranks start (take n l).
Proof.
  revert n. induction l as [|x l IH]; intros [|n] start; simpl;
    try reflexivity.
  now rewrite IH.
Qed.

Lemma valid_stocks_of_spec (results : list (Res (option StockRanking))) :
  valid_stocks_of results =
    omap (fun r => match r with Ok (Some s) => Some s | _ => None end)
         results.
Proof.
  unfold valid_stocks_of.
  enough (H : forall acc,
    fold_left
      (fun valid_stocks (result : Res (option StockRanking)) =>
         match result with
         | Raise _ => valid_stocks
         | Ok None => valid_stocks
         | Ok (Some stock) => valid_stocks ++ [stock]
         end) results acc
    = acc ++ omap (fun r => match r with Ok (Some s) => Some s | _ => None end)
                  results) by apply H.
  induction results as [|r results IH]; intros acc.
  - simpl. now rewrite app_nil_r.
  - cbn [fold_left omap list_omap]. rewrite IH.
    destruct r as [[s|]|e]; try reflexivity.
    now rewrite <- app_assoc.
Qed.

Lemma elem_of_drop_inv {A} (x : A) (l : list A) : forall n,
  x ∈ drop n l -> x ∈ l.
Proof.
  induction l as [|y l IH]; intros [|n] H; simpl in H; try assumption.
  right. eauto.
Qed.

Lemma sorted_take_drop (sorted : list StockRanking) n a b :
  StronglySorted ge_value sorted ->
  a ∈ take n sorted -> b ∈ drop n sorted -> ge_value a b.
Proof.
  intros Hs. revert n. induction Hs as [|y l Hs IH Hall]; intros n Ha Hb.
  - rewrite take_nil in Ha. now apply elem_of_nil in Ha.
  - destruct n as [|n]; simpl in Ha, Hb.
    + now apply elem_of_nil in Ha.
    + apply elem_of_cons in Ha as [-> | Ha].
      * rewrite List.Forall_forall in Hall. apply Hall.
        apply list_elem_of_In. eapply elem_of_drop_inv; eauto.
      * eapply IH; eauto.
Qed.

Lemma get_rankings_refresh (self : RankingService) (force : bool)
    (now now' : R) (results : list (Res (option StockRanking))) :
  refreshes self force now ->
  get_rankings self force now now' results =
    (mkRankingService
       (Some (take 10 (assign_ranks 1
                         (sort_by_value (valid_stocks_of results)))))
       (Some now'),
     take 10 (assign_ranks 1 (sort_by_value (valid_stocks_of results))),
     true).
Proof.
  unfold refreshes, get_rankings. intros [-> | ->].
  - reflexivity.
  - now rewrite andb_false_r.
Qed.

(** X23.  When [get_rankings] runs the fetches (on [force_refresh], or
    without a valid cache) it returns the top ten by trading value: the
    results that are neither exceptions nor null, stably sorted into
    descending order of trading value and cut after the tenth, with the
    ranks 1, 2, 3, ... written over whatever rank the entries came
    with.  No entry left out has a greater trading value than an entry
    returned, and the list returned is the list cached. *)
Theorem refresh_returns_the_top_ten (self : RankingService)
    (force : bool) (now now' : R)
    (results : list (Res (option StockRanking))) :
  refreshes self force now ->
  let res := get_rankings self force now now' results in
  let rankings := res.1.2 in
  exists sorted,
    Permutation sorted (valid_stocks_of results) /\
    StronglySorted ge_value sorted /\
    (forall v, List.filter (has_value v) sorted
               = List.filter (has_value v) (valid_stocks_of results)) /\
    rankings = assign_ranks 1 (take 10 sorted) /\
    length rankings = Nat.min 10 (length (valid_stocks_of results)) /\
    (forall i r, rankings !! i = Some r ->
       rank r = (1 + Z.of_nat i)%Z /\
       exists s, sorted !! i = Some s /\ r = set_rank (rank r) s) /\
    (forall a b, a ∈ take 10 sorted -> b ∈ drop 10 sorted ->
       trading_value b <= trading_value a) /\
    res.2 = true /\ cache res.1.1 = Some rankings.
Proof.
  intros Hrefresh res rankings. subst rankings res.
  rewrite (get_rankings_refresh self force now now' results Hrefresh).
  cbn [fst snd cache].
  set (valid := valid_stocks_of results).
  exists (sort_by_value valid).
  split; [symmetry; apply sort_by_value_perm|].
  split; [apply sort_by_value_sorted|].
  split; [intros v; apply sort_by_value_stable|].
  split; [apply assign_ranks_take|].
  split.
  - rewrite length_take, assign_ranks_length.
    rewrite <- (Permutation_length (sort_by_value_perm valid)). lia.
  - split; [|split; [|split; reflexivity]].
    + intros i r Hr. rewrite assign_ranks_take, assign_ranks_lookup in Hr.
      destruct (take 10 (sort_by_value valid) !! i) as [s|] eqn:Hs;
        [|discriminate].
      injection Hr as <-. split; [reflexivity|].
      exists s. split; [|reflexivity].
      apply lookup_take_Some in Hs. tauto.
    + intros a b Ha Hb.
      apply (sorted_take_drop (sort_by_value valid) 10 a b);
        [apply sort_by_value_sorted | assumption..].
Qed.

Lemma refresh_returns_the_top_ten_witness :
  let a := mkStockRanking "005930.KS" "A" "KOSPI" 70000 1 1 300 [] in
  let b := mkStockRanking "000660.KS" "B" "KOSPI" 90000 2 1 500 [] in
  let results :=
    [Ok (Some a); Raise TimeoutError; Ok None; Ok (Some b)] in
  refreshes RankingService_init false 0 /\
  length (get_rankings RankingService_init false 0 1 results).1.2 = 2%nat.
Proof.
  intros a b results.
  assert (H : refreshes RankingService_init false 0) by (right; reflexivity).
  split; [exact H|].
  destruct (refresh_returns_the_top_ten RankingService_init false 0 1
              results H) as (sorted & _ & _ & _ & _ & Hlen & _).
  exact Hlen.
Defined.

(** X24.  The rankings cache.  A call that runs the fetches stores what
    it returns, an empty list included; less than sixty seconds after
    it a call without [force_refresh] returns that list again without
    running any fetch and leaves the service as it is; sixty seconds or
    more after it the fetches are run again, as they are on a service
    that has never run them. *)
Theorem rankings_cache_lasts_a_minute (self : RankingService)
    (force : bool) (now now' : R)
    (results : list (Res (option StockRanking))) :
  refreshes self force now ->
  let res := get_rankings self force now now' results in
  let self1 := res.1.1 in
  (forall now2 now2' results2,
     now2 - now' < 60 ->
     get_rankings self1 false now2 now2' results2 = (self1, res.1.2, false)) /\
  (forall now2, 60 <= now2 - now' -> refreshes self1 false now2) /\
  (forall force2 now2, refreshes RankingService_init force2 now2).
Proof.
  intros Hrefresh res self1. subst self1 res.
  rewrite (get_rankings_refresh self force now now' results Hrefresh).
  cbn [fst snd].
  split; [|split].
  - intros now2 now2' results2 Hlt.
    unfold get_rankings, _is_cache_valid, cache_ttl.
    cbn [cache cache_timestamp negb andb].
    destruct (Rlt_dec (now2 - now') 60); [reflexivity | contradiction].
  - intros now2 Hge. right.
    unfold _is_cache_valid, cache_ttl. cbn [cache cache_timestamp].
    destruct (Rlt_dec (now2 - now') 60); [lra | reflexivity].
  - intros force2 now2. right. reflexivity.
Qed.

Lemma rankings_cache_lasts_a_minute_witness :
  let res := get_rankings RankingService_init false 0 1 [] in
  refreshes RankingService_init false 0 /\
  res.1.2 = [] /\
  get_rankings res.1.1 false 60 61 [Raise TimeoutError]
  = (res.1.1, [], false).
Proof.
  intros res.
  assert (H : refreshes RankingService_init false 0) by (right; reflexivity).
  split; [exact H|]. split; [reflexivity|].
  apply (proj1 (rankings_cache_lasts_a_minute RankingService_init false
                  0 1 [] H) 60 61 [Raise TimeoutError]).
  lra.
Defined.

End RankingProps.

(** ** Price bars and technical indicators *)

Section DataProps.

Import Ensemble Data.

Local Open Scope R_scope.

(** X25.  What the [OHLCV] model accepts: exactly the bars with
    positive open, high, low and close, a low that does not exceed the
    high, and a volume that is not negative.  The validator of [high]
    never rejects anything, since [low] is validated after it; and
    neither open nor close is checked against the range from low to
    high. *)
Theorem ohlcv_accepts_low_up_to_high (o h l c : R) (v : Z) :
  (forall values, dict_get values "low" = None ->
     validate_high h values = Ok h) /\
  ((0 < o /\ 0 < h /\ 0 < l /\ l <= h /\ 0 < c /\ (0 <= v)%Z) ->
     OHLCV_new o h l c v = Ok (mkOHLCV o h l c v)) /\
  (forall x, OHLCV_new o h l c v = Ok x ->
     x = mkOHLCV o h l c v /\
     0 < o /\ 0 < h /\ 0 < l /\ l <= h /\ 0 < c /\ (0 <= v)%Z).
Proof.
  split; [|split].
  - intros values Hlow. unfold validate_high. now rewrite Hlow.
  - intros (Ho & Hh & Hl & Hlh & Hc & Hv).
    unfold OHLCV_new, gt0, validated, validate_high, validate_low.
    unfold mbind, Res_bind, bind.
    destruct (Rlt_dec 0 o); [|contradiction].
    destruct (Rlt_dec 0 h); [|contradiction].
    destruct (Rlt_dec 0 l); [|contradiction].
    destruct (Rlt_dec 0 c); [|contradiction].
    cbn [dict_get app String.eqb Ascii.eqb Bool.eqb].
    destruct (Rlt_dec h l); [lra|].
    destruct (Z.leb_spec 0 v); [reflexivity | lia].
  - intros x. unfold OHLCV_new, gt0, validated, validate_high, validate_low.
    unfold mbind, Res_bind, bind.
    destruct (Rlt_dec 0 o); [|discriminate].
    destruct (Rlt_dec 0 h); [|discriminate].
    cbn [dict_get app String.eqb Ascii.eqb Bool.eqb].
    destruct (Rlt_dec 0 l); [|discriminate].
    destruct (Rlt_dec h l); [discriminate|].
    destruct (Rlt_dec 0 c); [|discriminate].
    destruct (Z.leb_spec 0 v); [|discriminate].
    intros [= <-]. repeat split; try assumption; lra.
Qed.

Lemma ohlcv_accepts_low_up_to_high_witness :
  OHLCV_new 120 110 100 90 0 = Ok (mkOHLCV 120 110 100 90 0).
Proof.
  apply (ohlcv_accepts_low_up_to_high 120 110 100 90 0).
  repeat split; try lra; lia.
Defined.

End DataProps.

Section HistoricalProps.

Import Ensemble Data Historical.

Local Open Scope R_scope.

Lemma total_nonneg (l : list R) : Forall (fun x => 0 <= x) l -> 0 <= total l.
Proof.
  induction 1 as [|x l Hx _ IH]; simpl; lra.
Qed.

Lemma total_zero (l : list R) :
  Forall (fun x => 0 <= x) l -> total l = 0 -> Forall (fun x => x = 0) l.
Proof.
  induction 1 as [|x l Hx Hl IH]; simpl; intros Ht; constructor.
  - pose proof (total_nonneg l Hl). lra.
  - apply IH. pose proof (total_nonneg l Hl). lra.
Qed.

Lemma total_pos (l : list R) :
  l <> [] -> Forall (fun x => 0 < x) l -> 0 < total l.
Proof.
  intros Hne Hall. destruct Hall as [|x l Hx Hl]; [congruence|].
  simpl. assert (0 <= total l); [|lra].
  apply total_nonneg. eapply Forall_impl; [exact Hl|]. simpl. intros; lra.
Qed.

Lemma gain_nonneg d : 0 <= gain d.
Proof. unfold gain. destruct (Rlt_dec 0 d); lra. Qed.

Lemma loss_nonneg d : 0 <= loss d.
Proof. unfold loss. destruct (Rlt_dec d 0); lra. Qed.

Lemma map_nonneg (f : R -> R) (l : list R) :
  (forall d, 0 <= f d) -> Forall (fun x => 0 <= x) (map f l).
Proof. intros Hf. induction l; simpl; constructor; auto. Qed.

Lemma losses_zero (l : list R) :
  total (map loss l) = 0 <-> Forall (fun d => 0 <= d) l.
Proof.
  split.
  - intros H. apply total_zero in H; [|apply map_nonneg, loss_nonneg].
    induction l as [|d l IH]; [constructor|].
    inversion H as [|? ? Hd Hl]; subst. constructor; [|auto].
    unfold loss in Hd. destruct (Rlt_dec d 0); lra.
  - induction 1 as [|d l Hd _ IH]; simpl; [reflexivity|].
    rewrite IH. unfold loss. destruct (Rlt_dec d 0); lra.
Qed.

Lemma py_div_ok (x y : R) : y <> 0 -> py_div x y = Ok (x / y).
Proof. intros Hy. unfold py_div. now destruct (Req_dec_T y 0). Qed.

(** The value [_calculate_rsi] computes on enough prices. *)
Lemma rsi_value (prices : list R) (period : nat) :
  (0 < period)%nat -> (period < length prices)%nat ->
  let window := last_n period (deltas prices) in
  let G := total (map gain window) in
  let L := total (map loss window) in
  _calculate_rsi prices period =
    Ok (Some (if Req_dec_T L 0 then 100 else 100 - 100 / (1 + G / L))).
Proof.
  intros Hp Hlen window G L. unfold _calculate_rsi.
  destruct (Nat.ltb_spec (length prices) (period + 1)); [lia|].
  fold window. rewrite !sum_total. fold G L.
  assert (HP : 0 < INR period) by (apply lt_0_INR; exact Hp).
  assert (HG : 0 <= G) by (apply total_nonneg, map_nonneg, gain_nonneg).
  assert (HL : 0 <= L) by (apply total_nonneg, map_nonneg, loss_nonneg).
  rewrite !(py_div_ok _ (INR period)) by lra.
  unfold mbind, Res_bind, bind.
  destruct (Req_dec_T (L / INR period) 0) as [H0 | Hn0].
  - destruct (Req_dec_T L 0) as [|HLn]; [reflexivity|].
    exfalso. apply HLn.
    apply (Rmult_eq_reg_r (/ INR period));
      [|apply Rinv_neq_0_compat; lra].
    unfold Rdiv in H0. lra.
  - destruct (Req_dec_T L 0) as [HL0 | HLn].
    + exfalso. apply Hn0. rewrite HL0. unfold Rdiv. lra.
    + assert (Hrs : G / INR period / (L / INR period) = G / L)
        by (field; lra).
      rewrite (py_div_ok _ (L / INR period)) by exact Hn0.
      rewrite Hrs.
      assert (Hq : 0 <= G / L).
      { apply Rmult_le_pos; [exact HG|].
        apply Rlt_le, Rinv_0_lt_compat. lra. }
      rewrite py_div_ok by lra. reflexivity.
Qed.

(** X26.  [_calculate_rsi] with a positive period returns nothing on
    fewer than [period + 1] prices and a value otherwise, without ever
    dividing by zero.  The value is 100 when no price of the window
    fell, a flat window included. *)
Theorem rsi_of_a_window_without_fall (prices : list R) (period : nat) :
  (0 < period)%nat ->
  ((length prices <= period)%nat -> _calculate_rsi prices period = Ok None) /\
  ((period < length prices)%nat ->
     let window := last_n period (deltas prices) in
     exists r,
       _calculate_rsi prices period = Ok (Some r) /\
       (Forall (fun d => 0 <= d) window -> r = 100)).
Proof.
  intros Hp. split.
  - intros Hlen. unfold _calculate_rsi.
    destruct (Nat.ltb_spec (length prices) (period + 1)); [reflexivity | lia].
  - intros Hlen window.
    rewrite (rsi_value prices period Hp Hlen). fold window.
    eexists. split; [reflexivity|].
    intros Hall. apply losses_zero in Hall.
    destruct (Req_dec_T (total (map loss window)) 0);
      [reflexivity | contradiction].
Qed.

Lemma rsi_of_a_window_without_fall_witness :
  _calculate_rsi [10; 10; 10] 2 = Ok (Some 100).
Proof.
  assert (Hp : (0 < 2)%nat) by lia.
  assert (Hlen : (2 < length [10; 10; 10])%nat) by (simpl; lia).
  destruct (proj2 (rsi_of_a_window_without_fall [10; 10; 10] 2 Hp) Hlen)
    as (r & Hr & Heq).
  rewrite Hr. do 2 f_equal. apply Heq.
  unfold last_n. simpl. repeat constructor; lra.
Defined.

End HistoricalProps.

Section IndicatorProps.

Import Ensemble Data Historical.

Local Open Scope R_scope.

Lemma last_n_Forall {A} (P : A -> Prop) (n : nat) (l : list A) :
  Forall P l -> Forall P (last_n n l).
Proof.
  intros H. unfold last_n. destruct (n =? 0)%nat; [exact H|].
  now apply Forall_drop.
Qed.

Lemma last_n_length {A} (n : nat) (l : list A) :
  (0 < n)%nat -> length (last_n n l) = Nat.min n (length l).
Proof.
  intros Hn. unfold last_n.
  destruct (Nat.eqb_spec n 0); [lia|]. rewrite length_drop. lia.
Qed.

Lemma moving_average_pos (n : nat) (closes : list R) :
  (0 < n)%nat -> closes <> [] -> Forall (fun c => 0 < c) closes ->
  0 < sum (last_n n closes) / INR n.
Proof.
  intros Hn Hne Hall. rewrite sum_total.
  apply Rdiv_lt_0_compat; [|now apply lt_0_INR].
  apply total_pos; [|now apply last_n_Forall].
  intros Hnil. apply (f_equal length) in Hnil.
  rewrite last_n_length in Hnil by assumption.
  destruct closes; [congruence | simpl in Hnil; lia].
Qed.

Lemma convert_fold (rows : list Row) : forall acc,
  Forall (fun x => 0 < close x /\ 0 < low x /\ low x <= high x) acc ->
  Forall (fun x => 0 < close x /\ 0 < low x /\ low x <= high x)
    (fold_left
       (fun ohlcv_list (row : Row) =>
          let '(o, h, l, c, v) := row in
          match OHLCV_new o h l c v with
          | Ok ohlcv => ohlcv_list ++ [ohlcv]
          | Raise _ => ohlcv_list
          end)
       rows acc).
Proof.
  induction rows as [|[[[[o h] l] c] v] rows IH]; intros acc Hacc;
    [exact Hacc|].
  cbn [fold_left]. apply IH.
  destruct (OHLCV_new o h l c v) as [x|] eqn:Hx; [|exact Hacc].
  apply Forall_app. split; [exact Hacc|]. constructor; [|constructor].
  revert Hx. unfold OHLCV_new, gt0, validated, validate_high, validate_low.
  unfold mbind, Res_bind, bind.
  destruct (Rlt_dec 0 o); [|discriminate].
  destruct (Rlt_dec 0 h); [|discriminate].
  cbn [dict_get app String.eqb Ascii.eqb Bool.eqb].
  destruct (Rlt_dec 0 l); [|discriminate].
  destruct (Rlt_dec h l); [discriminate|].
  destruct (Rlt_dec 0 c); [|discriminate].
  destruct (Z.leb_spec 0 v); [|discriminate].
  intros [= <-]. simpl. repeat split; try assumption; lra.
Qed.

(** X27.  The technical indicators follow the length of the history and
    are never computed by a division by zero: fewer than 20 daily bars
    give no indicator, 20 to 49 bars give MA20 and RSI, 50 bars or more
    give MA20, MA50 and RSI, in that order.  On bars with positive
    closes, as all bars converted from a price frame are, both moving
    averages are positive. *)
Theorem indicators_follow_history_length (daily_data : list OHLCV) :
  exists indicators,
    calculate_technical_indicators daily_data = Ok indicators /\
    dict_keys indicators =
      (if (length daily_data <? 20)%nat then []
       else if (length daily_data <? 50)%nat then ["MA20"; "RSI"]
       else ["MA20"; "MA50"; "RSI"]) /\
    (Forall (fun x => 0 < close x) daily_data ->
     forall k v, k = "MA20" \/ k = "MA50" ->
       dict_get indicators k = Some v -> 0 < v) /\
    (forall rows, Forall (fun x => 0 < close x) (_convert_to_ohlcv rows)).
Proof.
  assert (Hconv : forall rows,
            Forall (fun x => 0 < close x) (_convert_to_ohlcv rows)).
  { intros rows. unfold _convert_to_ohlcv.
    eapply Forall_impl; [apply convert_fold; constructor|].
    simpl. tauto. }
  unfold calculate_technical_indicators.
  destruct (Nat.ltb_spec (length daily_data) 20) as [Hlt | Hge].
  { exists []. repeat split; try discriminate; auto. }
  set (closes := map close daily_data).
  assert (Hlen : length closes = length daily_data)
    by (unfold closes; apply length_map).
  rewrite Hlen.
  destruct (Nat.leb_spec 20 (length daily_data)); [|lia].
  destruct (Nat.leb_spec 15 (length daily_data)); [|lia].
  rewrite (rsi_value closes 14) by lia.
  unfold mbind, Res_bind, bind.
  assert (Hma : Forall (fun x => 0 < close x) daily_data ->
            forall n, (0 < n)%nat -> 0 < sum (last_n n closes) / INR n).
  { intros Hall n Hn. apply moving_average_pos; [exact Hn| |].
    - intros Hnil. rewrite Hnil in Hlen. simpl in Hlen. lia.
    - unfold closes. apply Forall_map.
      eapply Forall_impl; [exact Hall|]. auto. }
  destruct (Nat.leb_spec 50 (length daily_data)) as [H50 | H50].
  - destruct (Nat.ltb_spec (length daily_data) 50); [lia|].
    eexists. split; [reflexivity|]. split; [reflexivity|].
    split; [|exact Hconv].
    intros Hall k v [-> | ->] Hv; simpl in Hv; injection Hv as <-.
    + replace 20 with (INR 20) by (simpl; lra). apply Hma; [exact Hall|lia].
    + replace 50 with (INR 50) by (simpl; lra). apply Hma; [exact Hall|lia].
  - destruct (Nat.ltb_spec (length daily_data) 50); [|lia].
    eexists. split; [reflexivity|]. split; [reflexivity|].
    split; [|exact Hconv].
    intros Hall k v [-> | ->] Hv; simpl in Hv; [|discriminate].
    injection Hv as <-.
    replace 20 with (INR 20) by (simpl; lra). apply Hma; [exact Hall|lia].
Qed.

End IndicatorProps.
